(** * magic-image-refiner: the request orchestration of [predict.py]

    A shallow embedding of [src/predict.py]: the conditioning-image resize,
    the HDR brightness factors, the scheduler registry and the [predict]
    entry point, with theorems about them.

    Python floats are IEEE 754 binary64 numbers, modelled by the Standard
    Library's [spec_float] with precision 53 and maximal exponent 1024, so
    every arithmetic step below rounds as CPython's does.  PIL images are
    objects in a heap; [predict] runs in a monad that threads the heap, the
    file system, the two long-lived pipelines with the ControlNet they share
    and the local frame, records the calls made to the models, and may
    raise.  The libraries the code calls
    into (Lanczos resampling, Real-ESRGAN, OpenCV colour conversion and
    exposure fusion, the diffusion pipelines) are parameters of the model. *)

From Stdlib Require Import ZArith Lia List.
From Stdlib Require Import Floats.SpecFloat.
From stdpp Require Import gmap strings list pretty.

Local Open Scope Z_scope.

(* ================================================================== *)
(** * Python floats *)
(* ================================================================== *)

Module PyFloat.

(** binary64 *)
Definition prec : Z := 53.
Definition emax : Z := 1024.

(** [float(z)]: the correctly rounded conversion of a Python int. *)
Definition float_of_Z (z : Z) : spec_float := binary_normalize prec emax z 0 false.

Definition fadd : spec_float -> spec_float -> spec_float := SFadd prec emax.
Definition fsub : spec_float -> spec_float -> spec_float := SFsub prec emax.
Definition fmul : spec_float -> spec_float -> spec_float := SFmul prec emax.
Definition fdiv : spec_float -> spec_float -> spec_float := SFdiv prec emax.

(** [x > y] and [x < y]; false as soon as one side is NaN. *)
Definition fgt (x y : spec_float) : bool := SFltb y x.
Definition flt (x y : spec_float) : bool := SFltb x y.

(** The decimal literal [n/d] (such as [0.45] = 45/100): the binary64 number
    nearest to the rational, which is what correctly rounded division of the
    two exactly representable integers gives. *)
Definition lit (n d : Z) : spec_float := fdiv (float_of_Z n) (float_of_Z d).

Definition is_zero (x : spec_float) : bool :=
  match x with S754_zero _ => true | _ => false end.

Definition is_nan (x : spec_float) : bool :=
  match x with S754_nan => true | _ => false end.

(** The integer nearest to [m * 2^e], ties going to the even one: what
    [round(x)] returns for a finite positive float. *)
Definition round_half_even (m : positive) (e : Z) : Z :=
  match e with
  | Zneg p =>
      let d := 2 ^ Zpos p in
      let q := Zpos m / d in
      match (2 * (Zpos m mod d)) ?= d with
      | Lt => q
      | Gt => q + 1
      | Eq => if Z.even q then q else q + 1
      end
  | _ => Zpos m * 2 ^ e
  end.

(** The integer part of [m * 2^e] (rounding toward zero). *)
Definition trunc_pos (m : positive) (e : Z) : Z :=
  match e with
  | Zneg p => Zpos m / 2 ^ Zpos p
  | _ => Zpos m * 2 ^ e
  end.

(** [np.clip(x, 0, 255)] on one element, in the format [fz] converts
    integers to: NaN goes through unchanged. *)
Definition clip_0_255 (fz : Z -> spec_float) (x : spec_float) : spec_float :=
  if is_nan x then x
  else if flt x (fz 0) then fz 0
  else if fgt x (fz 255) then fz 255
  else x.

(** [.astype('uint8')] on one element: the C conversion truncates toward
    zero and the value is stored modulo 256; NaN and infinities, for which
    the conversion is undefined, are taken to 0. *)
Definition to_uint8 (x : spec_float) : Z :=
  match x with
  | S754_finite s m e => (cond_Zopp s (trunc_pos m e)) mod 256
  | _ => 0
  end.

(** binary32, the element type of the array OpenCV's exposure fusion
    returns. *)
Definition f32_of_Z (z : Z) : spec_float := binary_normalize 24 128 z 0 false.
Definition f32_mul : spec_float -> spec_float -> spec_float := SFmul 24 128.

End PyFloat.

Import PyFloat.

(* ================================================================== *)
(** * Exceptions *)
(* ================================================================== *)

(** The exceptions a request can end in.  [Exception] is the bare
    [raise Exception(msg)] of [predict]; [CvError] is OpenCV's [cv2.error];
    [UnidentifiedImageError] is what Pillow raises for a file it cannot read
    an image from; [ModelError] stands for whatever a call into a network
    raises (running out of device memory, an argument it refuses), of which
    the model keeps only where it came from; [ValidationError] is what the
    serving framework answers when an input violates the constraints declared
    with [Input(...)]. *)
Inductive exn : Type :=
  | ZeroDivisionError
  | OverflowError
  | MemoryError
  | ValueError (msg : string)
  | TypeError (msg : string)
  | RuntimeError (msg : string)
  | KeyError (key : string)
  | FileNotFoundError (path : string)
  | SameFileError (path : string)
  | UnidentifiedImageError (path : string)
  | CvError
  | ModelError (model : string)
  | UnboundLocalError (name : string)
  | Exception (msg : string)
  | ValidationError (field : string).

(** [float(z)] as Python performs it implicitly in [float / int] and
    [int * float]: an int too large for a double raises. *)
Definition float_of_int (z : Z) : exn + spec_float :=
  match float_of_Z z with
  | S754_infinity _ => inl OverflowError
  | f => inr f
  end.

(** [x / z] for a float [x] and an int [z]. *)
Definition truediv_int (x : spec_float) (z : Z) : exn + spec_float :=
  match float_of_int z with
  | inl e => inl e
  | inr fz => if is_zero fz then inl ZeroDivisionError else inr (fdiv x fz)
  end.

(** [z * x] for an int [z] and a float [x]. *)
Definition int_mul_float (z : Z) (x : spec_float) : exn + spec_float :=
  match float_of_int z with
  | inl e => inl e
  | inr fz => inr (fmul fz x)
  end.

(** [int(round(x))] for a float [x]. *)
Definition py_round (x : spec_float) : exn + Z :=
  match x with
  | S754_zero _ => inr 0
  | S754_infinity _ => inl OverflowError
  | S754_nan => inl (ValueError "cannot convert float NaN to integer")
  | S754_finite s m e => inr (cond_Zopp s (round_half_even m e))
  end.

(** [int(round(dim * scale_factor / 64)) * 64], the expression evaluated for
    the height and then for the width on line 75. *)
Definition round_to_64 (dim : Z) (scale_factor : spec_float) : exn + Z :=
  match int_mul_float dim scale_factor with
  | inl e => inl e
  | inr t =>
      match truediv_int t 64 with
      | inl e => inl e
      | inr u =>
          match py_round u with
          | inl e => inl e
          | inr r => inr (r * 64)
          end
      end
  end.

(** [float(1024) / min(height, width)] *)
Definition scale_factor_of (width height : Z) : exn + spec_float :=
  truediv_int (float_of_Z 1024) (Z.min height width).

(** The pair [(new_width, new_height)] of line 75. *)
Definition new_size (width height : Z) : exn + (Z * Z) :=
  match scale_factor_of width height with
  | inl e => inl e
  | inr scale_factor =>
      match round_to_64 height scale_factor with
      | inl e => inl e
      | inr new_height =>
          match round_to_64 width scale_factor with
          | inl e => inl e
          | inr new_width => inr (new_width, new_height)
          end
      end
  end.

(** A positive normal binary64 number whose magnitude exponent (the [k] with
    [2^(k-1) <= x < 2^k]) lies between [lo] and [hi]. *)
Definition pos_normal (x : spec_float) (lo hi : Z) : Prop :=
  exists m e, x = S754_finite false m e /\ Zpos (digits2_pos m) = prec /\
              lo <= prec + e <= hi.

(** A side length of at least one pixel that is far inside the range of a
    double, so that no step of lines 74 and 75 overflows. *)
Definition valid_side (d : Z) : Prop := 1 <= d < 2 ^ 1000.

(** A value of the C type [int], which is how Pillow's resize and the sizes
    of its images are stored. *)
Definition c_int (z : Z) : bool := (- 2 ^ 31 <=? z) && (z <? 2 ^ 31).

(** A value [torch.Generator.manual_seed] takes: one that fits 64 bits,
    read as signed or as unsigned. *)
Definition seed_in_range (z : Z) : bool := (- 2 ^ 63 <=? z) && (z <? 2 ^ 64).

(* ================================================================== *)
(** * Brightness factors (lines 88-94) *)
(* ================================================================== *)

Definition one : spec_float := float_of_Z 1.

Definition calculate_brightness_factors (hdr_intensity : spec_float)
  : list spec_float :=
  let factors := repeat one 9 in
  if fgt hdr_intensity (float_of_Z 0) then
    [ fsub one (fmul (lit 9 10) hdr_intensity);
      fsub one (fmul (lit 7 10) hdr_intensity);
      fsub one (fmul (lit 45 100) hdr_intensity);
      fsub one (fmul (lit 25 100) hdr_intensity);
      one;
      fadd one (fmul (lit 2 10) hdr_intensity);
      fadd one (fmul (lit 4 10) hdr_intensity);
      fadd one (fmul (lit 6 10) hdr_intensity);
      fadd one (fmul (lit 8 10) hdr_intensity) ]
  else factors.

(* ================================================================== *)
(** * Images, arrays, pipelines *)
(* ================================================================== *)

(** A PIL image: mode, size and the pixels in row-major order, each pixel
    the list of its band values (three for mode RGB). *)
Record Image : Type := {
  im_mode : string;
  im_width : Z;
  im_height : Z;
  im_data : list (list Z) }.

(** [image.size] *)
Definition im_size (img : Image) : Z * Z := (im_width img, im_height img).

(** A NumPy array of shape rows x cols x channels with [uint8] elements. *)
Record ndarray : Type := {
  nd_rows : Z;
  nd_cols : Z;
  nd_data : list (list Z) }.

(** The four scheduler classes the file imports, and [PretrainedScheduler]
    for whichever class the weights on disk name. *)
Inductive scheduler_class : Type :=
  | DDIMScheduler
  | DPMSolverMultistepScheduler
  | EulerAncestralDiscreteScheduler
  | EulerDiscreteScheduler
  | PretrainedScheduler (name : string).

(** A scheduler object: its class and its [config]. *)
Record Scheduler : Type := {
  sched_class : scheduler_class;
  sched_config : list (string * string) }.

(** [cls.from_config(config)] *)
Definition from_config (cls : scheduler_class) (config : list (string * string))
  : Scheduler :=
  {| sched_class := cls; sched_config := config |}.

Inductive pipe_kind : Type := Img2Img | Inpaint.

(** One of the two long-lived pipelines of the predictor, with the
    attributes [predict] assigns; [xformers_enabled] is the attention switch
    of the modules the pipeline has for itself. *)
Record Pipeline : Type := {
  pipe_weights : string;
  safety_checker : option string;
  pipe_scheduler : Scheduler;
  xformers_enabled : bool }.

(** The ControlNet [setup] loads once and hands to both pipelines (lines
    41-56): one object, with its own attention switch. *)
Record ControlNet : Type := {
  cn_weights : string;
  cn_xformers : bool }.

(** What a path of the file system holds: a file Pillow opens and decodes,
    given by the image the loader makes of it (orientation applied, before
    the conversion to RGB), or data in which Pillow finds no image. *)
Inductive file : Type :=
  | ImageFile (img : Image)
  | OtherFile (content : string).

(** Values stored in the keyword-argument dictionary [args]. *)
Inductive value : Type :=
  | VNone
  | VBool (b : bool)
  | VInt (z : Z)
  | VFloat (f : spec_float)
  | VStr (s : string)
  | VImage (ref : nat)
  | VGenerator (seed : Z).

(** The locals of [predict] that hold per-request tensors. *)
Inductive local : Type :=
  | LGenerator (seed : Z)
  | LImage (ref : nat)
  | LOutputs (refs : list nat).

(** Calls that reach a model or the device, and console output. *)
Inductive event : Type :=
  | EvPrint (line : string)
  | EvSuperRes (scale : Z) (input : Image)
  | EvInference (kind : pipe_kind) (pipe : Pipeline) (args : gmap string value)
  | EvEmptyCache.

(** The library code behind the calls of [predict.py]. *)
Record externals : Type := {
  (** pixels of [img.convert(mode)] when the mode changes *)
  ext_convert : string -> Image -> list (list Z);
  (** pixels of [img.resize((w, h), resample=Image.LANCZOS)], or [None] when
      Pillow cannot make an image of that size *)
  ext_lanczos : Image -> Z -> Z -> option (list (list Z));
  (** the image [RealESRGAN(scale).predict(img)] returns, or [None] when the
      call raises *)
  ext_esrgan : Z -> Image -> option Image;
  (** [cv2.cvtColor(_, COLOR_BGR2HSV)] and [COLOR_HSV2BGR], pixel by pixel *)
  ext_bgr2hsv : list Z -> list Z;
  ext_hsv2bgr : list Z -> list Z;
  (** [cv2.createMergeMertens().process(images)]: float32 pixels *)
  ext_mertens : list ndarray -> list (list spec_float);
  (** [pipe( **args).images] for the pipeline in its current configuration,
      or [None] when the call raises *)
  ext_diffusion : pipe_kind -> Pipeline -> gmap string value ->
                  gmap nat Image -> option (list Image) }.

(** The state a request runs in. *)
Record state : Type := {
  st_heap : gmap nat Image;          (** live PIL image objects *)
  st_fs : gmap string file;          (** the files, by path *)
  st_entropy : nat -> Byte.byte;     (** the bytes [os.urandom] will hand out *)
  st_consumed : nat;                 (** how many of them were drawn *)
  img2img_pipe : Pipeline;           (** [self.img2img_pipe] *)
  inpaint_pipe : Pipeline;           (** [self.inpaint_pipe] *)
  controlnet : ControlNet;           (** the ControlNet both of them hold *)
  st_frame : gmap string local }.    (** locals of the running [predict] *)

(* ================================================================== *)
(** * The monad: state, exceptions, and a log of events *)
(* ================================================================== *)

Definition M (A : Type) : Type := state -> (exn + A) * state * list event.

Definition ret {A} (x : A) : M A := fun s => (inr x, s, []).

Definition bind {A B} (m : M A) (f : A -> M B) : M B :=
  fun s =>
    match m s with
    | (inl e, s1, ev1) => (inl e, s1, ev1)
    | (inr x, s1, ev1) =>
        match f x s1 with
        | (r, s2, ev2) => (r, s2, ev1 ++ ev2)
        end
    end.

Definition raise {A} (e : exn) : M A := fun s => (inl e, s, []).
Definition emit (ev : event) : M unit := fun s => (inr tt, s, [ev]).
Definition get : M state := fun s => (inr s, s, []).
Definition put (s : state) : M unit := fun _ => (inr tt, s, []).
Definition lift {A} (r : exn + A) : M A :=
  match r with inl e => raise e | inr x => ret x end.

Declare Scope py_scope.
Delimit Scope py_scope with py.
Notation "x <- m ;; k" := (bind m (fun x => k))
  (at level 100, m at next level, right associativity) : py_scope.
Notation "m ;; k" := (bind m (fun _ => k))
  (at level 100, right associativity) : py_scope.
Local Open Scope py_scope.

(** The three components of a run. *)
Definition outcome {A} (r : (exn + A) * state * list event) : exn + A := fst (fst r).
Definition final {A} (r : (exn + A) * state * list event) : state := snd (fst r).
Definition events {A} (r : (exn + A) * state * list event) : list event := snd r.

(** ** State updates *)

Definition set_heap (h : gmap nat Image) (s : state) : state :=
  {| st_heap := h; st_fs := st_fs s; st_entropy := st_entropy s;
     st_consumed := st_consumed s; img2img_pipe := img2img_pipe s;
     inpaint_pipe := inpaint_pipe s; controlnet := controlnet s;
     st_frame := st_frame s |}.

Definition set_fs (fs : gmap string file) (s : state) : state :=
  {| st_heap := st_heap s; st_fs := fs; st_entropy := st_entropy s;
     st_consumed := st_consumed s; img2img_pipe := img2img_pipe s;
     inpaint_pipe := inpaint_pipe s; controlnet := controlnet s;
     st_frame := st_frame s |}.

Definition set_consumed (n : nat) (s : state) : state :=
  {| st_heap := st_heap s; st_fs := st_fs s; st_entropy := st_entropy s;
     st_consumed := n; img2img_pipe := img2img_pipe s;
     inpaint_pipe := inpaint_pipe s; controlnet := controlnet s;
     st_frame := st_frame s |}.

Definition set_frame (fr : gmap string local) (s : state) : state :=
  {| st_heap := st_heap s; st_fs := st_fs s; st_entropy := st_entropy s;
     st_consumed := st_consumed s; img2img_pipe := img2img_pipe s;
     inpaint_pipe := inpaint_pipe s; controlnet := controlnet s;
     st_frame := fr |}.

Definition set_controlnet (cn : ControlNet) (s : state) : state :=
  {| st_heap := st_heap s; st_fs := st_fs s; st_entropy := st_entropy s;
     st_consumed := st_consumed s; img2img_pipe := img2img_pipe s;
     inpaint_pipe := inpaint_pipe s; controlnet := cn;
     st_frame := st_frame s |}.

(** [pipe] is a name for one of the two shared pipeline objects. *)
Definition get_pipe (k : pipe_kind) (s : state) : Pipeline :=
  match k with Img2Img => img2img_pipe s | Inpaint => inpaint_pipe s end.

Definition set_pipe (k : pipe_kind) (p : Pipeline) (s : state) : state :=
  {| st_heap := st_heap s; st_fs := st_fs s; st_entropy := st_entropy s;
     st_consumed := st_consumed s;
     img2img_pipe := match k with Img2Img => p | Inpaint => img2img_pipe s end;
     inpaint_pipe := match k with Img2Img => inpaint_pipe s | Inpaint => p end;
     controlnet := controlnet s;
     st_frame := st_frame s |}.

(** ** Heap, frame, files, entropy *)

(** A new image object: a reference no live object has. *)
Definition alloc (img : Image) : M nat :=
  fun s =>
    let ref := fresh (dom (st_heap s)) in
    (inr ref, set_heap (<[ref := img]> (st_heap s)) s, []).

Definition deref (ref : nat) : M Image :=
  fun s =>
    match st_heap s !! ref with
    | Some img => (inr img, s, [])
    | None => (inl (ValueError "operation on a released image"), s, [])
    end.

(** Entering a function: no local is bound yet. *)
Definition new_frame : M unit :=
  fun s => (inr tt, set_frame ∅ s, []).

(** [name = v] *)
Definition assign (name : string) (v : local) : M unit :=
  fun s => (inr tt, set_frame (<[name := v]> (st_frame s)) s, []).

(** [del name] *)
Definition del (name : string) : M unit :=
  fun s =>
    match st_frame s !! name with
    | Some _ => (inr tt, set_frame (delete name (st_frame s)) s, [])
    | None => (inl (UnboundLocalError name), s, [])
    end.

(** [shutil.copyfile(src, dst)]: the two paths are compared as files, so a
    source that is not there is reported as missing even when both paths are
    the same. *)
Definition copyfile (src dst : string) : M unit :=
  fun s =>
    match st_fs s !! src with
    | None => (inl (FileNotFoundError src), s, [])
    | Some f =>
        if bool_decide (src = dst) then (inl (SameFileError src), s, [])
        else (inr tt, set_fs (<[dst := f]> (st_fs s)) s, [])
    end.

(** The library's [load_image(path)] up to its conversion to RGB: the path
    must name a file, and Pillow must find an image in it. *)
Definition read_image (path : string) : M Image :=
  fun s =>
    match st_fs s !! path with
    | Some (ImageFile img) => (inr img, s, [])
    | Some (OtherFile _) => (inl (UnidentifiedImageError path), s, [])
    | None => (inl (ValueError "Incorrect path or URL"), s, [])
    end.

(** [sample.save(path)] *)
Definition save_image (ref : nat) (path : string) : M unit :=
  img <- deref ref ;;
  fun s => (inr tt, set_fs (<[path := ImageFile img]> (st_fs s)) s, []).

(** [os.urandom(n)] *)
Definition urandom (n : nat) : M (list Byte.byte) :=
  fun s =>
    (inr (map (st_entropy s) (seq (st_consumed s) n)),
     set_consumed (st_consumed s + n)%nat s, []).

(** [int.from_bytes(bs, "big")] *)
Definition int_from_bytes_big (bs : list Byte.byte) : Z :=
  fold_left (fun acc b => acc * 256 + Z.of_N (Byte.to_N b)) bs 0.

(** [torch.Generator("cuda").manual_seed(seed)]: a seed that does not fit
    64 bits is refused. *)
Definition manual_seed (seed : Z) : M local :=
  if seed_in_range seed then ret (LGenerator seed)
  else raise (RuntimeError "Overflow when unpacking long").

(* ================================================================== *)
(** * The predictor *)
(* ================================================================== *)

(** A loaded super-resolution network. *)
Record ESRGAN : Type := {
  esr_scale : Z;
  esr_weights : string }.

(** [self.ESRGAN_models] as [setup] fills it (lines 58-64):
    one model for each scale in [[2, 4]]. *)
Definition ESRGAN_models : gmap Z ESRGAN :=
  foldl (fun models scale =>
           <[scale := {| esr_scale := scale;
                         esr_weights := "weights/RealESRGAN_x" +:+ pretty scale
                                        +:+ ".pth" |}]> models)
        ∅ [2; 4].

(** The registry of lines 23-28, in source order. *)
Definition SCHEDULERS_items : list (string * scheduler_class) :=
  [ ("DDIM", DDIMScheduler);
    ("DPMSolverMultistep", DPMSolverMultistepScheduler);
    ("K_EULER_ANCESTRAL", EulerAncestralDiscreteScheduler);
    ("K_EULER", EulerDiscreteScheduler) ].

Definition SCHEDULERS : gmap string scheduler_class :=
  list_to_map SCHEDULERS_items.

(** [SCHEDULERS.keys()] *)
Definition SCHEDULERS_keys : list string := map fst SCHEDULERS_items.

(** The inputs of [predict] (lines 121-183). *)
Record request : Type := {
  prompt : option string;
  image : option string;
  mask : option string;
  resolution : string;
  resemblance : spec_float;
  creativity : spec_float;
  hdr : spec_float;
  scheduler : string;
  steps : Z;
  guidance_scale : spec_float;
  seed : option Z;
  negative_prompt : string;
  guess_mode : bool }.

(** [cv2.cvtColor] between RGB and BGR, on one pixel: the first and the
    third channel change places, and a fourth channel is dropped. *)
Definition swap_rb (px : list Z) : list Z :=
  match px with
  | [c0; c1; c2] => [c2; c1; c0]
  | [c0; c1; c2; _] => [c2; c1; c0]
  | _ => px
  end.

(** The modes of Pillow whose pixels have three or four 8-bit bands.  For
    them [np.array(image)] has the shape rows x cols x bands; for every other
    mode it has two dimensions, or two channels, or wider elements. *)
Definition colour_modes : list string :=
  ["RGB"; "YCbCr"; "LAB"; "HSV"; "RGBA"; "RGBX"; "RGBa"; "CMYK"].

(** [img.convert(mode)] on the image value: PIL copies when the mode is
    already the one asked for. *)
Definition convert_image (ext : externals) (mode : string) (img : Image) : Image :=
  if bool_decide (im_mode img = mode) then img
  else {| im_mode := mode; im_width := im_width img; im_height := im_height img;
          im_data := ext_convert ext mode img |}.

Section Predictor.

Variable ext : externals.

(** [image.copy()] *)
Definition pil_copy (ref : nat) : M nat :=
  img <- deref ref ;;
  alloc img.

(** [image.convert(mode)]: always a new object. *)
Definition pil_convert (ref : nat) (mode : string) : M nat :=
  img <- deref ref ;;
  alloc (convert_image ext mode img).

(** [image.resize((w, h), resample=Image.LANCZOS)]: the two sides are
    handed over as C [int]s and must be positive, and the library must be
    able to make the image. *)
Definition pil_resize (ref : nat) (w h : Z) : M nat :=
  img <- deref ref ;;
  if negb (c_int w && c_int h) then raise OverflowError
  else if (w <? 1) || (h <? 1) then raise (ValueError "height and width must be > 0")
  else
    match ext_lanczos ext img w h with
    | Some data =>
        alloc {| im_mode := im_mode img; im_width := w; im_height := h;
                 im_data := data |}
    | None => raise MemoryError
    end.

(** [model.predict(img)] of a Real-ESRGAN model. *)
Definition esrgan_predict (model : ESRGAN) (ref : nat) : M nat :=
  img <- deref ref ;;
  emit (EvSuperRes (esr_scale model) img) ;;
  match ext_esrgan ext (esr_scale model) img with
  | Some out => alloc out
  | None => raise (ModelError "RealESRGAN")
  end.

(** [self.ESRGAN_models[scale]] *)
Definition esrgan_model (scale : Z) : M ESRGAN :=
  match ESRGAN_models !! scale with
  | Some model => ret model
  | None => raise (KeyError (pretty scale))
  end.

(** Lines 68-80. *)
Definition resize_for_condition_image (input_image : nat) (resolution : string)
  : M nat :=
  if bool_decide (resolution = "original") then pil_copy input_image
  else
    img <- pil_convert input_image "RGB" ;;
    input <- deref input_image ;;
    let '(width, height) := im_size input in
    scale_factor <- lift (scale_factor_of width height) ;;
    new_height <- lift (round_to_64 height scale_factor) ;;
    new_width <- lift (round_to_64 width scale_factor) ;;
    img <- pil_resize img new_width new_height ;;
    if bool_decide (resolution = "2048") then
      model <- esrgan_model 2 ;;
      esrgan_predict model img
    else ret img.

(** Lines 82-86. *)
Definition esrgan_only_predict (input_image : nat) : M nat :=
  img <- pil_convert input_image "RGB" ;;
  model <- esrgan_model 2 ;;
  esrgan_predict model img.

(** Lines 96-97.  [cv2.cvtColor] raises on an array without pixels and on
    one that has not three or four 8-bit channels. *)
Definition pil_to_cv (pil_image : Image) : exn + ndarray :=
  if (im_width pil_image <? 1) || (im_height pil_image <? 1)
     || negb (bool_decide (im_mode pil_image ∈ colour_modes))
  then inl CvError
  else inr {| nd_rows := im_height pil_image; nd_cols := im_width pil_image;
              nd_data := map swap_rb (im_data pil_image) |}.

(** Lines 99-104: the value channel is scaled in binary64, clipped to
    [0, 255] and truncated back to [uint8]. *)
Definition adjust_brightness (cv_image : ndarray) (factor : spec_float) : ndarray :=
  let hsv_image := map (ext_bgr2hsv ext) (nd_data cv_image) in
  let adjusted_hsv :=
    map (fun px =>
           let h := nth 0 px 0 in
           let s := nth 1 px 0 in
           let v := nth 2 px 0 in
           [h; s; to_uint8 (clip_0_255 float_of_Z (fmul (float_of_Z v) factor))])
        hsv_image in
  {| nd_rows := nd_rows cv_image; nd_cols := nd_cols cv_image;
     nd_data := map (ext_hsv2bgr ext) adjusted_hsv |}.

(** Lines 106-114.  The fused array has the shape of the exposures. *)
Definition create_hdr_effect (original_image : nat) (hdr : spec_float) : M nat :=
  img <- deref original_image ;;
  cv_original <- lift (pil_to_cv img) ;;
  let brightness_factors := calculate_brightness_factors hdr in
  let images := map (adjust_brightness cv_original) brightness_factors in
  let hdr_image := ext_mertens ext images in
  let hdr_image_8bit :=
    map (map (fun x => to_uint8 (clip_0_255 f32_of_Z (f32_mul x (f32_of_Z 255)))))
        hdr_image in
  alloc {| im_mode := "RGB";
           im_width := nd_cols cv_original; im_height := nd_rows cv_original;
           im_data := map swap_rb hdr_image_8bit |}.

(** Lines 116-118: the library's [load_image] opens the copy and converts
    it to RGB; the method converts once more. *)
Definition load_image (path : option string) : M nat :=
  match path with
  | None =>
      raise (TypeError "stat: path should be string, bytes, os.PathLike or integer, not NoneType")
  | Some p =>
      copyfile p "/tmp/image.png" ;;
      file <- read_image "/tmp/image.png" ;;
      opened <- alloc (convert_image ext "RGB" file) ;;
      pil_convert opened "RGB"
  end.

(** [pipe.safety_checker = None] *)
Definition clear_safety_checker (pipe : pipe_kind) : M unit :=
  s <- get ;;
  let p := get_pipe pipe s in
  put (set_pipe pipe {| pipe_weights := pipe_weights p; safety_checker := None;
                        pipe_scheduler := pipe_scheduler p;
                        xformers_enabled := xformers_enabled p |} s).

(** [pipe.scheduler = SCHEDULERS[scheduler].from_config(pipe.scheduler.config)] *)
Definition replace_scheduler (pipe : pipe_kind) (scheduler : string) : M unit :=
  match SCHEDULERS !! scheduler with
  | None => raise (KeyError scheduler)
  | Some cls =>
      s <- get ;;
      let p := get_pipe pipe s in
      put (set_pipe pipe
             {| pipe_weights := pipe_weights p; safety_checker := safety_checker p;
                pipe_scheduler := from_config cls (sched_config (pipe_scheduler p));
                xformers_enabled := xformers_enabled p |} s)
  end.

(** [pipe.enable_xformers_memory_efficient_attention()]: the switch is
    set in every module of the pipeline, the ControlNet it shares with the
    other pipeline included. *)
Definition enable_xformers_memory_efficient_attention (pipe : pipe_kind) : M unit :=
  s <- get ;;
  let p := get_pipe pipe s in
  let cn := controlnet s in
  put (set_controlnet {| cn_weights := cn_weights cn; cn_xformers := true |}
         (set_pipe pipe {| pipe_weights := pipe_weights p;
                           safety_checker := safety_checker p;
                           pipe_scheduler := pipe_scheduler p;
                           xformers_enabled := true |} s)).

Fixpoint alloc_all (imgs : list Image) : M (list nat) :=
  match imgs with
  | [] => ret []
  | img :: rest =>
      ref <- alloc img ;;
      refs <- alloc_all rest ;;
      ret (ref :: refs)
  end.

(** [pipe( **args)]: one inference call on the selected pipeline, giving
    [outputs.images]. *)
Definition call_pipe (pipe : pipe_kind) (args : gmap string value) : M (list nat) :=
  s <- get ;;
  emit (EvInference pipe (get_pipe pipe s) args) ;;
  match ext_diffusion ext pipe (get_pipe pipe s) args (st_heap s) with
  | Some images => alloc_all images
  | None => raise (ModelError "pipeline")
  end.

(** Lines 221-225, from index [i] on. *)
Fixpoint save_outputs (i : nat) (samples : list nat) : M (list string) :=
  match samples with
  | [] => ret []
  | sample :: rest =>
      let output_path := "/tmp/out-" +:+ pretty i +:+ ".png" in
      save_image sample output_path ;;
      output_paths <- save_outputs (S i) rest ;;
      ret (output_path :: output_paths)
  end.

Definition opt_str (o : option string) : value :=
  match o with Some s => VStr s | None => VNone end.

(** Lines 185-187. *)
Definition resolve_seed (seed : option Z) : M Z :=
  match seed with
  | None =>
      bs <- urandom 2 ;;
      ret (int_from_bytes_big bs)
  | Some seed => ret seed
  end.

(** Lines 208-215: with a mask the inpainting pipeline is selected, the mask
    is loaded and added to the arguments, and the request is checked. *)
Definition select_pipe (r : request) (loaded_image : nat)
    (args : gmap string value) : M (pipe_kind * gmap string value) :=
  match mask r with
  | Some m =>
      mask_image <- load_image (Some m) ;;
      assign "mask_image" (LImage mask_image) ;;
      let args := <["mask_image" := VImage mask_image]> args in
      if negb (bool_decide (resolution r = "original")) then
        raise (Exception "Can't upscale and inpaint at the same time")
      else
        mask_img <- deref mask_image ;;
        loaded_img <- deref loaded_image ;;
        if negb (bool_decide (im_size mask_img = im_size loaded_img)) then
          raise (Exception "Image and mask must have the same size")
        else ret (Inpaint, args)
  | None => ret (Img2Img, args)
  end.

(** Lines 227-236. *)
Definition cleanup (r : request) : M unit :=
  del "generator" ;;
  del "final_image" ;;
  del "control_image" ;;
  del "loaded_image" ;;
  del "outputs" ;;
  (match mask r with Some _ => del "mask_image" | None => ret tt end) ;;
  emit EvEmptyCache.

(** Lines 121-236. *)
Definition predict (r : request) : M (list string) :=
  new_frame ;;
  seed <- resolve_seed (seed r) ;;
  emit (EvPrint ("Using seed: " +:+ pretty seed)) ;;
  generator <- manual_seed seed ;;
  assign "generator" generator ;;
  loaded_image <- load_image (image r) ;;
  assign "loaded_image" (LImage loaded_image) ;;
  control_image <- resize_for_condition_image loaded_image (resolution r) ;;
  assign "control_image" (LImage control_image) ;;
  final_image <- create_hdr_effect control_image (hdr r) ;;
  assign "final_image" (LImage final_image) ;;
  let args : gmap string value :=
    list_to_map
      [ ("prompt", opt_str (prompt r));
        ("image", VImage final_image);
        ("control_image", VImage final_image);
        ("strength", VFloat (creativity r));
        ("controlnet_conditioning_scale", VFloat (resemblance r));
        ("negative_prompt", VStr (negative_prompt r));
        ("guidance_scale", VFloat (guidance_scale r));
        ("generator", VGenerator seed);
        ("num_inference_steps", VInt (steps r));
        ("guess_mode", VBool (guess_mode r)) ] in
  selected <- select_pipe r loaded_image args ;;
  let pipe := fst selected in
  let args := snd selected in
  clear_safety_checker pipe ;;
  replace_scheduler pipe (scheduler r) ;;
  enable_xformers_memory_efficient_attention pipe ;;
  outputs <- call_pipe pipe args ;;
  assign "outputs" (LOutputs outputs) ;;
  output_paths <- save_outputs 0 outputs ;;
  cleanup r ;;
  ret output_paths.

End Predictor.

(* ================================================================== *)
(** * The request boundary *)
(* ================================================================== *)

(** The constraints declared with [Input(...)] on lines 123-182, which the
    serving framework enforces before it calls [predict]: [choices] for
    [resolution] and [scheduler], [ge]/[le] for the four ranged floats. *)
Definition resolution_choices : list string := ["original"; "1024"; "2048"].

Definition in_range (lo hi x : spec_float) : bool := SFleb lo x && SFleb x hi.

Definition validate (r : request) : exn + unit :=
  if negb (bool_decide (resolution r ∈ resolution_choices)) then
    inl (ValidationError "resolution")
  else if negb (in_range (float_of_Z 0) (float_of_Z 1) (resemblance r)) then
    inl (ValidationError "resemblance")
  else if negb (in_range (float_of_Z 0) (float_of_Z 1) (creativity r)) then
    inl (ValidationError "creativity")
  else if negb (in_range (float_of_Z 0) (float_of_Z 1) (hdr r)) then
    inl (ValidationError "hdr")
  else if negb (bool_decide (scheduler r ∈ SCHEDULERS_keys)) then
    inl (ValidationError "scheduler")
  else if negb (in_range (lit 1 10) (float_of_Z 30) (guidance_scale r)) then
    inl (ValidationError "guidance_scale")
  else inr tt.

(** A request as the service handles it: validation, then [predict]. *)
Definition handle_request (ext : externals) (r : request) : M (list string) :=
  lift (validate r) ;;
  predict ext r.

(* ================================================================== *)
(** * Notions used in the statements *)
(* ================================================================== *)

(** What every step of [predict] before the inference call guarantees of
    the state it leaves: live images stay as they are, and no file other than
    the scratch copy changes. *)
Definition preserves (s s' : state) : Prop :=
  st_heap s ⊆ st_heap s' /\
  forall q : string, q <> "/tmp/image.png" -> st_fs s' !! q = st_fs s !! q.

(** The seed a request runs with: the one given, or the big-endian integer
    made of the next two bytes of entropy (lines 185-186). *)
Definition seed_of (r : request) (s : state) : Z :=
  match seed r with
  | Some z => z
  | None =>
      int_from_bytes_big
        [st_entropy s (st_consumed s); st_entropy s (S (st_consumed s))]
  end.

(** A seed was given and [manual_seed] takes it, or none was given. *)
Definition seed_ok (r : request) : Prop :=
  forall z, seed r = Some z -> - 2 ^ 63 <= z < 2 ^ 64.

(** The image a file is loaded as (line 118 and the library's loader). *)
Definition loaded_as (ext : externals) (f : Image) : Image :=
  convert_image ext "RGB" (convert_image ext "RGB" f).

(** The image [img.convert("RGB").resize((w, h), Image.LANCZOS)], when the
    library can make it. *)
Definition resized (ext : externals) (img : Image) (w h : Z) : option Image :=
  match ext_lanczos ext (convert_image ext "RGB" img) w h with
  | Some data =>
      Some {| im_mode := "RGB"; im_width := w; im_height := h; im_data := data |}
  | None => None
  end.

(** What lines 68-80 come to for an image [img]: the image returned, or the
    exception raised. *)
Definition conditioning_image (ext : externals) (resolution : string) (img : Image)
  : exn + Image :=
  if bool_decide (resolution = "original") then inr img
  else
    match new_size (im_width img) (im_height img) with
    | inl e => inl e
    | inr (w, h) =>
        if negb (c_int w && c_int h) then inl OverflowError
        else if (w <? 1) || (h <? 1)
        then inl (ValueError "height and width must be > 0")
        else
          match resized ext img w h with
          | None => inl MemoryError
          | Some res =>
              if bool_decide (resolution = "2048") then
                match ext_esrgan ext 2 res with
                | Some out => inr out
                | None => inl (ModelError "RealESRGAN")
                end
              else inr res
          end
    end.

(** The calls to the super-resolution model made on the way to the
    conditioning image of [img]: one for "2048", on the resized image. *)
Definition conditioning_calls (ext : externals) (resolution : string) (img : Image)
  : list event :=
  if bool_decide (resolution = "2048") then
    match new_size (im_width img) (im_height img) with
    | inr (w, h) =>
        match resized ext img w h with
        | Some res => [EvSuperRes 2 res]
        | None => []
        end
    | inl _ => []
    end
  else [].

Definition is_inference (ev : event) : bool :=
  match ev with EvInference _ _ _ => true | _ => false end.

Definition is_super_res (ev : event) : bool :=
  match ev with EvSuperRes _ _ => true | _ => false end.

(** The message a request with a mask is rejected with. *)
Definition mask_rejection (r : request) : string :=
  if bool_decide (resolution r = "original")
  then "Image and mask must have the same size"
  else "Can't upscale and inpaint at the same time".

(** A computation that never reaches [torch.cuda.empty_cache()]. *)
Definition never_empties {A} (m : M A) : Prop :=
  forall s, EvEmptyCache ∉ events (m s).

(** The names lines 228-234 delete are unbound in the frame. *)
Definition released (r : request) (frame : gmap string local) : Prop :=
  frame !! "generator" = None /\
  frame !! "final_image" = None /\
  frame !! "control_image" = None /\
  frame !! "loaded_image" = None /\
  frame !! "outputs" = None /\
  (mask r <> None -> frame !! "mask_image" = None).

(** A run that returns has released the per-request names and emptied the
    device cache as its last effect, once; a run that raises has not emptied
    it. *)
Definition cleans_up_on_return {A} (r : request)
    (run : (exn + A) * state * list event) : Prop :=
  match outcome run with
  | inr _ =>
      released r (st_frame (final run)) /\
      exists before, events run = before ++ [EvEmptyCache] /\
                     EvEmptyCache ∉ before
  | inl _ => EvEmptyCache ∉ events run
  end.

(** A computation that draws no entropy. *)
Definition keeps_entropy {A} (m : M A) : Prop :=
  forall s, st_consumed (final (m s)) = st_consumed s /\
            st_entropy (final (m s)) = st_entropy s.

(** The size of the image a run returns a reference to. *)
Definition result_size (run : (exn + nat) * state * list event) : option (Z * Z) :=
  match outcome run with
  | inr ref => im_size <$> st_heap (final run) !! ref
  | inl _ => None
  end.

(** The four names of the registry. *)
Definition scheduler_names : list string :=
  ["DDIM"; "DPMSolverMultistep"; "K_EULER_ANCESTRAL"; "K_EULER"].

(* ================================================================== *)
(** * Sample data *)
(* ================================================================== *)

(** Stand-ins for the libraries: resampling keeps the pixels it is given
    and cannot make an image of more than [2^28] pixels, super-resolution
    multiplies both sides by its scale and keeps the pixels, colour conversion
    is the identity, exposure fusion returns mid-grey, and the diffusion
    pipeline returns the image it was given as its single sample, unless it
    is asked for less than one step. *)
Definition sample_externals : externals :=
  {| ext_convert := fun _ img => map (fun px => [hd 0 px; hd 0 px; hd 0 px]) (im_data img);
     ext_lanczos := fun img w h =>
       if w * h <=? 2 ^ 28 then Some (im_data img) else None;
     ext_esrgan := fun scale img =>
       Some {| im_mode := "RGB"; im_width := scale * im_width img;
               im_height := scale * im_height img; im_data := im_data img |};
     ext_bgr2hsv := fun px => px;
     ext_hsv2bgr := fun px => px;
     ext_mertens := fun images =>
       match images with
       | first :: _ => map (map (fun _ => S754_finite false 8388608 (-24))) (nd_data first)
       | [] => []
       end;
     ext_diffusion := fun _ _ args heap =>
       match args !! "image", args !! "num_inference_steps" with
       | Some (VImage ref), Some (VInt steps) =>
           if steps <? 1 then None
           else match heap !! ref with Some img => Some [img] | None => Some [] end
       | _, _ => None
       end |}.

(** A 2x2 RGB image, a 2x3 mask and a 2x2 mask. *)
Definition sample_image : Image :=
  {| im_mode := "RGB"; im_width := 2; im_height := 2;
     im_data := [[255; 0; 0]; [0; 255; 0]; [0; 0; 255]; [10; 20; 30]] |}.

Definition sample_mask : Image :=
  {| im_mode := "L"; im_width := 2; im_height := 3;
     im_data := [[0]; [255]; [0]; [255]; [0]; [255]] |}.

Definition sample_mask_2x2 : Image :=
  {| im_mode := "L"; im_width := 2; im_height := 2;
     im_data := [[0]; [255]; [0]; [255]] |}.

(** The array OpenCV makes of [sample_image] (line 97). *)
Definition sample_array : ndarray :=
  {| nd_rows := 2; nd_cols := 2;
     nd_data := [[0; 0; 255]; [0; 255; 0]; [255; 0; 0]; [30; 20; 10]] |}.

(** What the stand-ins make of [sample_image] for the tier "2048", and its
    array. *)
Definition sample_upscaled : Image :=
  {| im_mode := "RGB"; im_width := 2048; im_height := 2048;
     im_data := im_data sample_image |}.

Definition sample_upscaled_array : ndarray :=
  {| nd_rows := 2048; nd_cols := 2048; nd_data := nd_data sample_array |}.

Definition sample_pipeline (weights : string) : Pipeline :=
  {| pipe_weights := weights;
     safety_checker := Some "StableDiffusionSafetyChecker";
     pipe_scheduler := {| sched_class := PretrainedScheduler "PNDMScheduler";
                          sched_config := [("num_train_timesteps", "1000")] |};
     xformers_enabled := false |}.

(** The state after [setup], with three image files and a text file on
    disk. *)
Definition sample_state : state :=
  {| st_heap := ∅;
     st_fs := {[ "/in/image.png" := ImageFile sample_image;
                 "/in/mask.png" := ImageFile sample_mask;
                 "/in/mask2.png" := ImageFile sample_mask_2x2;
                 "/in/notes.txt" := OtherFile "not an image" ]};
     st_entropy := fun n => if Nat.even n then Byte.x12 else Byte.x34;
     st_consumed := 0;
     img2img_pipe := sample_pipeline "weights";
     inpaint_pipe := sample_pipeline "inpaint-cache";
     controlnet := {| cn_weights := "controlnet-cache"; cn_xformers := false |};
     st_frame := ∅ |}.

(** The same with [sample_image] already loaded as object 0. *)
Definition sample_loaded_state : state :=
  set_heap {[ 0%nat := sample_image ]} sample_state.

(** A request for [sample_image] with the defaults of lines 135-182. *)
Definition sample_request (mask : option string) (resolution : string)
    (seed : option Z) : request :=
  {| prompt := Some "a red bicycle";
     image := Some "/in/image.png";
     mask := mask;
     resolution := resolution;
     resemblance := lit 75 100;
     creativity := lit 25 100;
     hdr := float_of_Z 0;
     scheduler := "DDIM";
     steps := 20;
     guidance_scale := float_of_Z 7;
     seed := seed;
     negative_prompt := "lowres, bad anatomy";
     guess_mode := false |}.

(** A request naming a scheduler the registry does not have. *)
Definition unknown_scheduler_request : request :=
  {| prompt := Some "a red bicycle";
     image := Some "/in/image.png";
     mask := None;
     resolution := "original";
     resemblance := lit 75 100;
     creativity := lit 25 100;
     hdr := float_of_Z 0;
     scheduler := "LMS";
     steps := 20;
     guidance_scale := float_of_Z 7;
     seed := None;
     negative_prompt := "lowres, bad anatomy";
     guess_mode := false |}.

(* ================================================================== *)
(** * Further notions *)
(* ================================================================== *)

(** The path line 223 gives the sample of index [i]. *)
Definition out_path (i : nat) : string := "/tmp/out-" +:+ pretty i +:+ ".png".

(** The frame, the two pipelines and the ControlNet are as before. *)
Definition rest_same (s s' : state) : Prop :=
  st_frame s' = st_frame s /\
  img2img_pipe s' = img2img_pipe s /\
  inpaint_pipe s' = inpaint_pipe s /\
  controlnet s' = controlnet s.

(** A computation that leaves the frame, the pipelines and the ControlNet
    alone. *)
Definition keeps_rest {A} (m : M A) : Prop :=
  forall s, rest_same s (final (m s)).

(** The exposures of line 109. *)
Definition exposures (ext : externals) (cv : ndarray) (hdr : spec_float)
  : list ndarray :=
  map (adjust_brightness ext cv) (calculate_brightness_factors hdr).

(** The image lines 111-113 make of the exposures of the array [cv]. *)
Definition fused_image (ext : externals) (cv : ndarray) (images : list ndarray)
  : Image :=
  {| im_mode := "RGB"; im_width := nd_cols cv; im_height := nd_rows cv;
     im_data :=
       map swap_rb
         (map (map (fun x => to_uint8 (clip_0_255 f32_of_Z (f32_mul x (f32_of_Z 255)))))
              (ext_mertens ext images)) |}.

(** The image line 192 makes of the conditioning image whose array is
    [cv]. *)
Definition hdr_image (ext : externals) (cv : ndarray) (hdr : spec_float) : Image :=
  fused_image ext cv (exposures ext cv hdr).

(** An array taken to HSV and back, pixel by pixel. *)
Definition hsv_round_trip (ext : externals) (cv : ndarray) : ndarray :=
  {| nd_rows := nd_rows cv; nd_cols := nd_cols cv;
     nd_data := map (fun px => ext_hsv2bgr ext (ext_bgr2hsv ext px)) (nd_data cv) |}.

(** The contract of the 8-bit HSV conversion: three channels per pixel, the
    value channel a byte. *)
Definition hsv_pixels_ok (ext : externals) : Prop :=
  forall px, exists h s v, ext_bgr2hsv ext px = [h; s; v] /\ 0 <= v <= 255.

(** Stand-ins as [sample_externals], with an HSV conversion that keeps the
    three channels and clamps the value channel. *)
Definition hsv_externals : externals :=
  {| ext_convert := ext_convert sample_externals;
     ext_lanczos := ext_lanczos sample_externals;
     ext_esrgan := ext_esrgan sample_externals;
     ext_bgr2hsv := fun px =>
       [nth 0 px 0; nth 1 px 0; Z.max 0 (Z.min 255 (nth 2 px 0))];
     ext_hsv2bgr := fun px => px;
     ext_mertens := ext_mertens sample_externals;
     ext_diffusion := ext_diffusion sample_externals |}.

(** An image without pixels. *)
Definition empty_image : Image :=
  {| im_mode := "RGB"; im_width := 0; im_height := 3; im_data := [] |}.

(** The pipeline a request selects (lines 206-209). *)
Definition selected_kind (r : request) : pipe_kind :=
  match mask r with Some _ => Inpaint | None => Img2Img end.

Definition other_kind (k : pipe_kind) : pipe_kind :=
  match k with Img2Img => Inpaint | Inpaint => Img2Img end.

(** A pipeline after lines 217-219: no safety checker, a scheduler of class
    [cls] built from the configuration of the one it had, and the attention
    optimisation on. *)
Definition configured (p : Pipeline) (cls : scheduler_class) : Pipeline :=
  {| pipe_weights := pipe_weights p;
     safety_checker := None;
     pipe_scheduler := from_config cls (sched_config (pipe_scheduler p));
     xformers_enabled := true |}.

(** A pipeline after line 217 alone. *)
Definition unchecked (p : Pipeline) : Pipeline :=
  {| pipe_weights := pipe_weights p;
     safety_checker := None;
     pipe_scheduler := pipe_scheduler p;
     xformers_enabled := xformers_enabled p |}.

(** The ControlNet after line 219. *)
Definition switched (cn : ControlNet) : ControlNet :=
  {| cn_weights := cn_weights cn; cn_xformers := true |}.

(** The dictionary of lines 194-205. *)
Definition base_args (r : request) (final_image : nat) (seed : Z)
  : gmap string value :=
  list_to_map
    [ ("prompt", opt_str (prompt r));
      ("image", VImage final_image);
      ("control_image", VImage final_image);
      ("strength", VFloat (creativity r));
      ("controlnet_conditioning_scale", VFloat (resemblance r));
      ("negative_prompt", VStr (negative_prompt r));
      ("guidance_scale", VFloat (guidance_scale r));
      ("generator", VGenerator seed);
      ("num_inference_steps", VInt (steps r));
      ("guess_mode", VBool (guess_mode r)) ].

(** Lines 217-236: [predict] from the configuration of the selected pipeline
    on. *)
Definition predict_tail (ext : externals) (r : request) (pipe : pipe_kind)
    (args : gmap string value) : M (list string) :=
  clear_safety_checker pipe ;;
  replace_scheduler pipe (scheduler r) ;;
  enable_xformers_memory_efficient_attention pipe ;;
  outputs <- call_pipe ext pipe args ;;
  assign "outputs" (LOutputs outputs) ;;
  output_paths <- save_outputs 0 outputs ;;
  cleanup r ;;
  ret output_paths.

(** The four names bound when the pipeline is selected. *)
Definition prepared_frame (frame : gmap string local) : Prop :=
  is_Some (frame !! "generator") /\
  is_Some (frame !! "loaded_image") /\
  is_Some (frame !! "control_image") /\
  is_Some (frame !! "final_image").

(** Lines 185-192: the seed, the loaded image, the conditioning image and
    the image with the HDR effect. *)
Definition prepare (ext : externals) (r : request) : M (Z * nat * nat) :=
  new_frame ;;
  seed <- resolve_seed (seed r) ;;
  emit (EvPrint ("Using seed: " +:+ pretty seed)) ;;
  generator <- manual_seed seed ;;
  assign "generator" generator ;;
  loaded_image <- load_image ext (image r) ;;
  assign "loaded_image" (LImage loaded_image) ;;
  control_image <- resize_for_condition_image ext loaded_image (resolution r) ;;
  assign "control_image" (LImage control_image) ;;
  final_image <- create_hdr_effect ext control_image (hdr r) ;;
  assign "final_image" (LImage final_image) ;;
  ret (seed, loaded_image, final_image).

(** A computation that writes no file. *)
Definition keeps_files {A} (m : M A) : Prop :=
  forall s, st_fs (final (m s)) = st_fs s.

(** The mask, if there is one, passes the checks of lines 212-215 for the
    image [img]. *)
Definition mask_ok (r : request) (s : state) (img : Image) : Prop :=
  match mask r with
  | None => True
  | Some m =>
      m <> "/tmp/image.png" /\ resolution r = "original" /\
      exists msk, st_fs s !! m = Some (ImageFile msk) /\ im_size msk = im_size img
  end.

(** The two exceptions of a failed lookup: of a key in a registry, of a
    local that is not bound. *)
Definition lookup_error (e : exn) : bool :=
  match e with
  | KeyError _ | UnboundLocalError _ => true
  | _ => false
  end.

(** A step of the preparation: it leaves both pipelines and the ControlNet
    alone, unbinds no local, makes no inference call and fails with no lookup
    error. *)
Definition orderly {A} (m : M A) : Prop :=
  forall s,
    img2img_pipe (final (m s)) = img2img_pipe s /\
    inpaint_pipe (final (m s)) = inpaint_pipe s /\
    controlnet (final (m s)) = controlnet s /\
    dom (st_frame s) ⊆ dom (st_frame (final (m s))) /\
    Forall (fun ev => is_inference ev = false) (events (m s)) /\
    (forall e, outcome (m s) = inl e -> lookup_error e = false).

(** The arguments of the inference call (lines 194-211). *)
Definition call_args (r : request) (final_image : nat) (seed : Z)
    (mask_image : option nat) : gmap string value :=
  match mask_image with
  | Some mi => <["mask_image" := VImage mi]> (base_args r final_image seed)
  | None => base_args r final_image seed
  end.

(** A request for the file at [path], with the seed 42. *)
Definition request_for (path : string) : request :=
  {| prompt := Some "a red bicycle";
     image := Some path;
     mask := None;
     resolution := "original";
     resemblance := lit 75 100;
     creativity := lit 25 100;
     hdr := float_of_Z 0;
     scheduler := "DDIM";
     steps := 20;
     guidance_scale := float_of_Z 7;
     seed := Some 42;
     negative_prompt := "lowres, bad anatomy";
     guess_mode := false |}.

(** The sample state with [empty_image] loaded as object 0. *)
Definition sample_empty_state : state :=
  set_heap {[ 0%nat := empty_image ]} sample_state.

(** The sample request asking for no step at all. *)
Definition zero_steps_request : request :=
  {| prompt := Some "a red bicycle";
     image := Some "/in/image.png";
     mask := None;
     resolution := "original";
     resemblance := lit 75 100;
     creativity := lit 25 100;
     hdr := float_of_Z 0;
     scheduler := "DDIM";
     steps := 0;
     guidance_scale := float_of_Z 7;
     seed := Some 42;
     negative_prompt := "lowres, bad anatomy";
     guess_mode := false |}.

(** A 1 x 100000 image, the sample state with a file that holds it, and a
    request for it with the 2x2 mask and the tier "1024". *)
Definition thin_image : Image :=
  {| im_mode := "RGB"; im_width := 1; im_height := 100000;
     im_data := repeat [0; 0; 0] (Z.to_nat 100000) |}.

Definition thin_state : state :=
  set_fs (<["/in/thin.png" := ImageFile thin_image]> (st_fs sample_state))
    sample_state.

Definition thin_request : request :=
  {| prompt := Some "a red bicycle";
     image := Some "/in/thin.png";
     mask := Some "/in/mask2.png";
     resolution := "1024";
     resemblance := lit 75 100;
     creativity := lit 25 100;
     hdr := float_of_Z 0;
     scheduler := "DDIM";
     steps := 20;
     guidance_scale := float_of_Z 7;
     seed := Some 42;
     negative_prompt := "lowres, bad anatomy";
     guess_mode := false |}.
(* ================================================================== *)
(** * Facts about binary64 rounding *)
(* ================================================================== *)

(** The proofs below track only the magnitude of the numbers: a product or
    quotient of normal numbers is normal and its exponent is that of the exact
    result up to one or two units, which is all the size computation needs. *)

Lemma digits2_log2 (m : positive) : Zpos (digits2_pos m) = Z.log2 (Zpos m) + 1.
Proof.
  induction m as [m IH|m IH|]; simpl; try reflexivity.
  - destruct m; simpl in *; lia.
  - destruct m; simpl in *; lia.
Qed.

Lemma digits2_bounds (m : positive) :
  2 ^ (Zpos (digits2_pos m) - 1) <= Zpos m < 2 ^ Zpos (digits2_pos m).
Proof.
  rewrite digits2_log2.
  replace (Z.log2 (Z.pos m) + 1 - 1) with (Z.log2 (Zpos m)) by lia.
  replace (Z.log2 (Z.pos m) + 1) with (Z.succ (Z.log2 (Zpos m))) by lia.
  apply Z.log2_spec. lia.
Qed.

Lemma digits2_unique (m : positive) (k : Z) :
  2 ^ (k - 1) <= Zpos m < 2 ^ k -> Zpos (digits2_pos m) = k.
Proof.
  intros H. rewrite digits2_log2.
  assert (0 <= k - 1).
  { destruct (Z.le_gt_cases 0 (k - 1)) as [|Hn]; [assumption|].
    destruct (Z.eq_dec k 0) as [->|]; [simpl in H; lia|].
    rewrite (Z.pow_neg_r 2 k) in H by lia. lia. }
  assert (Z.log2 (Zpos m) = k - 1); [|lia].
  apply Z.log2_unique; [lia|]. replace (Z.succ (k - 1)) with k by lia. exact H.
Qed.

Lemma Zdigits2_bounds (z : Z) :
  0 < z -> 2 ^ (Zdigits2 z - 1) <= z < 2 ^ Zdigits2 z.
Proof. destruct z as [|m|m]; try lia. intros _. apply digits2_bounds. Qed.

Lemma Zdigits2_unique (z k : Z) :
  2 ^ (k - 1) <= z < 2 ^ k -> 0 < z -> Zdigits2 z = k.
Proof. destruct z as [|m|m]; try lia. intros H _. now apply digits2_unique. Qed.

Lemma Zdigits2_pos (z : Z) : 0 < z -> 0 < Zdigits2 z.
Proof. destruct z; simpl; lia. Qed.

(** [shr_1] halves a non-negative mantissa. *)
Lemma shr_m_shr_1 (mrs : shr_record) :
  0 <= shr_m mrs -> shr_m (shr_1 mrs) = shr_m mrs / 2.
Proof.
  destruct mrs as [m r s]; simpl. intros Hm.
  destruct m as [|[p|p|]|p]; simpl; try lia; now rewrite <- Z.div2_div.
Qed.

Lemma shr_m_iter (p : positive) : forall mrs : shr_record,
  0 <= shr_m mrs ->
  shr_m (SpecFloat.iter_pos shr_1 p mrs) = shr_m mrs / 2 ^ Zpos p.
Proof.
  assert (Hnn : forall m k, 0 <= m -> 0 < k -> 0 <= m / k)
    by (intros; apply Z.div_pos; lia).
  assert (H2 : forall q, 0 < 2 ^ Zpos q) by (intros; apply Z.pow_pos_nonneg; lia).
  induction p as [p IH|p IH|]; intros mrs Hm; simpl.
  - assert (H1 : 0 <= shr_m (shr_1 mrs))
      by (rewrite shr_m_shr_1 by exact Hm; apply Hnn; lia).
    assert (H3 : 0 <= shr_m (SpecFloat.iter_pos shr_1 p (shr_1 mrs)))
      by (rewrite IH by exact H1; apply Hnn; [exact H1 | apply H2]).
    rewrite (IH _ H3), (IH _ H1), shr_m_shr_1 by exact Hm.
    pose proof (H2 p).
    rewrite !Z.div_div by lia. f_equal.
    replace (Z.pos p~1) with (1 + Zpos p + Zpos p) by lia.
    rewrite !Z.pow_add_r by lia. change (2 ^ 1) with 2. ring.
  - assert (H3 : 0 <= shr_m (SpecFloat.iter_pos shr_1 p mrs))
      by (rewrite IH by exact Hm; apply Hnn; [exact Hm | apply H2]).
    rewrite (IH _ H3), (IH _ Hm).
    pose proof (H2 p).
    rewrite !Z.div_div by lia. f_equal.
    replace (Z.pos p~0) with (Zpos p + Zpos p) by lia.
    rewrite !Z.pow_add_r by lia. reflexivity.
  - now rewrite shr_m_shr_1.
Qed.

(** Exponent of the least normal number, and the exponent function of
    binary64 on the normal range. *)
Lemma fexp_normal (e : Z) : -1021 <= e -> fexp prec emax e = e - prec.
Proof. unfold fexp, emin, prec, emax. lia. Qed.

Lemma div_pow2_digits (mx d : Z) :
  2 ^ (d - 1) <= mx < 2 ^ d -> prec <= d ->
  2 ^ (prec - 1) <= mx / 2 ^ (d - prec) < 2 ^ prec.
Proof.
  intros [Hlo Hhi] Hd. unfold prec in *.
  assert (Hp : 0 < 2 ^ (d - 53)) by (apply Z.pow_pos_nonneg; lia).
  split.
  - apply Z.div_le_lower_bound; [exact Hp|].
    rewrite <- Z.pow_add_r by lia. replace (d - 53 + (53 - 1)) with (d - 1) by lia.
    exact Hlo.
  - apply Z.div_lt_upper_bound; [exact Hp|].
    rewrite <- Z.pow_add_r by lia. replace (d - 53 + 53) with d by lia.
    exact Hhi.
Qed.

(** Shifting a mantissa of at least [prec] digits into the format keeps exactly
    [prec] leading digits. *)
Lemma shr_fexp_normal (mx ex : Z) (lx : location) :
  0 < mx -> prec <= Zdigits2 mx -> -1021 <= Zdigits2 mx + ex ->
  exists mrs,
    shr_fexp prec emax mx ex lx = (mrs, Zdigits2 mx + ex - prec) /\
    shr_m mrs = mx / 2 ^ (Zdigits2 mx - prec) /\
    (Zdigits2 mx = prec -> loc_of_shr_record mrs = lx).
Proof.
  intros Hmx Hd He. unfold shr_fexp. rewrite fexp_normal by exact He.
  replace (Zdigits2 mx + ex - prec - ex) with (Zdigits2 mx - prec) by lia.
  assert (Hrec : shr_m (shr_record_of_loc mx lx) = mx)
    by (destruct lx as [|[]]; reflexivity).
  assert (Hloc : loc_of_shr_record (shr_record_of_loc mx lx) = lx)
    by (destruct lx as [|[]]; reflexivity).
  destruct (Zdigits2 mx - prec) as [|p|p] eqn:Hn; try lia; simpl.
  - exists (shr_record_of_loc mx lx). rewrite Hrec, Z.div_1_r.
    repeat split; [f_equal; lia | auto].
  - exists (SpecFloat.iter_pos shr_1 p (shr_record_of_loc mx lx)).
    rewrite shr_m_iter, Hrec by (rewrite Hrec; lia).
    repeat split; [f_equal; lia | lia].
Qed.

Lemma pos_normal_weaken (x : spec_float) (lo hi lo' hi' : Z) :
  pos_normal x lo hi -> lo' <= lo -> hi <= hi' -> pos_normal x lo' hi'.
Proof. intros (m & e & -> & Hd & He) ? ?. exists m, e. repeat split; lia. Qed.

Lemma round_nearest_even_bounds (m : Z) (l : location) :
  m <= round_nearest_even m l <= m + 1.
Proof.
  unfold round_nearest_even. destruct l as [|[]]; try destruct (Z.even m); lia.
Qed.

Lemma binary_round_aux_normal (mx ex : Z) (lx : location) :
  0 < mx -> prec <= Zdigits2 mx ->
  -1021 <= Zdigits2 mx + ex -> Zdigits2 mx + ex + 1 <= emax ->
  pos_normal (binary_round_aux prec emax false mx ex lx)
             (Zdigits2 mx + ex) (Zdigits2 mx + ex + 1).
Proof.
  intros Hmx Hd Hlo Hhi.
  destruct (shr_fexp_normal mx ex lx Hmx Hd Hlo) as (mrs & Hs & Hm & _).
  unfold binary_round_aux. rewrite Hs. cbv beta iota.
  pose proof (div_pow2_digits mx _ (Zdigits2_bounds mx Hmx) Hd) as Hm'.
  rewrite <- Hm in Hm'.
  pose proof (round_nearest_even_bounds (shr_m mrs) (loc_of_shr_record mrs)) as Hr.
  set (r := round_nearest_even (shr_m mrs) (loc_of_shr_record mrs)) in *.
  set (E := Zdigits2 mx + ex) in *.
  assert (Hp : 0 < 2 ^ (prec - 1)) by (apply Z.pow_pos_nonneg; unfold prec; lia).
  assert (Hr0 : 0 < r) by lia.
  assert (Hdr : Zdigits2 r = prec \/ Zdigits2 r = prec + 1).
  { destruct (Z.lt_ge_cases r (2 ^ prec)) as [Hlt|Hge].
    - left. apply Zdigits2_unique; lia.
    - right. apply Zdigits2_unique; [|lia].
      replace (prec + 1 - 1) with prec by lia. split; [lia|].
      rewrite Z.pow_add_r by (unfold prec; lia). change (2 ^ 1) with 2. lia. }
  destruct (shr_fexp_normal r (E - prec) loc_Exact Hr0) as (mrs2 & Hs2 & Hm2 & _);
    [lia | unfold prec in *; lia |].
  rewrite Hs2. cbv beta iota.
  pose proof (div_pow2_digits r _ (Zdigits2_bounds r Hr0) ltac:(lia)) as Hm2'.
  rewrite <- Hm2 in Hm2'.
  destruct (shr_m mrs2) as [|m2|m2] eqn:Em2; try lia.
  assert (Hle : (Zdigits2 r + (E - prec) - prec <=? emax - prec) = true)
    by (apply Z.leb_le; lia).
  rewrite Hle. exists m2, (Zdigits2 r + (E - prec) - prec).
  split; [reflexivity|]. split; [|lia].
  apply digits2_unique. exact Hm2'.
Qed.

Lemma fmul_normal (x y : spec_float) (a b c d : Z) :
  pos_normal x a b -> pos_normal y c d ->
  -1021 <= a + c - 1 -> b + d + 1 <= emax ->
  pos_normal (fmul x y) (a + c - 1) (b + d + 1).
Proof.
  intros (mx & ex & -> & Hdx & Hex) (my & ey & -> & Hdy & Hey) Hlo Hhi.
  unfold fmul, SFmul. simpl xorb.
  pose proof (digits2_bounds mx) as Bx. pose proof (digits2_bounds my) as By.
  rewrite Hdx in Bx. rewrite Hdy in By. unfold prec in Bx, By.
  change (2 ^ (53 - 1)) with 4503599627370496 in *.
  change (2 ^ 53) with 9007199254740992 in *.
  assert (HP : 2 ^ 104 <= Zpos (mx * my) < 2 ^ 106).
  { rewrite Pos2Z.inj_mul.
    change (2 ^ 104) with (4503599627370496 * 4503599627370496).
    change (2 ^ 106) with (9007199254740992 * 9007199254740992). nia. }
  pose proof (Zdigits2_bounds (Zpos (mx * my)) ltac:(lia)) as HD.
  assert (HDk : 105 <= Zdigits2 (Zpos (mx * my)) <= 106).
  { split.
    - assert (104 < Zdigits2 (Zpos (mx * my))); [|lia].
      apply (Z.pow_lt_mono_r_iff 2); [lia | | lia].
      pose proof (Zdigits2_pos (Zpos (mx * my))); lia.
    - assert (Zdigits2 (Zpos (mx * my)) - 1 < 106); [|lia].
      apply (Z.pow_lt_mono_r_iff 2); lia. }
  eapply pos_normal_weaken.
  - apply binary_round_aux_normal; unfold prec, emax in *; lia.
  - unfold prec in *; lia.
  - unfold prec in *; lia.
Qed.

Lemma fdiv_normal (x y : spec_float) (a b c d : Z) :
  pos_normal x a b -> pos_normal y c d ->
  -1021 <= a - d -> b - c + 2 <= emax ->
  pos_normal (fdiv x y) (a - d) (b - c + 2).
Proof.
  intros (mx & ex & -> & Hdx & Hex) (my & ey & -> & Hdy & Hey) Hlo Hhi.
  unfold fdiv, SFdiv, SFdiv_core_binary. simpl xorb. simpl Zdigits2.
  rewrite Hdx, Hdy.
  replace (prec + ex - (prec + ey)) with (ex - ey) by lia.
  rewrite fexp_normal by lia.
  rewrite Z.min_l by (unfold prec; lia).
  replace (ex - ey - (ex - ey - prec)) with 53 by (unfold prec; lia).
  cbv iota. rewrite Z.shiftl_mul_pow2 by lia.
  change (2 ^ 53) with 9007199254740992.
  change IntDef.Z.div_eucl with Z.div_eucl.
  pose proof (digits2_bounds mx) as Bx. pose proof (digits2_bounds my) as By.
  rewrite Hdx in Bx. rewrite Hdy in By. unfold prec in Bx, By.
  change (2 ^ (53 - 1)) with 4503599627370496 in *.
  change (2 ^ 53) with 9007199254740992 in *.
  destruct (Z.div_eucl (Zpos mx * 9007199254740992) (Zpos my)) as [q r] eqn:Hqr.
  assert (Hq : q = Zpos mx * 9007199254740992 / Zpos my)
    by (unfold Z.div; now rewrite Hqr).
  assert (HQ : 2 ^ 52 <= q < 2 ^ 54).
  { rewrite Hq. split.
    - apply Z.div_le_lower_bound; [lia|].
      change (2 ^ 52) with 4503599627370496. lia.
    - apply Z.div_lt_upper_bound; [lia|].
      change (2 ^ 54) with 18014398509481984. lia. }
  assert (Hq0 : 0 < q) by (change (2 ^ 52) with 4503599627370496 in HQ; lia).
  pose proof (Zdigits2_bounds q Hq0) as HD.
  assert (HDk : 53 <= Zdigits2 q <= 54).
  { split.
    - assert (52 < Zdigits2 q); [|lia].
      apply (Z.pow_lt_mono_r_iff 2); [lia | | lia].
      pose proof (Zdigits2_pos q); lia.
    - assert (Zdigits2 q - 1 < 54); [|lia].
      apply (Z.pow_lt_mono_r_iff 2); lia. }
  eapply pos_normal_weaken.
  - apply binary_round_aux_normal; unfold prec, emax in *; lia.
  - unfold prec in *; lia.
  - unfold prec in *; lia.
Qed.

Lemma pos_iter_xO (m d : positive) :
  Zpos (Pos.iter xO m d) = Zpos m * 2 ^ Zpos d.
Proof.
  induction d as [|d IH] using Pos.peano_ind.
  - simpl. lia.
  - rewrite Pos.iter_succ, Pos2Z.inj_xO, IH, Pos2Z.inj_succ, Z.pow_succ_r by lia.
    ring.
Qed.

Lemma float_of_Z_normal (z : Z) :
  0 < z -> Zdigits2 z + 1 <= emax ->
  pos_normal (float_of_Z z) (Zdigits2 z) (Zdigits2 z + 1).
Proof.
  destruct z as [|m|m]; try lia. intros _ Hhi.
  unfold float_of_Z, binary_normalize, binary_round.
  pose proof (digits2_bounds m) as Bm. simpl Zdigits2 in *.
  set (k := Zpos (digits2_pos m)) in *.
  assert (Hk : 0 < k) by (unfold k; lia).
  rewrite Z.add_0_r, fexp_normal by lia.
  unfold shl_align. rewrite Z.sub_0_r.
  destruct (k - prec) as [|p|p] eqn:Hn.
  - eapply pos_normal_weaken;
      [apply binary_round_aux_normal | |]; simpl; fold k; unfold prec, emax in *; lia.
  - eapply pos_normal_weaken;
      [apply binary_round_aux_normal | |]; simpl; fold k; unfold prec, emax in *; lia.
  - assert (Hd : Zdigits2 (Zpos (Pos.iter xO m p)) = prec).
    { apply Zdigits2_unique; [|lia]. rewrite pos_iter_xO.
      assert (Hp : 0 < 2 ^ Zpos p) by (apply Z.pow_pos_nonneg; lia).
      replace (2 ^ (prec - 1)) with (2 ^ (k - 1 + Zpos p)) by (f_equal; lia).
      replace (2 ^ prec) with (2 ^ (k + Zpos p)) by (f_equal; lia).
      rewrite !Z.pow_add_r by lia. split.
      - apply Z.mul_le_mono_nonneg_r; lia.
      - apply Z.mul_lt_mono_pos_r; lia. }
    change (@PosDef.Pos.iter) with (@Pos.iter).
    eapply pos_normal_weaken;
      [apply binary_round_aux_normal | |]; rewrite ?Hd; unfold prec, emax in *; lia.
Qed.


Lemma float_of_int_normal (z lo hi : Z) :
  pos_normal (float_of_Z z) lo hi -> float_of_int z = inr (float_of_Z z).
Proof. intros (m & e & H & _). unfold float_of_int. now rewrite H. Qed.

Lemma Zdigits2_mono (a b : Z) : 0 < a -> a <= b -> Zdigits2 a <= Zdigits2 b.
Proof.
  intros Ha Hab. destruct a as [|a|a], b as [|b|b]; try lia. simpl.
  rewrite !digits2_log2. pose proof (Z.log2_le_mono _ _ Hab). lia.
Qed.

Lemma Zdigits2_lt_pow2 (a k : Z) : 0 < a -> 0 <= k -> a < 2 ^ k -> Zdigits2 a <= k.
Proof.
  intros Ha Hk Hlt. pose proof (Zdigits2_bounds a Ha) as [Hlo _].
  assert (Zdigits2 a - 1 < k); [|lia].
  apply (Z.pow_lt_mono_r_iff 2); lia.
Qed.

Lemma float_1024_normal : pos_normal (float_of_Z 1024) 11 11.
Proof. exists 4503599627370496%positive, (-42). repeat split; vm_compute; congruence. Qed.

Lemma float_64_normal : pos_normal (float_of_Z 64) 7 7.
Proof. exists 4503599627370496%positive, (-46). repeat split; vm_compute; congruence. Qed.

(** [float(1024) / m] for a side length [m] is a normal number of about the
    size of [2^11 / m]. *)
Lemma scale_factor_normal (m : Z) :
  1 <= m < 2 ^ 1000 ->
  exists sf, truediv_int (float_of_Z 1024) m = inr sf /\
             pos_normal sf (10 - Zdigits2 m) (13 - Zdigits2 m).
Proof.
  intros [Hm1 Hm2].
  pose proof (Zdigits2_pos m ltac:(lia)) as Hk0.
  pose proof (Zdigits2_lt_pow2 m 1000 ltac:(lia) ltac:(lia) Hm2) as Hk.
  pose proof (float_of_Z_normal m ltac:(lia) ltac:(unfold emax; lia)) as Hfm.
  exists (fdiv (float_of_Z 1024) (float_of_Z m)). split.
  - unfold truediv_int. rewrite (float_of_int_normal _ _ _ Hfm).
    destruct Hfm as (mm & e & -> & _). reflexivity.
  - eapply pos_normal_weaken.
    + apply (fdiv_normal _ _ _ _ _ _ float_1024_normal Hfm); unfold emax; lia.
    + lia.
    + lia.
Qed.

(** [int(round(d * sf / 64)) * 64] is a positive multiple of 64 as soon as
    the side [d] is at least the side the scale factor was computed from. *)
Lemma round_to_64_normal (d km : Z) (sf : spec_float) :
  1 <= d < 2 ^ 1000 -> 1 <= km <= Zdigits2 d ->
  pos_normal sf (10 - km) (13 - km) ->
  exists n, round_to_64 d sf = inr (n * 64) /\ 1 <= n.
Proof.
  intros [Hd1 Hd2] Hkm Hsf.
  pose proof (Zdigits2_lt_pow2 d 1000 ltac:(lia) ltac:(lia) Hd2) as Hk.
  pose proof (float_of_Z_normal d ltac:(lia) ltac:(unfold emax; lia)) as Hfd.
  assert (Ht : pos_normal (fmul (float_of_Z d) sf)
                 (Zdigits2 d + (10 - km) - 1) (Zdigits2 d + 1 + (13 - km) + 1))
    by (apply fmul_normal; unfold emax; try assumption; lia).
  assert (Hu : pos_normal (fdiv (fmul (float_of_Z d) sf) (float_of_Z 64))
                 (Zdigits2 d + (10 - km) - 1 - 7)
                 (Zdigits2 d + 1 + (13 - km) + 1 - 7 + 2))
    by (apply (fdiv_normal _ _ _ _ _ _ Ht float_64_normal); unfold emax; lia).
  unfold round_to_64, int_mul_float. rewrite (float_of_int_normal _ _ _ Hfd).
  unfold truediv_int. rewrite (float_of_int_normal _ _ _ float_64_normal).
  change (is_zero (float_of_Z 64)) with false. cbv iota.
  destruct Hu as (mu & eu & -> & Hdu & Heu). simpl.
  exists (round_half_even mu eu). split; [reflexivity|].
  pose proof (digits2_bounds mu) as Bu. rewrite Hdu in Bu. unfold prec in *.
  change (2 ^ (53 - 1)) with 4503599627370496 in Bu.
  unfold round_half_even. destruct eu as [|p|p].
  - lia.
  - assert (0 < 2 ^ Zpos p) by (apply Z.pow_pos_nonneg; lia). nia.
  - assert (Hp : 0 < 2 ^ Zpos p) by (apply Z.pow_pos_nonneg; lia).
    assert (Hq : 1 <= Zpos mu / 2 ^ Zpos p).
    { apply Z.div_le_lower_bound; [exact Hp|]. rewrite Z.mul_1_r.
      apply Z.le_trans with (2 ^ 52); [|change (2 ^ 52) with 4503599627370496; lia].
      apply Z.pow_le_mono_r; lia. }
    destruct (2 * (Zpos mu mod 2 ^ Zpos p) ?= 2 ^ Zpos p);
      try destruct (Z.even _); lia.
Qed.

(** The two new side lengths of line 75 exist and are positive multiples
    of 64. *)
Lemma new_sides (w h : Z) :
  valid_side w -> valid_side h ->
  exists sf nw nh,
    scale_factor_of w h = inr sf /\
    round_to_64 h sf = inr (nh * 64) /\ round_to_64 w sf = inr (nw * 64) /\
    1 <= nw /\ 1 <= nh.
Proof.
  unfold valid_side. intros Hw Hh.
  destruct (scale_factor_normal (Z.min h w) ltac:(lia)) as (sf & Hsf & Hn).
  pose proof (Zdigits2_pos (Z.min h w) ltac:(lia)) as Hk.
  destruct (round_to_64_normal h (Zdigits2 (Z.min h w)) sf Hh) as (nh & Hnh & Hh1);
    [split; [lia | apply Zdigits2_mono; lia] | exact Hn |].
  destruct (round_to_64_normal w (Zdigits2 (Z.min h w)) sf Hw) as (nw & Hnw & Hw1);
    [split; [lia | apply Zdigits2_mono; lia] | exact Hn |].
  exists sf, nw, nh. auto.
Qed.


(* ================================================================== *)
(** * The value of a rounded number *)
(* ================================================================== *)

(** Where [binary_round_aux_normal] tracks the magnitude only, the lemmas
    below bound the rounded mantissa itself: the result is within one unit in
    the last place of the number that was rounded. *)

Lemma binary_round_aux_value (mx ex : Z) (lx : location) :
  0 < mx -> prec <= Zdigits2 mx ->
  -1021 <= Zdigits2 mx + ex -> Zdigits2 mx + ex + 1 <= emax ->
  exists m' e',
    binary_round_aux prec emax false mx ex lx = S754_finite false m' e' /\
    Zpos (digits2_pos m') = prec /\
    Zdigits2 mx - prec <= e' - ex <= Zdigits2 mx - prec + 1 /\
    mx - 2 ^ (Zdigits2 mx - prec) < Zpos m' * 2 ^ (e' - ex)
      <= mx + 2 ^ (Zdigits2 mx - prec).
Proof.
  intros Hmx Hd Hlo Hhi.
  destruct (shr_fexp_normal mx ex lx Hmx Hd Hlo) as (mrs & Hs & Hm & _).
  unfold binary_round_aux. rewrite Hs. cbv beta iota.
  pose proof (div_pow2_digits mx _ (Zdigits2_bounds mx Hmx) Hd) as Hm'.
  rewrite <- Hm in Hm'.
  pose proof (round_nearest_even_bounds (shr_m mrs) (loc_of_shr_record mrs)) as Hr.
  set (r := round_nearest_even (shr_m mrs) (loc_of_shr_record mrs)) in *.
  set (n := Zdigits2 mx - prec) in *.
  set (E := Zdigits2 mx + ex) in *.
  assert (Hn : 0 <= n) by (unfold n; lia).
  assert (Hpn : 0 < 2 ^ n) by (apply Z.pow_pos_nonneg; lia).
  assert (Hp : 0 < 2 ^ (prec - 1)) by (apply Z.pow_pos_nonneg; unfold prec; lia).
  assert (Hr0 : 0 < r) by lia.
  (* the truncated mantissa *)
  assert (Ha : shr_m mrs * 2 ^ n <= mx < (shr_m mrs + 1) * 2 ^ n).
  { rewrite Hm. pose proof (Z.div_mod mx (2 ^ n) ltac:(lia)) as Hdm.
    pose proof (Z.mod_pos_bound mx (2 ^ n) Hpn). nia. }
  assert (Hdr : Zdigits2 r = prec \/ (Zdigits2 r = prec + 1 /\ r = 2 ^ prec)).
  { destruct (Z.lt_ge_cases r (2 ^ prec)) as [Hlt|Hge].
    - left. apply Zdigits2_unique; lia.
    - right. assert (r = 2 ^ prec) by lia. split; [|assumption].
      apply Zdigits2_unique; [|lia].
      replace (prec + 1 - 1) with prec by lia. split; [lia|].
      rewrite Z.pow_add_r by (unfold prec; lia). change (2 ^ 1) with 2. lia. }
  destruct (shr_fexp_normal r (E - prec) loc_Exact Hr0) as (mrs2 & Hs2 & Hm2 & _);
    [destruct Hdr as [?|[? _]]; lia
    | destruct Hdr as [?|[? _]]; unfold prec in *; lia |].
  rewrite Hs2. cbv beta iota.
  pose proof (div_pow2_digits r _ (Zdigits2_bounds r Hr0)
                ltac:(destruct Hdr as [?|[? _]]; lia)) as Hm2'.
  rewrite <- Hm2 in Hm2'.
  destruct (shr_m mrs2) as [|m2|m2] eqn:Em2; try lia.
  assert (Hle : (Zdigits2 r + (E - prec) - prec <=? emax - prec) = true)
    by (apply Z.leb_le; destruct Hdr as [?|[? _]]; lia).
  rewrite Hle. exists m2, (Zdigits2 r + (E - prec) - prec).
  split; [reflexivity|]. split; [apply digits2_unique; exact Hm2'|].
  destruct Hdr as [Hd53|[Hd54 Hr53]].
  - rewrite Hd53 in *. replace (prec - prec) with 0 in Hm2 by lia.
    rewrite Z.pow_0_r, Z.div_1_r in Hm2.
    replace (prec + (E - prec) - prec - ex) with n by (unfold E, n; lia).
    split; [lia|]. rewrite Hm2. nia.
  - rewrite Hd54 in *. replace (prec + 1 - prec) with 1 in Hm2 by lia.
    replace (prec + 1 + (E - prec) - prec - ex) with (n + 1) by (unfold E, n; lia).
    split; [lia|].
    rewrite Hm2, Hr53, Z.pow_add_r by lia.
    change (2 ^ prec / 2 ^ 1) with (2 ^ 52). change (2 ^ 1) with 2.
    replace (2 ^ 52 * (2 ^ n * 2)) with (2 ^ prec * 2 ^ n)
      by (change (2 ^ prec) with (2 ^ 52 * 2); ring).
    rewrite <- Hr53. nia.
Qed.

Lemma Zdigits2_between (z : Z) (a b : Z) :
  0 <= a -> 2 ^ a <= z < 2 ^ b -> a + 1 <= Zdigits2 z <= b.
Proof.
  intros Ha [Hlo Hhi].
  assert (Hz : 0 < z) by (pose proof (Z.pow_pos_nonneg 2 a); lia).
  pose proof (Zdigits2_bounds z Hz) as [Dlo Dhi].
  pose proof (Zdigits2_pos z Hz) as Dpos.
  split.
  - assert (a < Zdigits2 z); [|lia].
    apply (Z.pow_lt_mono_r_iff 2); lia.
  - assert (Zdigits2 z - 1 < b); [|lia].
    destruct (Z.le_gt_cases b 0) as [Hb|Hb].
    + exfalso. assert (2 ^ b <= 1); [|lia].
      destruct (Z.eq_dec b 0) as [->|]; [reflexivity|].
      rewrite Z.pow_neg_r by lia. lia.
    + apply (Z.pow_lt_mono_r_iff 2); lia.
Qed.

(** A quotient of two normal numbers: the rounded mantissa against the
    integer quotient [mx * 2^53 / my] it was rounded from. *)
Lemma fdiv_value (mx my : positive) (ex ey : Z) :
  Zpos (digits2_pos mx) = prec -> Zpos (digits2_pos my) = prec ->
  -1021 <= ex - ey -> ex - ey + 2 <= emax ->
  exists m' e',
    fdiv (S754_finite false mx ex) (S754_finite false my ey) = S754_finite false m' e' /\
    Zpos (digits2_pos m') = prec /\
    0 <= e' - (ex - ey - 53) <= 2 /\
    Zpos mx * 2 ^ 53 / Zpos my - 2 < Zpos m' * 2 ^ (e' - (ex - ey - 53))
      <= Zpos mx * 2 ^ 53 / Zpos my + 2.
Proof.
  intros Hdx Hdy Hlo Hhi.
  unfold fdiv, SFdiv, SFdiv_core_binary. simpl xorb. simpl Zdigits2.
  rewrite Hdx, Hdy.
  replace (prec + ex - (prec + ey)) with (ex - ey) by lia.
  rewrite fexp_normal by lia.
  rewrite Z.min_l by (unfold prec; lia).
  replace (ex - ey - (ex - ey - prec)) with 53 by (unfold prec; lia).
  cbv iota. rewrite Z.shiftl_mul_pow2 by lia.
  change IntDef.Z.div_eucl with Z.div_eucl.
  pose proof (digits2_bounds mx) as Bx. pose proof (digits2_bounds my) as By.
  rewrite Hdx in Bx. rewrite Hdy in By. unfold prec in Bx, By.
  change (2 ^ (53 - 1)) with 4503599627370496 in *.
  change (2 ^ 53) with 9007199254740992 in *.
  destruct (Z.div_eucl (Zpos mx * 9007199254740992) (Zpos my)) as [q r] eqn:Hqr.
  assert (Hq : q = Zpos mx * 9007199254740992 / Zpos my)
    by (unfold Z.div; now rewrite Hqr).
  rewrite <- Hq.
  assert (HQ : 2 ^ 52 <= q < 2 ^ 54).
  { rewrite Hq. split.
    - apply Z.div_le_lower_bound; [lia|].
      change (2 ^ 52) with 4503599627370496. lia.
    - apply Z.div_lt_upper_bound; [lia|].
      change (2 ^ 54) with 18014398509481984. lia. }
  assert (Hq0 : 0 < q) by (change (2 ^ 52) with 4503599627370496 in HQ; lia).
  pose proof (Zdigits2_between q 52 54 ltac:(lia) HQ) as HDk.
  destruct (binary_round_aux_value q (ex - ey - prec) (new_location (Zpos my) r))
    as (m' & e' & Hrun & Hdm & He & Hv);
    [exact Hq0 | unfold prec; lia | unfold prec; lia | unfold prec, emax in *; lia |].
  exists m', e'. split; [exact Hrun|]. split; [exact Hdm|].
  unfold prec in He, Hv.
  assert (Hn : Zdigits2 q - 53 = 0 \/ Zdigits2 q - 53 = 1) by lia.
  split; [lia|].
  destruct Hn as [Hn|Hn]; rewrite Hn in Hv;
    [change (2 ^ 0) with 1 in Hv | change (2 ^ 1) with 2 in Hv]; lia.
Qed.

(** A product of two normal numbers, against the exact product of the
    mantissas. *)
Lemma fmul_value (mx my : positive) (ex ey : Z) :
  Zpos (digits2_pos mx) = prec -> Zpos (digits2_pos my) = prec ->
  -1021 <= 105 + ex + ey -> 107 + ex + ey <= emax ->
  exists m' e',
    fmul (S754_finite false mx ex) (S754_finite false my ey) = S754_finite false m' e' /\
    Zpos (digits2_pos m') = prec /\
    52 <= Zdigits2 (Zpos mx * Zpos my) - 53 <= 53 /\
    Zdigits2 (Zpos mx * Zpos my) - 53 <= e' - (ex + ey)
      <= Zdigits2 (Zpos mx * Zpos my) - 53 + 1 /\
    Zpos mx * Zpos my - 2 ^ (Zdigits2 (Zpos mx * Zpos my) - 53)
      < Zpos m' * 2 ^ (e' - (ex + ey))
      <= Zpos mx * Zpos my + 2 ^ (Zdigits2 (Zpos mx * Zpos my) - 53).
Proof.
  intros Hdx Hdy Hlo Hhi.
  unfold fmul, SFmul. simpl xorb.
  pose proof (digits2_bounds mx) as Bx. pose proof (digits2_bounds my) as By.
  rewrite Hdx in Bx. rewrite Hdy in By. unfold prec in Bx, By.
  change (2 ^ (53 - 1)) with 4503599627370496 in *.
  change (2 ^ 53) with 9007199254740992 in *.
  assert (HP : 2 ^ 104 <= Zpos (mx * my) < 2 ^ 106).
  { rewrite Pos2Z.inj_mul.
    change (2 ^ 104) with (4503599627370496 * 4503599627370496).
    change (2 ^ 106) with (9007199254740992 * 9007199254740992). nia. }
  pose proof (Zdigits2_between _ 104 106 ltac:(lia) HP) as HDk.
  destruct (binary_round_aux_value (Zpos (mx * my)) (ex + ey) loc_Exact)
    as (m' & e' & Hrun & Hdm & He & Hv);
    [lia | unfold prec; lia | unfold prec; lia | unfold prec, emax in *; lia |].
  exists m', e'. rewrite <- Pos2Z.inj_mul.
  split; [exact Hrun|]. split; [exact Hdm|].
  unfold prec in He, Hv. split; [lia|]. split; [exact He | exact Hv].
Qed.

(** [round] of a number that is less than one half away from the integer
    [z]. *)
Lemma round_half_even_nearest (m : positive) (e z : Z) :
  e < 0 ->
  (2 * z - 1) * 2 ^ (- e) < 2 * Zpos m < (2 * z + 1) * 2 ^ (- e) ->
  round_half_even m e = z.
Proof.
  intros He Hz. destruct e as [|p|p]; try lia.
  unfold round_half_even. change (- Zneg p) with (Zpos p) in Hz.
  assert (Hd : 0 < 2 ^ Zpos p) by (apply Z.pow_pos_nonneg; lia).
  pose proof (Z.div_mod (Zpos m) (2 ^ Zpos p) ltac:(lia)) as Hdm.
  pose proof (Z.mod_pos_bound (Zpos m) (2 ^ Zpos p) Hd) as Hr.
  set (d := 2 ^ Zpos p) in *. set (q := Zpos m / d) in *.
  set (r := Zpos m mod d) in *.
  assert (Hm : 2 * Zpos m = 2 * q * d + 2 * r) by lia.
  rewrite Hm in Hz. destruct Hz as [Hz1 Hz2].
  assert (Hcancel : forall a b, a * d < b * d -> a < b)
    by (intros a b; apply Z.mul_lt_mono_pos_r; exact Hd).
  destruct (Z.compare_spec (2 * r) d) as [Heq|Hlt|Hgt].
  - exfalso.
    assert (2 * z - 1 < 2 * q + 1) by (apply Hcancel; lia).
    assert (2 * q + 1 < 2 * z + 1) by (apply Hcancel; lia).
    lia.
  - assert (2 * z - 1 < 2 * q + 1) by (apply Hcancel; lia).
    assert (2 * q < 2 * z + 1) by (apply Hcancel; lia).
    lia.
  - assert (2 * q + 1 < 2 * z + 1) by (apply Hcancel; lia).
    assert (2 * z - 1 < 2 * q + 2) by (apply Hcancel; lia).
    lia.
Qed.

(** Line 75 for the shorter side, on the number [float(min(height, width))]:
    the side times the scale factor made from it, divided by 64, rounds to
    16. *)
Lemma short_side_units (M : positive) (E : Z) :
  Zpos (digits2_pos M) = prec -> -52 <= E <= 950 ->
  py_round (fdiv (fmul (S754_finite false M E)
                       (fdiv (float_of_Z 1024) (S754_finite false M E)))
                 (float_of_Z 64)) = inr 16.
Proof.
  intros HdM HE.
  change (float_of_Z 1024) with (S754_finite false 4503599627370496 (-42)).
  change (float_of_Z 64) with (S754_finite false 4503599627370496 (-46)).
  pose proof (digits2_bounds M) as BM. rewrite HdM in BM. unfold prec in BM.
  change (2 ^ (53 - 1)) with 4503599627370496 in BM.
  change (2 ^ 53) with 9007199254740992 in BM.
  (* the scale factor *)
  destruct (fdiv_value 4503599627370496 M (-42) E eq_refl HdM)
    as (m1 & e1 & -> & Hd1 & Hk & Hv1); [lia | unfold emax; lia |].
  set (k := e1 - (-42 - E - 53)) in *.
  change (Z.pos 4503599627370496 * 2 ^ 53) with (2 ^ 105) in Hv1.
  set (q := 2 ^ 105 / Zpos M) in *.
  assert (Ha : Zpos M * q <= 2 ^ 105 < Zpos M * q + Zpos M).
  { pose proof (Z.div_mod (2 ^ 105) (Zpos M) ltac:(lia)) as Hdm.
    pose proof (Z.mod_pos_bound (2 ^ 105) (Zpos M) ltac:(lia)). fold q in Hdm. lia. }
  (* the product *)
  destruct (fmul_value M m1 E e1 HdM Hd1) as (m3 & e3 & -> & Hd3 & Hn & Hj & Hv3);
    [lia | unfold emax; lia |].
  set (P := Zpos M * Zpos m1) in *.
  set (n := Zdigits2 P - 53) in *.
  set (j := e3 - (E + e1)) in *.
  assert (HP0 : 0 < P) by (unfold P; lia).
  pose proof (Zdigits2_bounds P HP0) as [HPlo _].
  replace (Zdigits2 P - 1) with (n + 52) in HPlo by (unfold n; lia).
  (* the division by 64 *)
  destruct (fdiv_value m3 4503599627370496 e3 (-46) Hd3 eq_refl)
    as (m4 & e4 & -> & Hd4 & Hl & Hv4); [lia | unfold emax; lia |].
  set (l := e4 - (e3 - -46 - 53)) in *.
  assert (Hq' : Zpos m3 * 2 ^ 53 / Zpos 4503599627370496 = 2 * Zpos m3).
  { change (2 ^ 53) with (2 * 4503599627370496).
    rewrite Z.mul_assoc, Z.div_mul by lia. lia. }
  rewrite Hq' in Hv4.
  unfold py_round. f_equal. simpl cond_Zopp.
  assert (He4 : e4 = k + j + l - 102) by (unfold k, j, l; lia).
  apply round_half_even_nearest; [lia|].
  (* powers of two *)
  assert (Hpk : 0 < 2 ^ k) by (apply Z.pow_pos_nonneg; lia).
  assert (Hpj : 0 < 2 ^ j) by (apply Z.pow_pos_nonneg; lia).
  assert (Hpl : 0 < 2 ^ l) by (apply Z.pow_pos_nonneg; lia).
  assert (Hpn : 0 < 2 ^ n) by (apply Z.pow_pos_nonneg; lia).
  assert (Hjn : 2 ^ j <= 2 * 2 ^ n).
  { replace (2 * 2 ^ n) with (2 ^ (n + 1)) by (rewrite Z.pow_add_r by lia; lia).
    apply Z.pow_le_mono_r; lia. }
  assert (HPn : 2 ^ n * 2 ^ 52 <= P)
    by (rewrite <- Z.pow_add_r by lia; exact HPlo).
  assert (HT : 2 ^ (- e4) * (2 ^ k * 2 ^ j * 2 ^ l) = 2 ^ 102).
  { rewrite <- !Z.pow_add_r by lia. f_equal. lia. }
  change (2 ^ 52) with 4503599627370496 in *.
  change (2 ^ 105) with 40564819207303340847894502572032 in *.
  change (2 ^ 102) with 5070602400912917605986812821504 in *.
  set (pk := 2 ^ k) in *. set (pj := 2 ^ j) in *. set (pl := 2 ^ l) in *.
  set (pn := 2 ^ n) in *. set (T := 2 ^ (- e4)) in *.
  clearbody pk pj pl pn T q. clear Hk Hj Hl Hn He4 HPlo HE.
  (* the exact product, in units of the quotient *)
  assert (HX : 40564819207303340847894502572032 - 18014398509481984
               <= P * pk <= 40564819207303340847894502572032 + 18014398509481984).
  { assert (HPX : P * pk = Zpos M * (Zpos m1 * pk)) by (unfold P; ring).
    rewrite HPX. clear HPX. clearbody P.
    set (X := Zpos m1 * pk) in *. clearbody X.
    assert (Zpos M * (q - 1) <= Zpos M * X) by (apply Z.mul_le_mono_nonneg_l; lia).
    assert (Zpos M * X <= Zpos M * (q + 2)) by (apply Z.mul_le_mono_nonneg_l; lia).
    lia. }
  clearbody P. clear Hv1 Ha.
  assert (Hnk : pn * pk <= 9007199254740992 + 4).
  { assert (pn * 4503599627370496 * pk <= P * pk)
      by (apply Z.mul_le_mono_nonneg_r; lia).
    lia. }
  assert (HY : 40564819207303340847894502572032 - 18014398509481984
                 - (9007199254740992 + 4)
               <= Zpos m3 * pj * pk
               <= 40564819207303340847894502572032 + 18014398509481984
                  + (9007199254740992 + 4)).
  { set (Y := Zpos m3 * pj) in *. clearbody Y.
    assert ((P - pn + 1) * pk <= Y * pk) by (apply Z.mul_le_mono_nonneg_r; lia).
    assert (Y * pk <= (P + pn) * pk) by (apply Z.mul_le_mono_nonneg_r; lia).
    lia. }
  assert (Hjk : pj * pk <= 2 * (9007199254740992 + 4)).
  { assert (pj * pk <= 2 * pn * pk) by (apply Z.mul_le_mono_nonneg_r; lia). lia. }
  assert (HW : 2 * (Zpos m3 * pj * pk) - pj * pk
               <= Zpos m4 * pl * (pj * pk)
               <= 2 * (Zpos m3 * pj * pk) + 2 * (pj * pk)).
  { set (W := Zpos m4 * pl) in *. clearbody W.
    assert (0 <= pj * pk) by lia.
    assert ((2 * Zpos m3 - 1) * (pj * pk) <= W * (pj * pk))
      by (apply Z.mul_le_mono_nonneg_r; lia).
    assert (W * (pj * pk) <= (2 * Zpos m3 + 2) * (pj * pk))
      by (apply Z.mul_le_mono_nonneg_r; lia).
    lia. }
  assert (HS : 0 < pk * pj * pl) by (repeat apply Z.mul_pos_pos; assumption).
  assert (Hcancel : forall a b, a * (pk * pj * pl) < b * (pk * pj * pl) -> a < b)
    by (intros a b; apply Z.mul_lt_mono_pos_r; exact HS).
  assert (Hfin : Zpos m4 * pl * (pj * pk) = Zpos m4 * (pk * pj * pl)) by ring.
  split; apply Hcancel.
  - replace ((2 * 16 - 1) * T * (pk * pj * pl)) with (31 * (T * (pk * pj * pl))) by ring.
    rewrite HT. lia.
  - replace ((2 * 16 + 1) * T * (pk * pj * pl)) with (33 * (T * (pk * pj * pl))) by ring.
    rewrite HT. lia.
Qed.

(** [float(z)] for a side length: a normal number within one part in [2^52]
    of [z]. *)
Lemma float_of_Z_value (z : Z) :
  1 <= z < 2 ^ 1000 ->
  exists m' e',
    float_of_Z z = S754_finite false m' e' /\
    Zpos (digits2_pos m') = prec /\
    -52 <= e' <= 948 /\
    z * (2 ^ 53 - 2) < Zpos m' * 2 ^ (e' + 53) <= z * (2 ^ 53 + 2).
Proof.
  destruct z as [|m|m]; try lia. intros Hz.
  unfold float_of_Z, binary_normalize, binary_round.
  pose proof (digits2_bounds m) as Bm.
  pose proof (Zdigits2_lt_pow2 (Zpos m) 1000 ltac:(lia) ltac:(lia) (proj2 Hz)) as Hk1000.
  simpl Zdigits2 in *.
  set (k := Zpos (digits2_pos m)) in *.
  assert (Hk : 0 < k) by (unfold k; lia).
  rewrite Z.add_0_r, fexp_normal by lia.
  unfold shl_align. rewrite Z.sub_0_r.
  assert (Hcase : forall n, 0 <= n -> n = k - prec ->
            exists m' e',
              binary_round_aux prec emax false (Zpos m) 0 loc_Exact
                = S754_finite false m' e' /\
              Zpos (digits2_pos m') = prec /\ -52 <= e' <= 948 /\
              Zpos m * (2 ^ 53 - 2) < Zpos m' * 2 ^ (e' + 53) <= Zpos m * (2 ^ 53 + 2)).
  { intros n Hn0 Hn.
    destruct (binary_round_aux_value (Zpos m) 0 loc_Exact)
      as (m' & e' & Hrun & Hdm & He & Hv);
      [lia | simpl; fold k; lia | simpl; fold k; lia
      | simpl; fold k; unfold emax; lia |].
    simpl Zdigits2 in He, Hv. fold k in He, Hv. rewrite <- Hn in He, Hv.
    rewrite Z.sub_0_r in He, Hv.
    exists m', e'. split; [exact Hrun|]. split; [exact Hdm|].
    unfold prec in *. split; [lia|].
    rewrite Z.pow_add_r by lia.
    assert (Hnk : 2 ^ n * 2 ^ 53 = 2 ^ k)
      by (rewrite <- Z.pow_add_r by lia; f_equal; lia).
    assert (Hkz : 2 ^ k <= 2 * Zpos m).
    { replace k with (k - 1 + 1) by lia. rewrite Z.pow_add_r by lia.
      change (2 ^ 1) with 2. lia. }
    rewrite Z.mul_assoc.
    set (V := Zpos m' * 2 ^ e') in *. clearbody V. clear Hz Bm.
    change (2 ^ 53) with 9007199254740992 in *. lia. }
  destruct (k - prec) as [|p|p] eqn:Hn.
  - apply (Hcase 0); lia.
  - apply (Hcase (Zpos p)); lia.
  - clear Hcase.
    assert (Hp : 0 < 2 ^ Zpos p) by (apply Z.pow_pos_nonneg; lia).
    assert (Hd : Zdigits2 (Zpos (Pos.iter xO m p)) = prec).
    { apply Zdigits2_unique; [|lia]. rewrite pos_iter_xO.
      replace (2 ^ (prec - 1)) with (2 ^ (k - 1 + Zpos p)) by (f_equal; lia).
      replace (2 ^ prec) with (2 ^ (k + Zpos p)) by (f_equal; lia).
      rewrite !Z.pow_add_r by lia. split.
      - apply Z.mul_le_mono_nonneg_r; lia.
      - apply Z.mul_lt_mono_pos_r; lia. }
    change (@PosDef.Pos.iter) with (@Pos.iter).
    destruct (binary_round_aux_value (Zpos (Pos.iter xO m p)) (Zneg p) loc_Exact)
      as (m' & e' & Hrun & Hdm & He & Hv);
      [lia | rewrite Hd; lia | rewrite Hd; unfold prec in *; lia
      | rewrite Hd; unfold prec, emax in *; lia |].
    rewrite Hd, pos_iter_xO in *. replace (prec - prec) with 0 in * by lia.
    change (2 ^ 0) with 1 in Hv.
    exists m', e'. split; [exact Hrun|]. split; [exact Hdm|].
    unfold prec in *. split; [lia|].
    replace (e' + 53) with (e' - Zneg p + k) by lia.
    rewrite Z.pow_add_r by lia.
    assert (Hpk : 2 ^ Zpos p * 2 ^ k = 2 ^ 53)
      by (rewrite <- Z.pow_add_r by lia; f_equal; lia).
    assert (Hkz : 2 ^ k <= 2 * Zpos m).
    { replace k with (k - 1 + 1) by lia. rewrite Z.pow_add_r by lia.
      change (2 ^ 1) with 2. lia. }
    assert (Hk0 : 0 < 2 ^ k) by (apply Z.pow_pos_nonneg; lia).
    rewrite Z.mul_assoc.
    set (V := Zpos m' * 2 ^ (e' - Zneg p)) in *. clearbody V. clear Hz Bm.
    assert ((Zpos m * 2 ^ Zpos p - 1 + 1) * 2 ^ k <= V * 2 ^ k)
      by (apply Z.mul_le_mono_nonneg_r; lia).
    assert (V * 2 ^ k <= (Zpos m * 2 ^ Zpos p + 1) * 2 ^ k)
      by (apply Z.mul_le_mono_nonneg_r; lia).
    assert (Zpos m * 2 ^ Zpos p * 2 ^ k = Zpos m * 2 ^ 53)
      by (rewrite <- Hpk; ring).
    change (2 ^ 53) with 9007199254740992 in *. lia.
Qed.

(** [round] of a number above [z - 1/2]. *)
Lemma round_half_even_ge (m : positive) (e z : Z) :
  e < 0 -> (2 * z - 1) * 2 ^ (- e) < 2 * Zpos m -> z <= round_half_even m e.
Proof.
  intros He Hz. destruct e as [|p|p]; try lia.
  unfold round_half_even. change (- Zneg p) with (Zpos p) in Hz.
  assert (Hd : 0 < 2 ^ Zpos p) by (apply Z.pow_pos_nonneg; lia).
  pose proof (Z.div_mod (Zpos m) (2 ^ Zpos p) ltac:(lia)) as Hdm.
  pose proof (Z.mod_pos_bound (Zpos m) (2 ^ Zpos p) Hd) as Hr.
  set (d := 2 ^ Zpos p) in *. set (q := Zpos m / d) in *.
  set (r := Zpos m mod d) in *.
  assert (Hm : 2 * Zpos m = 2 * q * d + 2 * r) by lia.
  rewrite Hm in Hz.
  assert (Hcancel : forall a b, a * d < b * d -> a < b)
    by (intros a b; apply Z.mul_lt_mono_pos_r; exact Hd).
  destruct (Z.compare_spec (2 * r) d) as [Heq|Hlt|Hgt].
  - assert (2 * z - 1 < 2 * q + 1) by (apply Hcancel; lia).
    destruct (Z.even q); lia.
  - assert (2 * z - 1 < 2 * q + 1) by (apply Hcancel; lia). lia.
  - assert (2 * z - 1 < 2 * q + 2) by (apply Hcancel; lia). lia.
Qed.

(** Line 75 for a side that is, as a float, not below the shorter one by
    more than the two conversions can lose: that side times the scale factor,
    divided by 64, rounds to 16 or more. *)
Lemma long_side_units (M Md : positive) (E Ed : Z) :
  Zpos (digits2_pos M) = prec -> Zpos (digits2_pos Md) = prec ->
  -52 <= E <= 948 -> -52 <= Ed <= 948 ->
  Zpos M * 2 ^ (E + 53) * (2 ^ 53 - 2) < Zpos Md * 2 ^ (Ed + 53) * (2 ^ 53 + 2) ->
  exists n,
    py_round (fdiv (fmul (S754_finite false Md Ed)
                         (fdiv (float_of_Z 1024) (S754_finite false M E)))
                   (float_of_Z 64)) = inr n /\ 16 <= n.
Proof.
  intros HdM HdMd HE HEd Hrel.
  change (float_of_Z 1024) with (S754_finite false 4503599627370496 (-42)).
  change (float_of_Z 64) with (S754_finite false 4503599627370496 (-46)).
  pose proof (digits2_bounds M) as BM. rewrite HdM in BM. unfold prec in BM.
  pose proof (digits2_bounds Md) as BMd. rewrite HdMd in BMd. unfold prec in BMd.
  change (2 ^ (53 - 1)) with 4503599627370496 in BM, BMd.
  change (2 ^ 53) with 9007199254740992 in BM, BMd.
  (* the scale factor *)
  destruct (fdiv_value 4503599627370496 M (-42) E eq_refl HdM)
    as (m1 & e1 & -> & Hd1 & Hk & Hv1); [lia | unfold emax; lia |].
  set (k := e1 - (-42 - E - 53)) in *.
  change (Z.pos 4503599627370496 * 2 ^ 53) with (2 ^ 105) in Hv1.
  set (q := 2 ^ 105 / Zpos M) in *.
  assert (Ha : Zpos M * q <= 2 ^ 105 < Zpos M * q + Zpos M).
  { pose proof (Z.div_mod (2 ^ 105) (Zpos M) ltac:(lia)) as Hdm.
    pose proof (Z.mod_pos_bound (2 ^ 105) (Zpos M) ltac:(lia)). fold q in Hdm. lia. }
  (* the product *)
  destruct (fmul_value Md m1 Ed e1 HdMd Hd1) as (m3 & e3 & -> & Hd3 & Hn & Hj & Hv3);
    [lia | unfold emax; lia |].
  set (P := Zpos Md * Zpos m1) in *.
  set (n := Zdigits2 P - 53) in *.
  set (j := e3 - (Ed + e1)) in *.
  assert (HP0 : 0 < P) by (unfold P; lia).
  pose proof (Zdigits2_bounds P HP0) as [HPlo _].
  replace (Zdigits2 P - 1) with (n + 52) in HPlo by (unfold n; lia).
  (* the division by 64 *)
  destruct (fdiv_value m3 4503599627370496 e3 (-46) Hd3 eq_refl)
    as (m4 & e4 & -> & Hd4 & Hl & Hv4); [lia | unfold emax; lia |].
  set (l := e4 - (e3 - -46 - 53)) in *.
  assert (Hq' : Zpos m3 * 2 ^ 53 / Zpos 4503599627370496 = 2 * Zpos m3).
  { change (2 ^ 53) with (2 * 4503599627370496).
    rewrite Z.mul_assoc, Z.div_mul by lia. lia. }
  rewrite Hq' in Hv4.
  pose proof (digits2_bounds m4) as B4. rewrite Hd4 in B4. unfold prec in B4.
  change (2 ^ (53 - 1)) with 4503599627370496 in B4.
  unfold py_round. simpl cond_Zopp.
  exists (round_half_even m4 e4). split; [reflexivity|].
  assert (He4 : e4 = Ed - E + k + j + l - 102) by (unfold k, j, l; lia).
  destruct (Z.lt_ge_cases e4 0) as [Hneg|Hpos].
  2:{ unfold round_half_even. clear He4.
      destruct e4 as [|p|p]; try lia;
        try (assert (0 < 2 ^ Zpos p) by (apply Z.pow_pos_nonneg; lia); nia). }
  apply round_half_even_ge; [exact Hneg|].
  (* powers of two *)
  assert (Hpk : 0 < 2 ^ k) by (apply Z.pow_pos_nonneg; lia).
  assert (Hpj : 0 < 2 ^ j) by (apply Z.pow_pos_nonneg; lia).
  assert (Hpl : 0 < 2 ^ l) by (apply Z.pow_pos_nonneg; lia).
  assert (Hpn : 0 < 2 ^ n) by (apply Z.pow_pos_nonneg; lia).
  assert (Hpa : 0 < 2 ^ (Ed + 53)) by (apply Z.pow_pos_nonneg; lia).
  assert (Hpb : 0 < 2 ^ (E + 53)) by (apply Z.pow_pos_nonneg; lia).
  assert (Hjn : 2 ^ j <= 2 * 2 ^ n).
  { replace (2 * 2 ^ n) with (2 ^ (n + 1)) by (rewrite Z.pow_add_r by lia; lia).
    apply Z.pow_le_mono_r; lia. }
  assert (HPn : 2 ^ n * 2 ^ 52 <= P)
    by (rewrite <- Z.pow_add_r by lia; exact HPlo).
  assert (HT : 2 ^ (- e4) * (2 ^ k * 2 ^ j * 2 ^ l * 2 ^ (Ed + 53))
               = 2 ^ 102 * 2 ^ (E + 53)).
  { rewrite <- !Z.pow_add_r by lia. f_equal. lia. }
  change (2 ^ 52) with 4503599627370496 in *.
  change (2 ^ 53) with 9007199254740992 in *.
  change (2 ^ 105) with 40564819207303340847894502572032 in *.
  change (2 ^ 102) with 5070602400912917605986812821504 in *.
  set (pk := 2 ^ k) in *. set (pj := 2 ^ j) in *. set (pl := 2 ^ l) in *.
  set (pn := 2 ^ n) in *. set (T := 2 ^ (- e4)) in *.
  set (a := 2 ^ (Ed + 53)) in *. set (b := 2 ^ (E + 53)) in *.
  clearbody pk pj pl pn T q a b. clear Hk Hj Hl Hn He4 HPlo HE HEd Hneg.
  (* the rounded product against the exact one *)
  assert (S1 : 2 * P - 4 * pn <= Zpos m4 * pl * pj).
  { assert ((2 * Zpos m3 - 1) * pj <= Zpos m4 * pl * pj)
      by (apply Z.mul_le_mono_nonneg_r; lia).
    lia. }
  assert (S2 : P * (9007199254740992 - 4) <= Zpos m4 * pl * pj * 4503599627370496)
    by lia.
  assert (Hka : 0 <= pk * a) by (apply Z.mul_nonneg_nonneg; lia).
  assert (S3 : P * (9007199254740992 - 4) * (pk * a)
               <= Zpos m4 * pl * pj * 4503599627370496 * (pk * a))
    by (apply Z.mul_le_mono_nonneg_r; assumption).
  assert (S4 : P * (pk * a) = (Zpos Md * a) * (Zpos m1 * pk)) by (unfold P; ring).
  clearbody P.
  set (A := Zpos Md * a) in *. set (X := Zpos m1 * pk) in *.
  set (B := Zpos M * b) in *.
  assert (HA : 0 < A) by (unfold A; apply Z.mul_pos_pos; lia).
  assert (Hq2 : 2 <= q).
  { destruct (Z.lt_ge_cases q 2); [|assumption]. exfalso. nia. }
  assert (S5 : A * (q - 1) <= A * X) by (apply Z.mul_le_mono_nonneg_l; lia).
  assert (S6 : (B * (9007199254740992 - 2) + 1) * (q - 1)
               <= A * (9007199254740992 + 2) * (q - 1)).
  { apply Z.mul_le_mono_nonneg_r; [lia|].
    replace (B * (9007199254740992 - 2)) with (Zpos M * b * (9007199254740992 - 2))
      by reflexivity.
    replace (A * (9007199254740992 + 2)) with (Zpos Md * a * (9007199254740992 + 2))
      by reflexivity.
    lia. }
  assert (S7 : b * (40564819207303340847894502572032 - 18014398509481984)
               <= B * (q - 1)).
  { replace (B * (q - 1)) with (b * (Zpos M * q - Zpos M)) by (unfold B; ring).
    apply Z.mul_le_mono_nonneg_l; lia. }
  clearbody A X B.
  set (G := Zpos m4 * (pk * pj * pl * a)) in *.
  assert (HG : Zpos m4 * pl * pj * 4503599627370496 * (pk * a)
               = G * 4503599627370496) by (unfold G; ring).
  assert (HS : 0 < pk * pj * pl * a) by (repeat apply Z.mul_pos_pos; assumption).
  apply (Z.mul_lt_mono_pos_r (pk * pj * pl * a)); [exact HS|].
  replace ((2 * 16 - 1) * T * (pk * pj * pl * a))
    with (31 * (T * (pk * pj * pl * a))) by ring.
  replace (2 * Zpos m4 * (pk * pj * pl * a)) with (2 * G) by (unfold G; ring).
  rewrite HT. clearbody G.
  set (AX := A * X) in *. set (AQ := A * (q - 1)) in *. set (BQ := B * (q - 1)) in *.
  assert (S6' : BQ * (9007199254740992 - 2) + (q - 1) <= AQ * (9007199254740992 + 2))
    by (unfold AQ, BQ; lia).
  assert (S3' : AX * (9007199254740992 - 4) <= G * 4503599627370496).
  { rewrite <- HG. rewrite <- S4. lia. }
  clearbody AX AQ BQ.
  clear S1 S2 S3 S4 S6 HG Hv1 Hv3 Hv4 Hrel Ha HT.
  lia.
Qed.

(** Line 74 and 75 for the shorter side [m0] and another side [d]: the
    shorter side becomes 1024, the other one a multiple of 64 that is at
    least 1024. *)
Lemma sides_exact (m0 d : Z) :
  1 <= m0 < 2 ^ 1000 -> 1 <= d < 2 ^ 1000 -> m0 <= d ->
  exists sf n,
    truediv_int (float_of_Z 1024) m0 = inr sf /\
    round_to_64 m0 sf = inr 1024 /\
    round_to_64 d sf = inr (n * 64) /\ 16 <= n.
Proof.
  intros Hm Hd Hle.
  destruct (float_of_Z_value m0 Hm) as (M & E & Hf0 & HdM & HE & Hv0).
  destruct (float_of_Z_value d Hd) as (Md & Ed & Hfd & HdMd & HEd & Hvd).
  destruct (long_side_units M Md E Ed HdM HdMd HE HEd) as (n & Hn & Hn16).
  { change (2 ^ 53) with 9007199254740992 in *.
    set (a := Zpos Md * 2 ^ (Ed + 53)) in *. set (b := Zpos M * 2 ^ (E + 53)) in *.
    clearbody a b. clear Hm Hd.
    assert (b * (9007199254740992 - 2)
            <= m0 * (9007199254740992 + 2) * (9007199254740992 - 2))
      by (apply Z.mul_le_mono_nonneg_r; lia).
    assert (d * (9007199254740992 - 2) * (9007199254740992 + 2)
            < a * (9007199254740992 + 2))
      by (apply Z.mul_lt_mono_pos_r; lia).
    assert (m0 * (9007199254740992 + 2) * (9007199254740992 - 2)
            <= d * (9007199254740992 - 2) * (9007199254740992 + 2)) by lia.
    lia. }
  exists (fdiv (float_of_Z 1024) (S754_finite false M E)), n.
  assert (H64 : float_of_int 64 = inr (float_of_Z 64)) by reflexivity.
  split; [|split; [|split; [|exact Hn16]]].
  - unfold truediv_int, float_of_int. rewrite Hf0. reflexivity.
  - unfold round_to_64, int_mul_float, float_of_int. rewrite Hf0.
    unfold truediv_int. rewrite H64.
    change (is_zero (float_of_Z 64)) with false. cbv iota.
    rewrite short_side_units by (assumption || lia). reflexivity.
  - unfold round_to_64, int_mul_float, float_of_int. rewrite Hfd.
    unfold truediv_int. rewrite H64.
    change (is_zero (float_of_Z 64)) with false. cbv iota.
    rewrite Hn. reflexivity.
Qed.

(** The pair of line 75: the side that was the shorter one is 1024, the
    other one at least 1024. *)
Lemma new_size_sides (w h : Z) :
  valid_side w -> valid_side h ->
  exists sf nw nh,
    scale_factor_of w h = inr sf /\
    round_to_64 h sf = inr (nh * 64) /\ round_to_64 w sf = inr (nw * 64) /\
    16 <= nw /\ 16 <= nh /\
    (w <= h -> nw = 16) /\ (h <= w -> nh = 16).
Proof.
  unfold valid_side, scale_factor_of. intros Hw Hh.
  destruct (Z.le_gt_cases w h) as [Hle|Hgt].
  - rewrite Z.min_r by exact Hle.
    destruct (sides_exact w h Hw Hh Hle) as (sf & n & Hsf & Hshort & Hlong & Hn).
    exists sf, 16, n. change (16 * 64) with 1024.
    repeat split; try assumption; try lia.
    intros Hhw. assert (h = w) by lia. subst h.
    rewrite Hshort in Hlong. injection Hlong as Hl. lia.
  - rewrite Z.min_l by lia.
    destruct (sides_exact h w Hh Hw ltac:(lia)) as (sf & n & Hsf & Hshort & Hlong & Hn).
    exists sf, n, 16. change (16 * 64) with 1024.
    repeat split; try assumption; try lia.
Qed.

(** X17.  Lines 74-75.  For sides of at least 1, the pair of new sides has its
    shorter side exactly 1024 pixels long: the side that was the shorter one
    of the input gets that length, and the other one is not shorter.  The
    float arithmetic loses nothing here: whatever the side lengths, the
    product of the shorter side with [1024 / shorter side], divided by 64,
    rounds to 16. *)
Theorem resize_short_side (width height : Z) :
  valid_side width -> valid_side height ->
  exists new_width new_height,
    new_size width height = inr (new_width, new_height) /\
    Z.min new_width new_height = 1024 /\
    (width <= height -> new_width = 1024) /\
    (height <= width -> new_height = 1024).
Proof.
  intros Hw Hh.
  destruct (new_size_sides _ _ Hw Hh)
    as (sf & nw & nh & Hsf & Hnh & Hnw & Hw16 & Hh16 & Hwh & Hhw).
  exists (nw * 64), (nh * 64). unfold new_size. rewrite Hsf, Hnh, Hnw.
  split; [reflexivity|]. split; [|split].
  - destruct (Z.le_gt_cases width height) as [Hc|Hc].
    + rewrite (Hwh Hc). lia.
    + rewrite (Hhw ltac:(lia)). lia.
  - intros Hc. rewrite (Hwh Hc). reflexivity.
  - intros Hc. rewrite (Hhw Hc). reflexivity.
Qed.

(** [round] moves a number by one half at most. *)
Lemma round_half_even_near (m : positive) (e : Z) :
  e < 0 ->
  - 2 ^ (- e) <= 2 * Zpos m - 2 * round_half_even m e * 2 ^ (- e) <= 2 ^ (- e).
Proof.
  intros He. destruct e as [|p|p]; try lia.
  unfold round_half_even. change (- Zneg p) with (Zpos p).
  assert (Hd : 0 < 2 ^ Zpos p) by (apply Z.pow_pos_nonneg; lia).
  pose proof (Z.div_mod (Zpos m) (2 ^ Zpos p) ltac:(lia)) as Hdm.
  pose proof (Z.mod_pos_bound (Zpos m) (2 ^ Zpos p) Hd) as Hr.
  set (d := 2 ^ Zpos p) in *. set (q := Zpos m / d) in *.
  set (r := Zpos m mod d) in *.
  assert (Hm : 2 * Zpos m = 2 * q * d + 2 * r) by lia.
  rewrite Hm. clear Hm Hdm.
  destruct (Z.compare_spec (2 * r) d) as [Heq|Hlt|Hgt].
  - destruct (Z.even q); lia.
  - lia.
  - lia.
Qed.

(** Line 75 for sides below [2^32]: the side times the scale factor, divided
    by 64, rounds to an integer nearest to [16 * d / m0], where [m0] is the
    side the scale factor was made from. *)
Lemma side_units_nearest (M Md : positive) (E Ed m0 d : Z) :
  Zpos (digits2_pos M) = prec -> Zpos (digits2_pos Md) = prec ->
  -52 <= E <= 948 -> -52 <= Ed <= 948 ->
  1 <= m0 < 2 ^ 32 -> 1 <= d < 2 ^ 32 ->
  m0 * (2 ^ 53 - 2) < Zpos M * 2 ^ (E + 53) <= m0 * (2 ^ 53 + 2) ->
  d * (2 ^ 53 - 2) < Zpos Md * 2 ^ (Ed + 53) <= d * (2 ^ 53 + 2) ->
  exists n,
    py_round (fdiv (fmul (S754_finite false Md Ed)
                         (fdiv (float_of_Z 1024) (S754_finite false M E)))
                   (float_of_Z 64)) = inr n /\
    - m0 <= 2 * (n * m0 - 16 * d) <= m0.
Proof.
  intros HdM HdMd HE HEd Hm0 Hd HB HA.
  change (float_of_Z 1024) with (S754_finite false 4503599627370496 (-42)).
  change (float_of_Z 64) with (S754_finite false 4503599627370496 (-46)).
  pose proof (digits2_bounds M) as BM. rewrite HdM in BM. unfold prec in BM.
  pose proof (digits2_bounds Md) as BMd. rewrite HdMd in BMd. unfold prec in BMd.
  change (2 ^ (53 - 1)) with 4503599627370496 in BM, BMd.
  change (2 ^ 53) with 9007199254740992 in BM, BMd.
  (* the scale factor *)
  destruct (fdiv_value 4503599627370496 M (-42) E eq_refl HdM)
    as (m1 & e1 & -> & Hd1 & Hk & Hv1); [lia | unfold emax; lia |].
  set (k := e1 - (-42 - E - 53)) in *.
  change (Z.pos 4503599627370496 * 2 ^ 53) with (2 ^ 105) in Hv1.
  set (q := 2 ^ 105 / Zpos M) in *.
  assert (Ha : Zpos M * q <= 2 ^ 105 < Zpos M * q + Zpos M).
  { pose proof (Z.div_mod (2 ^ 105) (Zpos M) ltac:(lia)) as Hdm.
    pose proof (Z.mod_pos_bound (2 ^ 105) (Zpos M) ltac:(lia)). fold q in Hdm. lia. }
  (* the product *)
  destruct (fmul_value Md m1 Ed e1 HdMd Hd1) as (m3 & e3 & -> & Hd3 & Hn & Hj & Hv3);
    [lia | unfold emax; lia |].
  set (P := Zpos Md * Zpos m1) in *.
  set (n := Zdigits2 P - 53) in *.
  set (j := e3 - (Ed + e1)) in *.
  assert (HP0 : 0 < P) by (unfold P; lia).
  pose proof (Zdigits2_bounds P HP0) as [HPlo _].
  replace (Zdigits2 P - 1) with (n + 52) in HPlo by (unfold n; lia).
  (* the division by 64 *)
  destruct (fdiv_value m3 4503599627370496 e3 (-46) Hd3 eq_refl)
    as (m4 & e4 & -> & Hd4 & Hl & Hv4); [lia | unfold emax; lia |].
  set (l := e4 - (e3 - -46 - 53)) in *.
  assert (Hq' : Zpos m3 * 2 ^ 53 / Zpos 4503599627370496 = 2 * Zpos m3).
  { change (2 ^ 53) with (2 * 4503599627370496).
    rewrite Z.mul_assoc, Z.div_mul by lia. lia. }
  rewrite Hq' in Hv4.
  unfold py_round. simpl cond_Zopp.
  exists (round_half_even m4 e4). split; [reflexivity|].
  assert (He4 : e4 = Ed - E + k + j + l - 102) by (unfold k, j, l; lia).
  (* powers of two *)
  assert (Hpk : 0 < 2 ^ k) by (apply Z.pow_pos_nonneg; lia).
  assert (Hpj : 0 < 2 ^ j) by (apply Z.pow_pos_nonneg; lia).
  assert (Hpl : 0 < 2 ^ l) by (apply Z.pow_pos_nonneg; lia).
  assert (Hpn : 0 < 2 ^ n) by (apply Z.pow_pos_nonneg; lia).
  assert (Hpa : 0 < 2 ^ (Ed + 53)) by (apply Z.pow_pos_nonneg; lia).
  assert (Hpb : 0 < 2 ^ (E + 53)) by (apply Z.pow_pos_nonneg; lia).
  assert (Hjn : 2 ^ j <= 2 * 2 ^ n).
  { replace (2 * 2 ^ n) with (2 ^ (n + 1)) by (rewrite Z.pow_add_r by lia; lia).
    apply Z.pow_le_mono_r; lia. }
  assert (HPn : 2 ^ n * 2 ^ 52 <= P)
    by (rewrite <- Z.pow_add_r by lia; exact HPlo).
  (* the rounded quotient, scaled to an integer *)
  set (N := round_half_even m4 e4).
  assert (HN0 : 0 <= N).
  { unfold N, round_half_even. destruct e4 as [|p|p].
    - lia.
    - apply Z.mul_nonneg_nonneg; [lia | apply Z.pow_nonneg; lia].
    - assert (0 < 2 ^ Zpos p) by (apply Z.pow_pos_nonneg; lia).
      assert (0 <= Zpos m4 / 2 ^ Zpos p) by (apply Z.div_pos; lia).
      destruct (_ ?= _); try destruct (Z.even _); lia. }
  assert (HR : - (2 ^ 102 * 2 ^ (E + 53))
               <= 2 * (Zpos m4 * (2 ^ k * 2 ^ j * 2 ^ l * 2 ^ (Ed + 53)))
                  - 2 * N * (2 ^ 102 * 2 ^ (E + 53))
               <= 2 ^ 102 * 2 ^ (E + 53)).
  { destruct (Z.lt_ge_cases e4 0) as [Hneg|Hpos].
    - assert (HT : 2 ^ (- e4) * (2 ^ k * 2 ^ j * 2 ^ l * 2 ^ (Ed + 53))
                   = 2 ^ 102 * 2 ^ (E + 53)).
      { rewrite <- !Z.pow_add_r by lia. f_equal. lia. }
      pose proof (round_half_even_near m4 e4 Hneg) as Hnear. fold N in Hnear.
      rewrite <- HT.
      set (T := 2 ^ (- e4)) in *.
      set (c := 2 ^ k * 2 ^ j * 2 ^ l * 2 ^ (Ed + 53)) in *.
      assert (Hc : 0 <= c) by (unfold c; repeat apply Z.mul_nonneg_nonneg; lia).
      clearbody T c.
      assert (- T * c <= (2 * Zpos m4 - 2 * N * T) * c)
        by (apply Z.mul_le_mono_nonneg_r; lia).
      assert ((2 * Zpos m4 - 2 * N * T) * c <= T * c)
        by (apply Z.mul_le_mono_nonneg_r; lia).
      lia.
    - assert (HT : 2 ^ k * 2 ^ j * 2 ^ l * 2 ^ (Ed + 53)
                   = 2 ^ e4 * (2 ^ 102 * 2 ^ (E + 53))).
      { rewrite <- !Z.pow_add_r by lia. f_equal. lia. }
      assert (HN : N = Zpos m4 * 2 ^ e4)
        by (unfold N, round_half_even; destruct e4; try lia; reflexivity).
      rewrite HT, HN.
      assert (0 < 2 ^ 102 * 2 ^ (E + 53)) by (apply Z.mul_pos_pos; lia).
      set (Z0 := 2 ^ 102 * 2 ^ (E + 53)) in *. clearbody Z0. nia. }
  change (2 ^ 52) with 4503599627370496 in *.
  change (2 ^ 53) with 9007199254740992 in *.
  change (2 ^ 105) with 40564819207303340847894502572032 in *.
  change (2 ^ 102) with 5070602400912917605986812821504 in *.
  change (2 ^ 32) with 4294967296 in *.
  set (pk := 2 ^ k) in *. set (pj := 2 ^ j) in *. set (pl := 2 ^ l) in *.
  set (pn := 2 ^ n) in *.
  set (a := 2 ^ (Ed + 53)) in *. set (b := 2 ^ (E + 53)) in *.
  clearbody pk pj pl pn q a b N. clear Hk Hj Hl Hn He4 HPlo HE HEd.
  (* the rounded product against the exact one *)
  assert (S1 : 2 * P - 4 * pn <= Zpos m4 * pl * pj <= 2 * P + 6 * pn).
  { assert ((2 * Zpos m3 - 1) * pj <= Zpos m4 * pl * pj)
      by (apply Z.mul_le_mono_nonneg_r; lia).
    assert (Zpos m4 * pl * pj <= (2 * Zpos m3 + 2) * pj)
      by (apply Z.mul_le_mono_nonneg_r; lia).
    lia. }
  assert (S2 : P * (9007199254740992 - 4) <= Zpos m4 * pl * pj * 4503599627370496
               <= P * (9007199254740992 + 6)) by lia.
  assert (Hka : 0 <= pk * a) by (apply Z.mul_nonneg_nonneg; lia).
  assert (S3 : P * (9007199254740992 - 4) * (pk * a)
               <= Zpos m4 * pl * pj * 4503599627370496 * (pk * a)
               <= P * (9007199254740992 + 6) * (pk * a))
    by (split; apply Z.mul_le_mono_nonneg_r; (assumption || lia)).
  assert (S4 : P * (pk * a) = (Zpos Md * a) * (Zpos m1 * pk)) by (unfold P; ring).
  clearbody P.
  set (A := Zpos Md * a) in *. set (X := Zpos m1 * pk) in *.
  set (G := Zpos m4 * (pk * pj * pl * a)) in *.
  assert (HG : Zpos m4 * pl * pj * 4503599627370496 * (pk * a)
               = G * 4503599627370496) by (unfold G; ring).
  assert (HA0 : 0 < A) by lia.
  (* everything times the mantissa of the shorter side *)
  assert (S5 : A * (40564819207303340847894502572032 - 18014398509481984)
               <= A * X * Zpos M
               <= A * (40564819207303340847894502572032 + 18014398509481984)).
  { replace (A * X * Zpos M) with (A * (Zpos M * X)) by ring.
    assert (Zpos M * (q - 1) <= Zpos M * X) by (apply Z.mul_le_mono_nonneg_l; lia).
    assert (Zpos M * X <= Zpos M * (q + 2)) by (apply Z.mul_le_mono_nonneg_l; lia).
    split; apply Z.mul_le_mono_nonneg_l; lia. }
  assert (S6 : A * X * (9007199254740992 - 4) * Zpos M
               <= G * 4503599627370496 * Zpos M
               <= A * X * (9007199254740992 + 6) * Zpos M).
  { rewrite <- HG.
    replace (A * X * (9007199254740992 - 4)) with (P * (9007199254740992 - 4) * (pk * a))
      by (rewrite <- S4; ring).
    replace (A * X * (9007199254740992 + 6)) with (P * (9007199254740992 + 6) * (pk * a))
      by (rewrite <- S4; ring).
    split; apply Z.mul_le_mono_nonneg_r; lia. }
  set (B := Zpos M * b) in *.
  set (g := G * 4503599627370496 * Zpos M) in *.
  set (AXM := A * X * Zpos M) in *.
  assert (S6' : AXM * (9007199254740992 - 4) <= g <= AXM * (9007199254740992 + 6))
    by (unfold AXM, g in *; lia).
  (* the rounding of HR, on the same scale *)
  assert (HRg : - (5070602400912917605986812821504 * 4503599627370496 * B)
                <= 2 * g - 2 * N * (5070602400912917605986812821504 * 4503599627370496 * B)
                <= 5070602400912917605986812821504 * 4503599627370496 * B).
  { assert (HM0 : 0 <= 4503599627370496 * Zpos M) by lia.
    set (Z0 := 5070602400912917605986812821504 * b) in *.
    set (D := 2 * G - 2 * N * Z0) in *.
    assert (- Z0 * (4503599627370496 * Zpos M) <= D * (4503599627370496 * Zpos M))
      by (apply Z.mul_le_mono_nonneg_r; [exact HM0 | unfold D; lia]).
    assert (D * (4503599627370496 * Zpos M) <= Z0 * (4503599627370496 * Zpos M))
      by (apply Z.mul_le_mono_nonneg_r; [exact HM0 | unfold D; lia]).
    unfold g, B, D, Z0 in *. lia. }
  assert (HNB : 0 <= N * m0 /\
                N * m0 * (9007199254740992 - 2) <= N * B
                <= N * m0 * (9007199254740992 + 2)).
  { split; [apply Z.mul_nonneg_nonneg; lia|].
    replace (N * m0 * (9007199254740992 - 2))
      with (N * (m0 * (9007199254740992 - 2))) by ring.
    replace (N * m0 * (9007199254740992 + 2))
      with (N * (m0 * (9007199254740992 + 2))) by ring.
    split; apply Z.mul_le_mono_nonneg_l; lia. }
  assert (HRg' : - (22835963083295358096932575511191922182123945984 * B) <= 2 * g - 2 * (22835963083295358096932575511191922182123945984 * (N * B)) <= 22835963083295358096932575511191922182123945984 * B) by lia.
  replace (2 * (N * m0 - 16 * d)) with (2 * (N * m0) - 32 * d) by ring.
  set (NB := N * B) in *. set (NM := N * m0) in *.
  clearbody NM NB g AXM A B.
  clear S1 S2 S3 S4 S6 HG HRg Hv1 Hv3 Hv4 Ha HR Hjn HPn Hka X G pk pj pl pn a b
        Hpk Hpj Hpl Hpn Hpa Hpb BM BMd HN0 Hq'.
  assert (U1 : d * 365375409332725486162005964359061696343986667520 <= AXM <= d * 365375409332725972939836451999151871078017531904) by lia.
  assert (U2 : d * 3291009114642408430555845037858703574968023647322628022872309760 <= g <= d * 3291009114642416468814850357825240473065091227329698834721800192) by lia.
  clear S5 S6' HA U1.
  assert (U3 : NM * 205688069665150709597444981228952619257690960820353118670684160 <= 22835963083295358096932575511191922182123945984 * NB <= NM * 205688069665150800941297314410385006987993005588041847166468096) by lia.
  assert (U4 : m0 * 205688069665150709597444981228952619257690960820353118670684160 <= 22835963083295358096932575511191922182123945984 * B <= m0 * 205688069665150800941297314410385006987993005588041847166468096) by lia.
  set (ZB := 22835963083295358096932575511191922182123945984 * B) in *. set (ZNB := 22835963083295358096932575511191922182123945984 * NB) in *.
  clearbody ZB ZNB. clear HNB HB.
  split.
  - destruct (Z.le_gt_cases (- m0) (2 * NM - 32 * d)) as [Hc|Hc]; [exact Hc|].
    exfalso. assert (Hc' : 2 * NM <= 32 * d - m0 - 1) by lia. clear Hc. lia.
  - destruct (Z.le_gt_cases (2 * NM - 32 * d) m0) as [Hc|Hc]; [exact Hc|].
    exfalso. assert (Hc' : 32 * d + m0 + 1 <= 2 * NM) by lia. clear Hc. lia.
Qed.

(** Lines 74 and 75 for sides below [2^32]: the new length of a side [d] is
    64 times an integer nearest to [16 * d / m0], [m0] being the shorter
    side. *)
Lemma sides_nearest (m0 d : Z) :
  1 <= m0 < 2 ^ 32 -> 1 <= d < 2 ^ 32 ->
  exists n,
    round_to_64 d (fdiv (float_of_Z 1024) (float_of_Z m0)) = inr (n * 64) /\
    - m0 <= 2 * (n * m0 - 16 * d) <= m0.
Proof.
  intros Hm Hd.
  assert (H32 : 2 ^ 32 < 2 ^ 1000) by (apply Z.pow_lt_mono_r; lia).
  destruct (float_of_Z_value m0 ltac:(lia)) as (M & E & Hf0 & HdM & HE & Hv0).
  destruct (float_of_Z_value d ltac:(lia)) as (Md & Ed & Hfd & HdMd & HEd & Hvd).
  destruct (side_units_nearest M Md E Ed m0 d HdM HdMd HE HEd Hm Hd)
    as (n & Hn & Hnear); [lia | lia |].
  exists n. split; [|exact Hnear].
  assert (H64 : float_of_int 64 = inr (float_of_Z 64)) by reflexivity.
  unfold round_to_64, int_mul_float, float_of_int. rewrite Hfd, Hf0.
  unfold truediv_int. rewrite H64.
  change (is_zero (float_of_Z 64)) with false. cbv iota.
  rewrite Hn. reflexivity.
Qed.

Lemma scale_factor_of_run (w h : Z) :
  valid_side w -> valid_side h ->
  scale_factor_of w h = inr (fdiv (float_of_Z 1024) (float_of_Z (Z.min h w))).
Proof.
  unfold valid_side. intros Hw Hh.
  destruct (float_of_Z_value (Z.min h w) ltac:(lia)) as (M & E & Hf0 & _).
  unfold scale_factor_of, truediv_int, float_of_int. rewrite Hf0. reflexivity.
Qed.

(** X18.  Lines 74-75, for sides of at least 1 and below [2^32].  Each new side
    is 64 times an integer nearest to 16 times that side of the input divided
    by the shorter side: the side scaled by [1024 / shorter side] and rounded
    to a nearest multiple of 64, as if lines 74 and 75 were computed without
    rounding errors; only the direction of an exact tie is left open. *)
Theorem resize_nearest_multiple (width height : Z) :
  1 <= width < 2 ^ 32 -> 1 <= height < 2 ^ 32 ->
  let shorter := Z.min height width in
  exists nw nh,
    new_size width height = inr (nw * 64, nh * 64) /\
    Z.abs (2 * (nw * shorter - 16 * width)) <= shorter /\
    Z.abs (2 * (nh * shorter - 16 * height)) <= shorter.
Proof.
  intros Hw Hh shorter.
  assert (H32 : 2 ^ 32 < 2 ^ 1000) by (apply Z.pow_lt_mono_r; lia).
  assert (Hvw : valid_side width) by (unfold valid_side; lia).
  assert (Hvh : valid_side height) by (unfold valid_side; lia).
  assert (Hs : 1 <= shorter < 2 ^ 32) by (unfold shorter; lia).
  destruct (sides_nearest shorter width Hs Hw) as (nw & Hnw & Hnearw).
  destruct (sides_nearest shorter height Hs Hh) as (nh & Hnh & Hnearh).
  exists nw, nh. unfold new_size.
  rewrite (scale_factor_of_run _ _ Hvw Hvh). fold shorter. rewrite Hnh, Hnw.
  split; [reflexivity|]. split; apply Z.abs_le; assumption.
Qed.

(* ================================================================== *)
(** * Running the monad *)
(* ================================================================== *)

Section Runs.

Context {A B : Type}.

Lemma bind_ok (m : M A) (f : A -> M B) (s s1 : state) (x : A) (ev1 : list event) :
  m s = (inr x, s1, ev1) ->
  bind m f s = (outcome (f x s1), final (f x s1), ev1 ++ events (f x s1)).
Proof.
  intros H. unfold bind. rewrite H. now destruct (f x s1) as [[? ?] ?].
Qed.

Lemma bind_pure (m : M A) (f : A -> M B) (s s1 : state) (x : A) :
  m s = (inr x, s1, []) -> bind m f s = f x s1.
Proof.
  intros H. unfold bind. rewrite H. now destruct (f x s1) as [[? ?] ?].
Qed.

Lemma bind_fail (m : M A) (f : A -> M B) (s s1 : state) (e : exn) (ev1 : list event) :
  m s = (inl e, s1, ev1) -> bind m f s = (inl e, s1, ev1).
Proof. intros H. unfold bind. now rewrite H. Qed.

End Runs.

(** ** The heap *)

Lemma fresh_heap_None (s : state) : st_heap s !! fresh (dom (st_heap s)) = None.
Proof. apply not_elem_of_dom, is_fresh. Qed.

Lemma preserves_refl (s : state) : preserves s s.
Proof. split; [reflexivity | auto]. Qed.

Lemma preserves_trans (s1 s2 s3 : state) :
  preserves s1 s2 -> preserves s2 s3 -> preserves s1 s3.
Proof.
  intros [H1 F1] [H2 F2]. split.
  - now transitivity (st_heap s2).
  - intros q Hq. now rewrite F2, F1.
Qed.

Lemma preserves_lookup (s s' : state) (ref : nat) (img : Image) :
  preserves s s' -> st_heap s !! ref = Some img -> st_heap s' !! ref = Some img.
Proof. intros [H _] Hl. eapply lookup_weaken; eassumption. Qed.

Lemma preserves_file (s s' : state) (q : string) (f : file) :
  preserves s s' -> q <> "/tmp/image.png" ->
  st_fs s !! q = Some f -> st_fs s' !! q = Some f.
Proof. intros [_ H] Hq Hf. now rewrite H. Qed.

Lemma preserves_set_frame (s : state) (fr : gmap string local) :
  preserves s (set_frame fr s).
Proof. split; [reflexivity | auto]. Qed.

Lemma alloc_spec (img : Image) (s : state) :
  exists ref s',
    alloc img s = (inr ref, s', []) /\ preserves s s' /\
    st_heap s !! ref = None /\ st_heap s' !! ref = Some img /\
    s' = set_heap (<[ref := img]> (st_heap s)) s.
Proof.
  exists (fresh (dom (st_heap s))), (set_heap (<[fresh (dom (st_heap s)) := img]> (st_heap s)) s).
  pose proof (fresh_heap_None s) as Hf.
  repeat split; simpl; auto.
  - now apply insert_subseteq.
  - apply lookup_insert_eq.
Qed.

Lemma deref_run (ref : nat) (img : Image) (s : state) :
  st_heap s !! ref = Some img -> deref ref s = (inr img, s, []).
Proof. intros H. unfold deref. now rewrite H. Qed.

Lemma assign_run (name : string) (v : local) (s : state) :
  assign name v s = (inr tt, set_frame (<[name := v]> (st_frame s)) s, []).
Proof. reflexivity. Qed.

Section Specs.

Variable ext : externals.

Lemma pil_copy_spec (ref : nat) (img : Image) (s : state) :
  st_heap s !! ref = Some img ->
  exists out s',
    pil_copy ref s = (inr out, s', []) /\ preserves s s' /\
    st_heap s !! out = None /\ st_heap s' !! out = Some img /\
    s' = set_heap (<[out := img]> (st_heap s)) s.
Proof.
  intros H. destruct (alloc_spec img s) as (out & s' & Ha & Hp & Hn & Hs & Hst).
  exists out, s'. unfold pil_copy.
  rewrite (bind_pure _ _ _ _ _ (deref_run _ _ _ H)). auto.
Qed.

Lemma pil_convert_spec (ref : nat) (mode : string) (img : Image) (s : state) :
  st_heap s !! ref = Some img ->
  exists out s',
    pil_convert ext ref mode s = (inr out, s', []) /\ preserves s s' /\
    st_heap s !! out = None /\
    st_heap s' !! out = Some (convert_image ext mode img).
Proof.
  intros H.
  destruct (alloc_spec (convert_image ext mode img) s) as (out & s' & Ha & Hp & Hn & Hs & _).
  exists out, s'. unfold pil_convert.
  rewrite (bind_pure _ _ _ _ _ (deref_run _ _ _ H)). auto.
Qed.

Lemma pil_resize_spec (ref : nat) (w h : Z) (img : Image) (data : list (list Z))
    (s : state) :
  st_heap s !! ref = Some img -> 1 <= w < 2 ^ 31 -> 1 <= h < 2 ^ 31 ->
  ext_lanczos ext img w h = Some data ->
  exists out s',
    pil_resize ext ref w h s = (inr out, s', []) /\ preserves s s' /\
    st_heap s' !! out =
      Some {| im_mode := im_mode img; im_width := w; im_height := h;
              im_data := data |}.
Proof.
  intros H Hw Hh Hdata.
  destruct (alloc_spec {| im_mode := im_mode img; im_width := w; im_height := h;
                          im_data := data |} s)
    as (out & s' & Ha & Hp & _ & Hs & _).
  exists out, s'. unfold pil_resize.
  rewrite (bind_pure _ _ _ _ _ (deref_run _ _ _ H)).
  replace (c_int w) with true by (symmetry; unfold c_int; apply andb_true_intro; lia).
  replace (c_int h) with true by (symmetry; unfold c_int; apply andb_true_intro; lia).
  replace (w <? 1) with false by (symmetry; apply Z.ltb_ge; lia).
  replace (h <? 1) with false by (symmetry; apply Z.ltb_ge; lia).
  simpl. rewrite Hdata. auto.
Qed.

Lemma esrgan_predict_spec (model : ESRGAN) (ref : nat) (img up : Image) (s : state) :
  st_heap s !! ref = Some img ->
  ext_esrgan ext (esr_scale model) img = Some up ->
  exists out s',
    esrgan_predict ext model ref s = (inr out, s', [EvSuperRes (esr_scale model) img]) /\
    preserves s s' /\
    st_heap s' !! out = Some up.
Proof.
  intros H Hup.
  destruct (alloc_spec up s) as (out & s' & Ha & Hp & _ & Hs & _).
  exists out, s'. unfold esrgan_predict.
  rewrite (bind_pure _ _ _ _ _ (deref_run _ _ _ H)).
  rewrite (bind_ok _ _ s s tt [EvSuperRes (esr_scale model) img] eq_refl).
  rewrite Hup, Ha. auto.
Qed.

Lemma esrgan_predict_fails (model : ESRGAN) (ref : nat) (img : Image) (s : state) :
  st_heap s !! ref = Some img ->
  ext_esrgan ext (esr_scale model) img = None ->
  esrgan_predict ext model ref s =
    (inl (ModelError "RealESRGAN"), s, [EvSuperRes (esr_scale model) img]).
Proof.
  intros H Hup. unfold esrgan_predict.
  rewrite (bind_pure _ _ _ _ _ (deref_run _ _ _ H)).
  rewrite (bind_ok _ _ s s tt [EvSuperRes (esr_scale model) img] eq_refl).
  now rewrite Hup.
Qed.

End Specs.

(* ================================================================== *)
(** * The conditioning image *)
(* ================================================================== *)

Lemma ESRGAN_models_2 :
  ESRGAN_models !! 2 = Some {| esr_scale := 2; esr_weights := "weights/RealESRGAN_x2.pth" |}.
Proof. vm_compute. reflexivity. Qed.

Lemma lift_inr {A} (x : A) (s : state) : lift (inr x) s = (inr x, s, []).
Proof. reflexivity. Qed.

Section Resize.

Variable ext : externals.

Lemma convert_image_mode (mode : string) (img : Image) :
  im_mode (convert_image ext mode img) = mode.
Proof. unfold convert_image. case_bool_decide; [assumption | reflexivity]. Qed.

Lemma convert_image_size (mode : string) (img : Image) :
  im_size (convert_image ext mode img) = im_size img.
Proof. unfold convert_image. now case_bool_decide. Qed.

(** Lines 72-80 when the resize of line 76 goes through. *)
Lemma resize_spec (input : nat) (img res : Image) (resolution : string) (s : state)
    (nw nh : Z) :
  st_heap s !! input = Some img ->
  resolution <> "original" ->
  new_size (im_width img) (im_height img) = inr (nw, nh) ->
  1 <= nw < 2 ^ 31 -> 1 <= nh < 2 ^ 31 ->
  resized ext img nw nh = Some res ->
  exists s',
    preserves s s' /\
    match (if bool_decide (resolution = "2048") then ext_esrgan ext 2 res
           else Some res) with
    | Some c =>
        exists out,
          resize_for_condition_image ext input resolution s =
            (inr out, s',
             if bool_decide (resolution = "2048") then [EvSuperRes 2 res] else []) /\
          st_heap s' !! out = Some c
    | None =>
        resize_for_condition_image ext input resolution s =
          (inl (ModelError "RealESRGAN"), s', [EvSuperRes 2 res])
    end.
Proof.
  intros Hin Hres Hnew Hw Hh Hrsz.
  unfold new_size in Hnew.
  destruct (scale_factor_of _ _) as [e|sf] eqn:Hsf; [discriminate|].
  destruct (round_to_64 (im_height img) sf) as [e|nh'] eqn:Hnh; [discriminate|].
  destruct (round_to_64 (im_width img) sf) as [e|nw'] eqn:Hnw; [discriminate|].
  injection Hnew as -> ->.
  unfold resized in Hrsz.
  destruct (ext_lanczos ext _ nw nh) as [data|] eqn:Hdata; [|discriminate].
  injection Hrsz as <-.
  unfold resize_for_condition_image. rewrite (bool_decide_eq_false_2 _ Hres).
  destruct (pil_convert_spec ext input "RGB" img s Hin) as (c & s1 & Hc & P1 & _ & Hc1).
  rewrite (bind_pure _ _ _ _ _ Hc).
  rewrite (bind_pure _ _ _ _ _ (deref_run _ _ _ (preserves_lookup _ _ _ _ P1 Hin))).
  unfold im_size. cbv beta iota.
  rewrite Hsf, (bind_pure _ _ _ _ _ (lift_inr _ _)).
  rewrite Hnh, (bind_pure _ _ _ _ _ (lift_inr _ _)).
  rewrite Hnw, (bind_pure _ _ _ _ _ (lift_inr _ _)).
  destruct (pil_resize_spec ext c nw nh _ data s1 Hc1 Hw Hh Hdata)
    as (z & s2 & Hz & P2 & Hz2).
  rewrite convert_image_mode in Hz2.
  rewrite (bind_pure _ _ _ _ _ Hz).
  case_bool_decide.
  - unfold esrgan_model. rewrite ESRGAN_models_2.
    rewrite (bind_pure _ _ s2 s2 _ eq_refl).
    set (model := {| esr_scale := 2; esr_weights := "weights/RealESRGAN_x2.pth" |}).
    match goal with |- context [ext_esrgan ext 2 ?r] =>
      destruct (ext_esrgan ext 2 r) as [up|] eqn:Hup end.
    + destruct (esrgan_predict_spec ext model z _ up s2 Hz2 Hup)
        as (u & s3 & Hu & P3 & Hu3).
      exists s3. split; [eauto using preserves_trans|]. exists u. auto.
    + exists s2. split; [eauto using preserves_trans|].
      exact (esrgan_predict_fails ext model z _ s2 Hz2 Hup).
  - exists s2. split; [eauto using preserves_trans|]. exists z. auto.
Qed.

(** Lines 72-76 when the resize of line 76 is refused: a side that is no C
    [int], or an image the library cannot make. *)
Lemma resize_refused (input : nat) (img : Image) (resolution : string) (s : state)
    (nw nh : Z) :
  st_heap s !! input = Some img ->
  resolution <> "original" ->
  new_size (im_width img) (im_height img) = inr (nw, nh) ->
  1 <= nw -> 1 <= nh ->
  exists s',
    preserves s s' /\
    resize_for_condition_image ext input resolution s =
      (inl (if c_int nw && c_int nh then MemoryError else OverflowError), s', []) \/
    (c_int nw && c_int nh = true /\ is_Some (resized ext img nw nh)).
Proof.
  intros Hin Hres Hnew Hw Hh.
  destruct (c_int nw && c_int nh) eqn:Hc.
  2:{ unfold new_size in Hnew.
      destruct (scale_factor_of _ _) as [e|sf] eqn:Hsf; [discriminate|].
      destruct (round_to_64 (im_height img) sf) as [e|nh'] eqn:Hnh; [discriminate|].
      destruct (round_to_64 (im_width img) sf) as [e|nw'] eqn:Hnw; [discriminate|].
      injection Hnew as -> ->.
      unfold resize_for_condition_image. rewrite bool_decide_false by exact Hres.
      destruct (pil_convert_spec ext input "RGB" img s Hin) as (c & s1 & Hcv & P1 & _ & Hc1).
      exists s1. left. split; [exact P1|].
      rewrite (bind_pure _ _ _ _ _ Hcv).
      rewrite (bind_pure _ _ _ _ _ (deref_run _ _ _ (preserves_lookup _ _ _ _ P1 Hin))).
      unfold im_size. cbv beta iota.
      rewrite Hsf, (bind_pure _ _ _ _ _ (lift_inr _ _)).
      rewrite Hnh, (bind_pure _ _ _ _ _ (lift_inr _ _)).
      rewrite Hnw, (bind_pure _ _ _ _ _ (lift_inr _ _)).
      apply bind_fail. unfold pil_resize.
      rewrite (bind_pure _ _ _ _ _ (deref_run _ _ _ Hc1)).
      rewrite Hc. reflexivity. }
  destruct (resized ext img nw nh) as [res|] eqn:Hrsz.
  { exists s. right. split; [reflexivity | now eexists]. }
  unfold new_size in Hnew.
  destruct (scale_factor_of _ _) as [e|sf] eqn:Hsf; [discriminate|].
  destruct (round_to_64 (im_height img) sf) as [e|nh'] eqn:Hnh; [discriminate|].
  destruct (round_to_64 (im_width img) sf) as [e|nw'] eqn:Hnw; [discriminate|].
  injection Hnew as -> ->.
  unfold resize_for_condition_image. rewrite bool_decide_false by exact Hres.
  destruct (pil_convert_spec ext input "RGB" img s Hin) as (c & s1 & Hcv & P1 & _ & Hc1).
  exists s1. left. split; [exact P1|].
  rewrite (bind_pure _ _ _ _ _ Hcv).
  rewrite (bind_pure _ _ _ _ _ (deref_run _ _ _ (preserves_lookup _ _ _ _ P1 Hin))).
  unfold im_size. cbv beta iota.
  rewrite Hsf, (bind_pure _ _ _ _ _ (lift_inr _ _)).
  rewrite Hnh, (bind_pure _ _ _ _ _ (lift_inr _ _)).
  rewrite Hnw, (bind_pure _ _ _ _ _ (lift_inr _ _)).
  apply bind_fail. unfold pil_resize.
  rewrite (bind_pure _ _ _ _ _ (deref_run _ _ _ Hc1)).
  rewrite Hc. cbv [negb].
  replace (nw <? 1) with false by (symmetry; apply Z.ltb_ge; lia).
  replace (nh <? 1) with false by (symmetry; apply Z.ltb_ge; lia).
  cbv [orb]. unfold resized in Hrsz.
  destruct (ext_lanczos ext _ nw nh); [discriminate | reflexivity].
Qed.

Lemma c_int_spec (z : Z) : 1 <= z -> c_int z = true <-> z < 2 ^ 31.
Proof.
  intros Hz. unfold c_int. rewrite andb_true_iff, Z.leb_le, Z.ltb_lt. lia.
Qed.

Lemma resized_size (img res : Image) (w h : Z) :
  resized ext img w h = Some res -> im_mode res = "RGB" /\ im_size res = (w, h).
Proof.
  unfold resized. destruct (ext_lanczos ext _ w h); [|discriminate].
  intros [= <-]. split; reflexivity.
Qed.

Lemma resize_original_run
    (input : nat) (img : Image) (s : state) :
  st_heap s !! input = Some img ->
  exists out s',
    resize_for_condition_image ext input "original" s = (inr out, s', []) /\
    preserves s s' /\ st_heap s' !! out = Some img.
Proof.
  intros Hin. unfold resize_for_condition_image.
  rewrite bool_decide_true by reflexivity.
  destruct (pil_copy_spec input img s Hin) as (out & s' & Hrun & Hp & _ & Hout & _).
  exists out, s'. auto.
Qed.

(** What a conditioning image that was made is made of. *)
Lemma conditioning_image_inv (resolution : string) (img ctrl : Image) :
  conditioning_image ext resolution img = inr ctrl ->
  (resolution = "original" /\ ctrl = img) \/
  (resolution <> "original" /\
   exists nw nh res,
     new_size (im_width img) (im_height img) = inr (nw, nh) /\
     1 <= nw < 2 ^ 31 /\ 1 <= nh < 2 ^ 31 /\
     resized ext img nw nh = Some res /\
     (if bool_decide (resolution = "2048") then ext_esrgan ext 2 res
      else Some res) = Some ctrl).
Proof.
  unfold conditioning_image. case_bool_decide as Hres.
  - intros [= <-]. now left.
  - destruct (new_size _ _) as [e|[nw nh]]; [discriminate|].
    destruct (c_int nw && c_int nh) eqn:Hc; [|discriminate]. cbv [negb].
    destruct ((nw <? 1) || (nh <? 1)) eqn:Hpos; [discriminate|].
    destruct (resized ext img nw nh) as [res|] eqn:Hrsz; [|discriminate].
    intros Hctrl. right. split; [exact Hres|]. exists nw, nh, res.
    apply orb_false_iff in Hpos as [Hw Hh]. apply Z.ltb_ge in Hw, Hh.
    apply andb_true_iff in Hc as [Hcw Hch].
    apply c_int_spec in Hcw, Hch; try lia.
    repeat (split; [auto; lia|]).
    case_bool_decide.
    + destruct (ext_esrgan ext 2 res); [|discriminate]. now injection Hctrl as <-.
    + now injection Hctrl as <-.
Qed.

Lemma conditioning_calls_super_res (resolution : string) (img : Image) :
  Forall (fun ev => is_super_res ev = true) (conditioning_calls ext resolution img).
Proof.
  unfold conditioning_calls. case_bool_decide; [|constructor].
  destruct (new_size _ _) as [e|[w h]]; [constructor|].
  destruct (resized ext img w h); repeat constructor.
Qed.

(** Lines 68-80 for an image whose conditioning image can be made. *)
Lemma conditioning_run (resolution : string) (img ctrl : Image) (li : nat)
    (s : state) :
  st_heap s !! li = Some img ->
  conditioning_image ext resolution img = inr ctrl ->
  exists ci s',
    resize_for_condition_image ext li resolution s =
      (inr ci, s', conditioning_calls ext resolution img) /\
    preserves s s' /\ st_heap s' !! ci = Some ctrl.
Proof.
  intros Hli Hc. unfold conditioning_calls.
  destruct (conditioning_image_inv _ _ _ Hc)
    as [[-> ->] | (Hno & nw & nh & res & Hnew & Hw & Hh & Hrsz & Hup)].
  - destruct (resize_original_run li img s Hli) as (ci & s' & Hrun & P & Hci).
    exists ci, s'. rewrite bool_decide_false by discriminate. auto.
  - destruct (resize_spec li img res resolution s nw nh Hli Hno Hnew Hw Hh Hrsz)
      as (s' & P & Hrun).
    rewrite Hup in Hrun. destruct Hrun as (ci & Hrun & Hci).
    exists ci, s'. rewrite Hnew, Hrsz. split; [|auto].
    rewrite Hrun. now case_bool_decide.
Qed.

(** C1 (amended).  For an image whose sides are at least 1 and a tier
    among "1024" and "2048", the two lengths
    [int(round(dim * (1024 / min(width, height)) / 64)) * 64], computed in
    binary64, are positive multiples of 64.  If one of them does not fit a C
    [int], line 76 raises [OverflowError]; if Pillow cannot make an image of
    that size, it raises [MemoryError].  Otherwise the resized image has
    exactly that width and height, and [resize_for_condition_image] returns
    it for "1024"; for "2048" it hands it to the 2x super-resolution model
    and returns what the model returns, whose size is the model's, or raises
    what the model raises. *)
Theorem resize_for_condition_image_size
    (input : nat) (img : Image) (resolution : string) (s : state) :
  st_heap s !! input = Some img ->
  valid_side (im_width img) -> valid_side (im_height img) ->
  resolution = "1024" \/ resolution = "2048" ->
  let run := resize_for_condition_image ext input resolution s in
  exists sf new_width new_height,
    scale_factor_of (im_width img) (im_height img) = inr sf /\
    round_to_64 (im_width img) sf = inr new_width /\
    round_to_64 (im_height img) sf = inr new_height /\
    0 < new_width /\ (64 | new_width) /\ 0 < new_height /\ (64 | new_height) /\
    (2 ^ 31 <= new_width \/ 2 ^ 31 <= new_height ->
     outcome run = inl OverflowError) /\
    (new_width < 2 ^ 31 -> new_height < 2 ^ 31 ->
     resized ext img new_width new_height = None ->
     outcome run = inl MemoryError) /\
    (forall res,
       new_width < 2 ^ 31 -> new_height < 2 ^ 31 ->
       resized ext img new_width new_height = Some res ->
       im_size res = (new_width, new_height) /\
       match (if bool_decide (resolution = "2048") then ext_esrgan ext 2 res
              else Some res) with
       | Some returned =>
           exists out,
             outcome run = inr out /\
             st_heap (final run) !! out = Some returned
       | None => outcome run = inl (ModelError "RealESRGAN")
       end).
Proof.
  intros Hin Hw Hh Hres run.
  destruct (new_sides _ _ Hw Hh) as (sf & nw & nh & Hsf & Hnh & Hnw & Hw1 & Hh1).
  assert (Hno : resolution <> "original")
    by (destruct Hres as [-> | ->]; discriminate).
  assert (Hnew : new_size (im_width img) (im_height img) = inr (nw * 64, nh * 64))
    by (unfold new_size; now rewrite Hsf, Hnh, Hnw).
  exists sf, (nw * 64), (nh * 64).
  split; [exact Hsf|]. split; [exact Hnw|]. split; [exact Hnh|].
  split; [lia|]. split; [now exists nw|]. split; [lia|]. split; [now exists nh|].
  pose proof (c_int_spec (nw * 64) ltac:(lia)) as Cw.
  pose proof (c_int_spec (nh * 64) ltac:(lia)) as Ch.
  assert (Hgood : forall res,
            nw * 64 < 2 ^ 31 -> nh * 64 < 2 ^ 31 ->
            resized ext img (nw * 64) (nh * 64) = Some res ->
            match (if bool_decide (resolution = "2048") then ext_esrgan ext 2 res
                   else Some res) with
            | Some returned =>
                exists out,
                  outcome run = inr out /\
                  st_heap (final run) !! out = Some returned
            | None => outcome run = inl (ModelError "RealESRGAN")
            end).
  { intros res Hlw Hlh Hrsz.
    destruct (resize_spec input img res resolution s _ _ Hin Hno Hnew
                ltac:(lia) ltac:(lia) Hrsz) as (s' & _ & Hrun).
    destruct (if bool_decide (resolution = "2048") then ext_esrgan ext 2 res
              else Some res) as [returned|].
    - destruct Hrun as (out & Hrun & Hout). exists out. unfold run. now rewrite Hrun.
    - unfold run. now rewrite Hrun. }
  destruct (resize_refused input img resolution s (nw * 64) (nh * 64) Hin Hno Hnew)
    as (s' & [[_ Hrun] | [Hc Hsome]]); try lia.
  - split; [|split].
    + intros Hbig. unfold run. rewrite Hrun. unfold outcome. simpl.
      destruct (c_int (nw * 64) && c_int (nh * 64)) eqn:Hc; [|reflexivity].
      apply andb_true_iff in Hc as [Hcw Hch]. apply Cw in Hcw. apply Ch in Hch. lia.
    + intros Hlw Hlh _. unfold run. rewrite Hrun. unfold outcome. simpl.
      rewrite (proj2 Cw Hlw), (proj2 Ch Hlh). reflexivity.
    + intros res Hlw Hlh Hrsz. exfalso.
      rewrite (proj2 Cw Hlw), (proj2 Ch Hlh) in Hrun. simpl in Hrun.
      specialize (Hgood res Hlw Hlh Hrsz). unfold run in Hgood.
      rewrite Hrun in Hgood.
      destruct (if bool_decide (resolution = "2048") then ext_esrgan ext 2 res
                else Some res); [now destruct Hgood as (? & ? & _) | discriminate].
  - apply andb_true_iff in Hc as [Hcw Hch]. apply Cw in Hcw. apply Ch in Hch.
    destruct Hsome as [res Hrsz]. split; [lia|]. split; [congruence|].
    intros res' Hlw Hlh Hrsz'.
    split; [exact (proj2 (resized_size _ _ _ _ Hrsz'))|]. now apply Hgood.
Qed.

(** C5.  With the tier "original" the function returns a new image object
    whose mode, size and pixels are those of the input; the input object and
    every other part of the state are as before, and no model is called. *)
Theorem resize_for_condition_image_original
    (input : nat) (img : Image) (s : state) :
  st_heap s !! input = Some img ->
  exists out,
    resize_for_condition_image ext input "original" s =
      (inr out, set_heap (<[out := img]> (st_heap s)) s, []) /\
    out <> input /\
    st_heap (final (resize_for_condition_image ext input "original" s)) !! out
      = Some img /\
    st_heap (final (resize_for_condition_image ext input "original" s)) !! input
      = Some img.
Proof.
  intros Hin. unfold resize_for_condition_image.
  rewrite bool_decide_true by reflexivity.
  destruct (pil_copy_spec input img s Hin) as (out & s' & Hrun & Hp & Hnone & Hout & ->).
  exists out. rewrite Hrun. simpl.
  assert (Hne : out <> input) by congruence.
  split; [reflexivity|]. split; [exact Hne|]. split.
  - apply lookup_insert_eq.
  - rewrite lookup_insert_ne by exact Hne. exact Hin.
Qed.

End Resize.

(* ================================================================== *)
(** * Running [predict] up to the mask check *)
(* ================================================================== *)

Section Bind.

Context {A B : Type}.

Lemma bind_ok_eq (m : M A) (f : A -> M B) (s s1 s2 : state) (x : A)
    (r : exn + B) (ev1 ev2 : list event) :
  m s = (inr x, s1, ev1) -> f x s1 = (r, s2, ev2) ->
  bind m f s = (r, s2, ev1 ++ ev2).
Proof. intros H1 H2. rewrite (bind_ok _ _ _ _ _ _ H1), H2. reflexivity. Qed.

Lemma bind_ok_ex (m : M A) (f : A -> M B) (s s1 : state) (x : A)
    (r : exn + B) (ev1 ev2 : list event) :
  m s = (inr x, s1, ev1) -> (exists s2, f x s1 = (r, s2, ev2)) ->
  exists s2, bind m f s = (r, s2, ev1 ++ ev2).
Proof. intros H1 [s2 H2]. exists s2. eapply bind_ok_eq; eassumption. Qed.

Lemma bind_fail_ex (m : M A) (f : A -> M B) (s : state) (e : exn) (ev1 : list event) :
  (exists s1, m s = (inl e, s1, ev1)) -> exists s1, bind m f s = (inl e, s1, ev1).
Proof. intros [s1 H]. exists s1. now apply bind_fail. Qed.

End Bind.

Lemma byte_range (b : Byte.byte) : 0 <= Z.of_N (Byte.to_N b) <= 255.
Proof. pose proof (Byte.to_N_bounded b). lia. Qed.

Lemma int_from_two_bytes (b0 b1 : Byte.byte) :
  int_from_bytes_big [b0; b1] = Z.of_N (Byte.to_N b0) * 256 + Z.of_N (Byte.to_N b1).
Proof. unfold int_from_bytes_big. simpl. lia. Qed.

(** The seed a request runs with is one [manual_seed] takes: a derived seed
    always, a given one if it fits 64 bits. *)
Lemma seed_of_in_range (r : request) (s : state) :
  seed_ok r -> seed_in_range (seed_of r s) = true.
Proof.
  unfold seed_ok, seed_of, seed_in_range. intros Hok.
  apply andb_true_intro. rewrite Z.leb_le, Z.ltb_lt.
  destruct (seed r) as [z|].
  - now apply Hok.
  - rewrite int_from_two_bytes.
    pose proof (byte_range (st_entropy s (st_consumed s))).
    pose proof (byte_range (st_entropy s (S (st_consumed s)))). lia.
Qed.

Lemma manual_seed_run (r : request) (s s1 : state) :
  seed_ok r ->
  manual_seed (seed_of r s) s1 = (inr (LGenerator (seed_of r s)), s1, []).
Proof.
  intros Hok. unfold manual_seed. now rewrite (seed_of_in_range r s Hok).
Qed.

Section Prepare.

Variable ext : externals.

Lemma copyfile_run (p : string) (f : file) (s : state) :
  st_fs s !! p = Some f -> p <> "/tmp/image.png" ->
  copyfile p "/tmp/image.png" s =
    (inr tt, set_fs (<["/tmp/image.png" := f]> (st_fs s)) s, []).
Proof.
  intros Hf Hp. unfold copyfile. rewrite Hf. now rewrite bool_decide_false by exact Hp.
Qed.

Lemma load_image_spec (p : string) (f : Image) (s : state) :
  st_fs s !! p = Some (ImageFile f) -> p <> "/tmp/image.png" ->
  exists out s',
    load_image ext (Some p) s = (inr out, s', []) /\ preserves s s' /\
    st_heap s' !! out = Some (loaded_as ext f).
Proof.
  intros Hf Hp. unfold load_image, loaded_as.
  pose proof (copyfile_run p _ s Hf Hp) as Hcopy.
  rewrite (bind_pure _ _ _ _ _ Hcopy).
  set (s1 := set_fs _ s).
  assert (P1 : preserves s s1).
  { split; [reflexivity|]. intros q Hq. simpl. now rewrite lookup_insert_ne. }
  assert (Hread : read_image "/tmp/image.png" s1 = (inr f, s1, [])).
  { unfold read_image. simpl. now rewrite lookup_insert_eq. }
  rewrite (bind_pure _ _ _ _ _ Hread).
  destruct (alloc_spec (convert_image ext "RGB" f) s1) as (o & s2 & Ho & P2 & _ & Ho2 & _).
  rewrite (bind_pure _ _ _ _ _ Ho).
  destruct (pil_convert_spec ext o "RGB" _ s2 Ho2) as (out & s3 & Hout & P3 & _ & Hout3).
  exists out, s3. split; [exact Hout|]. split; [|exact Hout3].
  eauto using preserves_trans.
Qed.

(** Line 192 on an image OpenCV takes. *)
Lemma create_hdr_effect_run (ref : nat) (img : Image) (cv : ndarray)
    (h : spec_float) (s : state) :
  st_heap s !! ref = Some img -> pil_to_cv img = inr cv ->
  create_hdr_effect ext ref h s = alloc (hdr_image ext cv h) s.
Proof.
  intros H Hcv. unfold create_hdr_effect.
  rewrite (bind_pure _ _ _ _ _ (deref_run _ _ _ H)).
  rewrite Hcv, (bind_pure _ _ _ _ _ (lift_inr _ _)). reflexivity.
Qed.

Lemma create_hdr_effect_spec (ref : nat) (img : Image) (cv : ndarray)
    (h : spec_float) (s : state) :
  st_heap s !! ref = Some img -> pil_to_cv img = inr cv ->
  exists out s',
    create_hdr_effect ext ref h s = (inr out, s', []) /\ preserves s s' /\
    st_heap s' !! out = Some (hdr_image ext cv h).
Proof.
  intros H Hcv. rewrite (create_hdr_effect_run _ _ _ _ _ H Hcv).
  destruct (alloc_spec (hdr_image ext cv h) s) as (out & s' & Ha & P & _ & Ho & _).
  exists out, s'. auto.
Qed.

Lemma resolve_seed_spec (r : request) (s : state) :
  exists s', resolve_seed (seed r) s = (inr (seed_of r s), s', []) /\ preserves s s' /\
             st_consumed s' = match seed r with
                              | None => (st_consumed s + 2)%nat
                              | Some _ => st_consumed s
                              end.
Proof.
  unfold resolve_seed, seed_of. destruct (seed r) as [z|].
  - exists s. split; [reflexivity|]. split; [apply preserves_refl | reflexivity].
  - exists (set_consumed (st_consumed s + 2) s).
    split; [reflexivity|]. split; [|reflexivity].
    split; [reflexivity | auto].
Qed.

(** A request with a mask that either asks for a resize or has a mask of
    another size than the image, when lines 189-192 and 210 go through: what
    [predict] does. *)
Lemma predict_rejects_mask (r : request) (s : state) (p m : string)
    (img msk ctrl : Image) (cv : ndarray) :
  image r = Some p -> mask r = Some m ->
  p <> "/tmp/image.png" -> m <> "/tmp/image.png" ->
  st_fs s !! p = Some (ImageFile img) -> st_fs s !! m = Some (ImageFile msk) ->
  seed_ok r ->
  conditioning_image ext (resolution r) (loaded_as ext img) = inr ctrl ->
  pil_to_cv ctrl = inr cv ->
  resolution r <> "original" \/ im_size msk <> im_size img ->
  exists s',
    predict ext r s =
      (inl (Exception (mask_rejection r)), s',
       EvPrint ("Using seed: " +:+ pretty (seed_of r s)) ::
       conditioning_calls ext (resolution r) (loaded_as ext img)).
Proof.
  intros Hp Hm Hpt Hmt Hfp Hfm Hseedok Hctrl Hcv Hcase.
  unfold predict.
  rewrite (bind_pure _ _ s (set_frame ∅ s) tt eq_refl).
  pose proof (preserves_set_frame s ∅) as P0. set (s0 := set_frame ∅ s) in *.
  destruct (resolve_seed_spec r s0) as (s1 & Hseed & P1 & _).
  change (seed_of r s0) with (seed_of r s) in Hseed.
  rewrite (bind_pure _ _ _ _ _ Hseed).
  match goal with |- exists _, _ = (_, _, ?e :: ?rest) =>
    change (e :: rest) with ([e] ++ rest) end.
  eapply bind_ok_ex; [reflexivity|].
  rewrite (bind_pure _ _ _ _ _ (manual_seed_run r s s1 Hseedok)).
  rewrite (bind_pure _ _ _ _ _ (assign_run _ _ _)).
  pose proof (preserves_set_frame s1 (<["generator" := LGenerator (seed_of r s)]> (st_frame s1))) as P2.
  set (s2 := set_frame _ s1) in *.
  assert (Q2 : preserves s s2) by eauto using preserves_trans.
  rewrite Hp.
  destruct (load_image_spec p img s2 (preserves_file _ _ _ _ Q2 Hpt Hfp) Hpt)
    as (li & s3 & Hli & P3 & Hli3).
  rewrite (bind_pure _ _ _ _ _ Hli).
  rewrite (bind_pure _ _ _ _ _ (assign_run _ _ _)).
  pose proof (preserves_set_frame s3 (<["loaded_image" := LImage li]> (st_frame s3))) as P4.
  set (s4 := set_frame _ s3) in *.
  assert (Q4 : preserves s s4) by eauto using preserves_trans.
  set (loaded := loaded_as ext img) in *.
  assert (Hl4 : st_heap s4 !! li = Some loaded) by exact Hli3.
  assert (Hsize : im_size loaded = im_size img)
    by (unfold loaded, loaded_as; now rewrite !convert_image_size).
  destruct (conditioning_run ext (resolution r) loaded ctrl li s4 Hl4 Hctrl)
    as (ci & s5 & Hci & P5 & Hci5).
  match goal with |- exists _, _ = (_, _, ?evs) => rewrite <- (app_nil_r evs) end.
  eapply bind_ok_ex; [exact Hci|].
  rewrite (bind_pure _ _ _ _ _ (assign_run _ _ _)).
  pose proof (preserves_set_frame s5 (<["control_image" := LImage ci]> (st_frame s5))) as P6.
  set (s6 := set_frame _ s5) in *.
  destruct (create_hdr_effect_spec ci ctrl cv (hdr r) s6 Hci5 Hcv)
    as (fi & s7 & Hfi & P7 & _).
  rewrite (bind_pure _ _ _ _ _ Hfi).
  rewrite (bind_pure _ _ _ _ _ (assign_run _ _ _)).
  pose proof (preserves_set_frame s7 (<["final_image" := LImage fi]> (st_frame s7))) as P8.
  set (s8 := set_frame _ s7) in *.
  assert (Q8 : preserves s s8) by eauto 10 using preserves_trans.
  assert (R8 : preserves s4 s8) by eauto 10 using preserves_trans.
  cbv zeta.
  (* the mask *)
  unfold select_pipe. rewrite Hm.
  destruct (load_image_spec m msk s8 (preserves_file _ _ _ _ Q8 Hmt Hfm) Hmt)
    as (mi & s9 & Hmi & P9 & Hmi9).
  apply bind_fail_ex.
  rewrite (bind_pure _ _ _ _ _ Hmi).
  rewrite (bind_pure _ _ _ _ _ (assign_run _ _ _)).
  pose proof (preserves_set_frame s9 (<["mask_image" := LImage mi]> (st_frame s9))) as P10.
  set (s10 := set_frame _ s9) in *.
  unfold mask_rejection.
  destruct (decide (resolution r = "original")) as [Hres|Hres];
    [rewrite !(bool_decide_eq_true_2 _ Hres) | rewrite !(bool_decide_eq_false_2 _ Hres)];
    change (negb true) with false; change (negb false) with true; cbv iota.
  - destruct Hcase as [Hc|Hc]; [contradiction|].
    rewrite (bind_pure _ _ _ _ _ (deref_run mi _ s10 Hmi9)).
    assert (Hl10 : st_heap s10 !! li = Some loaded)
      by (eapply preserves_lookup; [|exact Hl4]; eauto using preserves_trans).
    rewrite (bind_pure _ _ _ _ _ (deref_run li _ s10 Hl10)).
    assert (Hmsz : im_size (loaded_as ext msk) = im_size msk)
      by (unfold loaded_as; now rewrite !convert_image_size).
    rewrite Hmsz, Hsize.
    rewrite bool_decide_false by exact Hc. eexists; reflexivity.
  - eexists; reflexivity.
Qed.

End Prepare.

(* ================================================================== *)
(** * Where the device cache is emptied *)
(* ================================================================== *)

Create HintDb quiet.

Lemma never_empties_bind {A B} (m : M A) (f : A -> M B) :
  never_empties m -> (forall x, never_empties (f x)) -> never_empties (bind m f).
Proof.
  intros Hm Hf s. specialize (Hm s). unfold bind.
  destruct (m s) as [[[e|x] s1] ev1]; simpl in *; [exact Hm|].
  specialize (Hf x s1). destruct (f x s1) as [[r s2] ev2]; simpl in *.
  rewrite elem_of_app. tauto.
Qed.

Lemma never_empties_ret {A} (x : A) : never_empties (ret x).
Proof. intros s. apply not_elem_of_nil. Qed.

Lemma never_empties_raise {A} (e : exn) : never_empties (@raise A e).
Proof. intros s. apply not_elem_of_nil. Qed.

Lemma never_empties_lift {A} (x : exn + A) : never_empties (lift x).
Proof. destruct x; [apply never_empties_raise | apply never_empties_ret]. Qed.

Lemma never_empties_emit (ev : event) : ev <> EvEmptyCache -> never_empties (emit ev).
Proof. intros H s. simpl. rewrite list_elem_of_singleton. congruence. Qed.

Lemma never_empties_silent {A} (m : M A) :
  (forall s, events (m s) = []) -> never_empties m.
Proof. intros H s. rewrite H. apply not_elem_of_nil. Qed.

Lemma never_empties_get : never_empties get.
Proof. now apply never_empties_silent. Qed.

Lemma never_empties_put (s : state) : never_empties (put s).
Proof. now apply never_empties_silent. Qed.

Lemma never_empties_alloc (img : Image) : never_empties (alloc img).
Proof. now apply never_empties_silent. Qed.

Lemma never_empties_deref (ref : nat) : never_empties (deref ref).
Proof. apply never_empties_silent. intros s. unfold deref. now destruct (_ !! _). Qed.

Lemma never_empties_assign (name : string) (v : local) : never_empties (assign name v).
Proof. now apply never_empties_silent. Qed.

Lemma never_empties_del (name : string) : never_empties (del name).
Proof. apply never_empties_silent. intros s. unfold del. now destruct (_ !! _). Qed.

Lemma never_empties_copyfile (src dst : string) : never_empties (copyfile src dst).
Proof.
  apply never_empties_silent. intros s. unfold copyfile.
  destruct (_ !! _); [|reflexivity]. now case_bool_decide.
Qed.

Lemma never_empties_read_image (path : string) : never_empties (read_image path).
Proof.
  apply never_empties_silent. intros s. unfold read_image.
  now destruct (_ !! _) as [[]|].
Qed.

Lemma never_empties_manual_seed (seed : Z) : never_empties (manual_seed seed).
Proof.
  apply never_empties_silent. intros s. unfold manual_seed.
  now destruct (seed_in_range seed).
Qed.

Lemma never_empties_urandom (n : nat) : never_empties (urandom n).
Proof. now apply never_empties_silent. Qed.

#[local] Hint Resolve never_empties_ret never_empties_raise never_empties_lift
  never_empties_get never_empties_put never_empties_alloc never_empties_deref
  never_empties_assign never_empties_del never_empties_copyfile
  never_empties_read_image never_empties_manual_seed never_empties_urandom : quiet.

(** Splits a sequence of steps into its steps and closes those the hints
    know. *)
Ltac quiet :=
  repeat first
    [ apply never_empties_bind; [|intros ?]
    | apply never_empties_emit; discriminate
    | progress auto with quiet
    | match goal with
      | |- never_empties (if ?b then _ else _) => destruct b
      | |- never_empties (match ?x with _ => _ end) => destruct x
      end ].

Section Quiet.

Variable ext : externals.

Lemma never_empties_save_image (ref : nat) (path : string) :
  never_empties (save_image ref path).
Proof. unfold save_image. quiet; now apply never_empties_silent. Qed.

Lemma never_empties_pil_convert (ref : nat) (mode : string) :
  never_empties (pil_convert ext ref mode).
Proof. unfold pil_convert. quiet. Qed.

Lemma never_empties_load_image (path : option string) :
  never_empties (load_image ext path).
Proof. unfold load_image. quiet; apply never_empties_pil_convert. Qed.

Lemma never_empties_esrgan_predict (model : ESRGAN) (ref : nat) :
  never_empties (esrgan_predict ext model ref).
Proof. unfold esrgan_predict. quiet. Qed.

Lemma never_empties_resize (ref : nat) (resolution : string) :
  never_empties (resize_for_condition_image ext ref resolution).
Proof.
  unfold resize_for_condition_image, pil_copy, pil_resize, esrgan_model.
  quiet; try apply never_empties_pil_convert; try apply never_empties_esrgan_predict.
Qed.

Lemma never_empties_create_hdr_effect (ref : nat) (h : spec_float) :
  never_empties (create_hdr_effect ext ref h).
Proof. unfold create_hdr_effect. quiet. Qed.

Lemma never_empties_resolve_seed (seed : option Z) : never_empties (resolve_seed seed).
Proof. unfold resolve_seed. quiet. Qed.

Lemma never_empties_select_pipe (r : request) (loaded : nat) (args : gmap string value) :
  never_empties (select_pipe ext r loaded args).
Proof. unfold select_pipe. quiet; apply never_empties_load_image. Qed.

Lemma never_empties_alloc_all (imgs : list Image) : never_empties (alloc_all imgs).
Proof. induction imgs as [|img rest IH]; simpl; quiet. Qed.

Lemma never_empties_call_pipe (pipe : pipe_kind) (args : gmap string value) :
  never_empties (call_pipe ext pipe args).
Proof. unfold call_pipe. quiet; apply never_empties_alloc_all. Qed.

Lemma never_empties_save_outputs (samples : list nat) :
  forall i, never_empties (save_outputs i samples).
Proof.
  induction samples as [|sample rest IH]; intros i; simpl; quiet;
    first [apply never_empties_save_image | apply IH].
Qed.

Lemma never_empties_pipe_setup (pipe : pipe_kind) (name : string) :
  never_empties (clear_safety_checker pipe) /\
  never_empties (replace_scheduler pipe name) /\
  never_empties (enable_xformers_memory_efficient_attention pipe).
Proof.
  unfold clear_safety_checker, replace_scheduler,
    enable_xformers_memory_efficient_attention.
  repeat split; quiet.
Qed.

(** A quiet step in front of a run that cleans up on return. *)
Lemma cleans_up_bind {A B} (r : request) (m : M A) (f : A -> M B) (s : state) :
  never_empties m ->
  (forall x s1, cleans_up_on_return r (f x s1)) ->
  cleans_up_on_return r (bind m f s).
Proof.
  intros Hm Hf. specialize (Hm s). unfold bind.
  destruct (m s) as [[[e|x] s1] ev1]; simpl in Hm; [exact Hm|].
  specialize (Hf x s1). unfold cleans_up_on_return in *.
  destruct (f x s1) as [[[e|y] s2] ev2]; simpl in *.
  - rewrite elem_of_app. tauto.
  - destruct Hf as (Hrel & before & -> & Hb). split; [exact Hrel|].
    exists (ev1 ++ before). split; [now rewrite app_assoc|].
    rewrite elem_of_app. tauto.
Qed.

Lemma released_after_cleanup (r : request) (frame : gmap string local) :
  released r
    (match mask r with
     | Some _ => delete "mask_image"
     | None => fun fr => fr
     end (delete "outputs" (delete "loaded_image" (delete "control_image"
            (delete "final_image" (delete "generator" frame)))))).
Proof.
  unfold released. destruct (mask r); repeat split; intros;
    try congruence; now simplify_map_eq.
Qed.

Lemma cleanup_cleans_up {A} (r : request) (x : A) (s : state) :
  cleans_up_on_return r (bind (cleanup r) (fun _ => ret x) s).
Proof.
  pose proof (released_after_cleanup r (st_frame s)) as Hrel.
  unfold cleans_up_on_return, cleanup, bind, del, emit, ret.
  repeat (match goal with
          | |- context [match ?fr !! ?k with _ => _ end] =>
              destruct (fr !! k) eqn:?; simpl
          end; try apply not_elem_of_nil).
  destruct (mask r); simpl.
  - repeat (match goal with
            | |- context [match ?fr !! ?k with _ => _ end] =>
                destruct (fr !! k) eqn:?; simpl
            end; try apply not_elem_of_nil).
    split; [exact Hrel|]. exists []. split; [reflexivity | apply not_elem_of_nil].
  - split; [exact Hrel|]. exists []. split; [reflexivity | apply not_elem_of_nil].
Qed.

(** C4 (amended).  When [predict] returns, the names [generator],
    [final_image], [control_image], [loaded_image], [outputs] (and
    [mask_image] if a mask was given) have been deleted and the device cache
    has been emptied, once, as the last effect of the call.  When [predict]
    raises, the cache has not been emptied: the cleanup of lines 227-235 runs
    on the returning path only. *)
Theorem predict_cleans_up_on_return (r : request) (s : state) :
  match outcome (predict ext r s) with
  | inr _ =>
      released r (st_frame (final (predict ext r s))) /\
      exists before,
        events (predict ext r s) = before ++ [EvEmptyCache] /\
        EvEmptyCache ∉ before
  | inl _ => EvEmptyCache ∉ events (predict ext r s)
  end.
Proof.
  change (cleans_up_on_return r (predict ext r s)).
  unfold predict.
  pose proof never_empties_pipe_setup as Hsetup.
  repeat (cbv zeta; apply cleans_up_bind;
          [ first [ apply never_empties_resolve_seed
                  | apply never_empties_manual_seed
                  | apply never_empties_load_image
                  | apply never_empties_resize
                  | apply never_empties_create_hdr_effect
                  | apply never_empties_select_pipe
                  | apply never_empties_call_pipe
                  | apply never_empties_save_outputs
                  | apply (proj1 (Hsetup _ "DDIM"))
                  | apply (proj1 (proj2 (Hsetup _ _)))
                  | apply (proj2 (proj2 (Hsetup _ "DDIM")))
                  | apply never_empties_emit; discriminate
                  | now apply never_empties_silent
                  | solve [auto with quiet] ]
          | intros ? ? ]).
  apply cleanup_cleans_up.
Qed.

End Quiet.

(* ================================================================== *)
(** * Where entropy is drawn *)
(* ================================================================== *)

Create HintDb steady.

Lemma keeps_entropy_bind {A B} (m : M A) (f : A -> M B) :
  keeps_entropy m -> (forall x, keeps_entropy (f x)) -> keeps_entropy (bind m f).
Proof.
  intros Hm Hf s. specialize (Hm s). unfold bind.
  destruct (m s) as [[[e|x] s1] ev1]; [exact Hm|].
  specialize (Hf x s1). destruct (f x s1) as [[r s2] ev2].
  unfold final in *. simpl in *.
  destruct Hm as [Hm1 Hm2], Hf as [Hf1 Hf2]. split; congruence.
Qed.

(** Closes the goal for a step written as a function of the state. *)
Ltac steady_step :=
  intros ?; repeat first [case_bool_decide | case_match]; simpl; split; reflexivity.

Lemma keeps_entropy_ret {A} (x : A) : keeps_entropy (ret x).
Proof. steady_step. Qed.

Lemma keeps_entropy_raise {A} (e : exn) : keeps_entropy (@raise A e).
Proof. steady_step. Qed.

Lemma keeps_entropy_lift {A} (x : exn + A) : keeps_entropy (lift x).
Proof. destruct x; steady_step. Qed.

Lemma keeps_entropy_emit (ev : event) : keeps_entropy (emit ev).
Proof. steady_step. Qed.

Lemma keeps_entropy_get : keeps_entropy get.
Proof. steady_step. Qed.

Lemma keeps_entropy_alloc (img : Image) : keeps_entropy (alloc img).
Proof. steady_step. Qed.

Lemma keeps_entropy_deref (ref : nat) : keeps_entropy (deref ref).
Proof. unfold deref. steady_step. Qed.

Lemma keeps_entropy_assign (name : string) (v : local) : keeps_entropy (assign name v).
Proof. steady_step. Qed.

Lemma keeps_entropy_del (name : string) : keeps_entropy (del name).
Proof. unfold del. steady_step. Qed.

Lemma keeps_entropy_copyfile (src dst : string) : keeps_entropy (copyfile src dst).
Proof. unfold copyfile. steady_step. Qed.

Lemma keeps_entropy_read_image (path : string) : keeps_entropy (read_image path).
Proof. unfold read_image. steady_step. Qed.

Lemma keeps_entropy_manual_seed (seed : Z) : keeps_entropy (manual_seed seed).
Proof. unfold manual_seed. steady_step. Qed.

#[local] Hint Resolve keeps_entropy_ret keeps_entropy_raise keeps_entropy_lift
  keeps_entropy_emit keeps_entropy_get keeps_entropy_alloc keeps_entropy_deref
  keeps_entropy_assign keeps_entropy_del keeps_entropy_copyfile
  keeps_entropy_read_image keeps_entropy_manual_seed : steady.

Ltac steady :=
  repeat first
    [ apply keeps_entropy_bind; [|intros ?]
    | progress auto with steady
    | match goal with
      | |- keeps_entropy (if ?b then _ else _) => destruct b
      | |- keeps_entropy (match ?x with _ => _ end) => destruct x
      end ].

Section Steady.

Variable ext : externals.

Lemma keeps_entropy_save_image (ref : nat) (path : string) :
  keeps_entropy (save_image ref path).
Proof. unfold save_image. steady; steady_step. Qed.

Lemma keeps_entropy_pil_convert (ref : nat) (mode : string) :
  keeps_entropy (pil_convert ext ref mode).
Proof. unfold pil_convert. steady. Qed.

Lemma keeps_entropy_load_image (path : option string) :
  keeps_entropy (load_image ext path).
Proof. unfold load_image. steady; apply keeps_entropy_pil_convert. Qed.

Lemma keeps_entropy_esrgan_predict (model : ESRGAN) (ref : nat) :
  keeps_entropy (esrgan_predict ext model ref).
Proof. unfold esrgan_predict. steady. Qed.

Lemma keeps_entropy_resize (ref : nat) (resolution : string) :
  keeps_entropy (resize_for_condition_image ext ref resolution).
Proof.
  unfold resize_for_condition_image, pil_copy, pil_resize, esrgan_model.
  steady; try apply keeps_entropy_pil_convert; try apply keeps_entropy_esrgan_predict.
Qed.

Lemma keeps_entropy_create_hdr_effect (ref : nat) (h : spec_float) :
  keeps_entropy (create_hdr_effect ext ref h).
Proof. unfold create_hdr_effect. steady. Qed.

Lemma keeps_entropy_select_pipe (r : request) (loaded : nat) (args : gmap string value) :
  keeps_entropy (select_pipe ext r loaded args).
Proof. unfold select_pipe. steady; apply keeps_entropy_load_image. Qed.

Lemma keeps_entropy_alloc_all (imgs : list Image) : keeps_entropy (alloc_all imgs).
Proof. induction imgs as [|img rest IH]; simpl; steady. Qed.

Lemma keeps_entropy_call_pipe (pipe : pipe_kind) (args : gmap string value) :
  keeps_entropy (call_pipe ext pipe args).
Proof. unfold call_pipe. steady; apply keeps_entropy_alloc_all. Qed.

Lemma keeps_entropy_save_outputs (samples : list nat) :
  forall i, keeps_entropy (save_outputs i samples).
Proof.
  induction samples as [|sample rest IH]; intros i; simpl; steady;
    first [apply keeps_entropy_save_image | apply IH].
Qed.

Lemma keeps_entropy_pipe_setup (pipe : pipe_kind) (name : string) :
  keeps_entropy (clear_safety_checker pipe) /\
  keeps_entropy (replace_scheduler pipe name) /\
  keeps_entropy (enable_xformers_memory_efficient_attention pipe).
Proof.
  unfold clear_safety_checker, replace_scheduler,
    enable_xformers_memory_efficient_attention.
  split; [|split]; intros s; unfold bind, get, put;
    try destruct (SCHEDULERS !! name); destruct pipe; split; reflexivity.
Qed.

Lemma keeps_entropy_cleanup (r : request) : keeps_entropy (cleanup r).
Proof. unfold cleanup. steady. Qed.

(** All of [predict] after line 186 draws nothing. *)
Lemma predict_draws_only_the_seed (r : request) (s : state) :
  st_consumed (final (predict ext r s)) =
    match seed r with
    | None => (st_consumed s + 2)%nat
    | Some _ => st_consumed s
    end.
Proof.
  unfold predict.
  rewrite (bind_pure _ _ s (set_frame ∅ s) tt eq_refl).
  destruct (resolve_seed_spec r (set_frame ∅ s)) as (s1 & Hrun & _ & Hc).
  rewrite (bind_pure _ _ _ _ _ Hrun).
  change (st_consumed (set_frame ∅ s)) with (st_consumed s) in Hc.
  rewrite <- Hc.
  pose proof keeps_entropy_pipe_setup as Hsetup.
  match goal with |- st_consumed (final (?m s1)) = _ =>
    assert (Hk : keeps_entropy m); [|exact (proj1 (Hk s1))] end.
  repeat (cbv zeta; apply keeps_entropy_bind;
          [ first [ apply keeps_entropy_load_image
                  | apply keeps_entropy_resize
                  | apply keeps_entropy_create_hdr_effect
                  | apply keeps_entropy_select_pipe
                  | apply keeps_entropy_call_pipe
                  | apply keeps_entropy_save_outputs
                  | apply keeps_entropy_cleanup
                  | apply (proj1 (Hsetup _ "DDIM"))
                  | apply (proj1 (proj2 (Hsetup _ _)))
                  | apply (proj2 (proj2 (Hsetup _ "DDIM")))
                  | solve [auto with steady] ]
          | intros ? ]).
  auto with steady.
Qed.

End Steady.

(* ================================================================== *)
(** * Requests with a mask *)
(* ================================================================== *)

Section Mask.

Variable ext : externals.

(** C2 (amended).  Take a request whose mask file holds an image of another
    size than the image file, and whose run gets as far as the mask (line
    210): both files can be read as images, the seed is one [manual_seed]
    takes, the conditioning image [ctrl] can be made (lines 68-80) and OpenCV
    takes it (line 107).  It is rejected by one of the two
    [raise Exception(...)] of lines 213 and 215, the one about sizes when the
    resolution is "original" and the one about upscaling otherwise, and no
    diffusion pipeline has been called when it is. *)
Theorem predict_mask_size_mismatch (r : request) (s : state) (p m : string)
    (img msk ctrl : Image) (cv : ndarray) :
  image r = Some p -> mask r = Some m ->
  p <> "/tmp/image.png" -> m <> "/tmp/image.png" ->
  st_fs s !! p = Some (ImageFile img) -> st_fs s !! m = Some (ImageFile msk) ->
  seed_ok r ->
  conditioning_image ext (resolution r) (loaded_as ext img) = inr ctrl ->
  pil_to_cv ctrl = inr cv ->
  im_size msk <> im_size img ->
  outcome (predict ext r s) = inl (Exception (mask_rejection r)) /\
  Forall (fun ev => is_inference ev = false) (events (predict ext r s)).
Proof.
  intros Hp Hm Hpt Hmt Hfp Hfm Hseed Hctrl Hcv Hsize.
  destruct (predict_rejects_mask ext r s p m img msk ctrl cv) as (s' & Hrun);
    auto.
  rewrite Hrun. split; [reflexivity|]. simpl.
  constructor; [reflexivity|].
  eapply Forall_impl; [apply conditioning_calls_super_res|].
  intros [] Hev; simpl in *; congruence.
Qed.

(** C3 (amended).  A request with a mask and a resolution other than
    "original", whose run gets as far as line 212 (both files can be read as
    images, the seed is one [manual_seed] takes, the conditioning image can
    be made and OpenCV takes it), is rejected with "Can't upscale and inpaint
    at the same time", and no diffusion pipeline is called.  The conditioning
    image has been built by then: for "2048" the 2x super-resolution model
    has run once, on the resized image; for any other resolution no model has
    run. *)
Theorem predict_mask_with_upscale (r : request) (s : state) (p m : string)
    (img msk ctrl : Image) (cv : ndarray) :
  image r = Some p -> mask r = Some m ->
  p <> "/tmp/image.png" -> m <> "/tmp/image.png" ->
  st_fs s !! p = Some (ImageFile img) -> st_fs s !! m = Some (ImageFile msk) ->
  seed_ok r ->
  conditioning_image ext (resolution r) (loaded_as ext img) = inr ctrl ->
  pil_to_cv ctrl = inr cv ->
  resolution r <> "original" ->
  outcome (predict ext r s) =
    inl (Exception "Can't upscale and inpaint at the same time") /\
  Forall (fun ev => is_inference ev = false) (events (predict ext r s)) /\
  exists new_width new_height res,
    new_size (im_width img) (im_height img) = inr (new_width, new_height) /\
    resized ext (loaded_as ext img) new_width new_height = Some res /\
    filter (fun ev => is_super_res ev = true) (events (predict ext r s)) =
      if bool_decide (resolution r = "2048") then [EvSuperRes 2 res] else [].
Proof.
  intros Hp Hm Hpt Hmt Hfp Hfm Hseed Hctrl Hcv Hres.
  destruct (predict_rejects_mask ext r s p m img msk ctrl cv) as (s' & Hrun);
    auto.
  rewrite Hrun. unfold mask_rejection. rewrite (bool_decide_eq_false_2 _ Hres).
  split; [reflexivity|]. simpl. split.
  - constructor; [reflexivity|].
    eapply Forall_impl; [apply conditioning_calls_super_res|].
    intros [] Hev; simpl in *; congruence.
  - destruct (conditioning_image_inv ext _ _ _ Hctrl)
      as [[Ho _] | (_ & nw & nh & res & Hnew & _ & _ & Hrsz & _)]; [contradiction|].
    assert (Hsz : im_size (loaded_as ext img) = im_size img)
      by (unfold loaded_as; now rewrite !convert_image_size).
    injection Hsz as Hw Hh. rewrite Hw, Hh in Hnew.
    exists nw, nh, res. split; [exact Hnew|]. split; [exact Hrsz|].
    unfold conditioning_calls. rewrite Hw, Hh, Hnew, Hrsz.
    rewrite filter_cons_False by (simpl; congruence).
    case_bool_decide; reflexivity.
Qed.

End Mask.

(* ================================================================== *)
(** * Brightness factors *)
(* ================================================================== *)

(** C7.  For an intensity above 0 (and at most 1) the function returns the
    nine factors [1 - 0.9 i], [1 - 0.7 i], [1 - 0.45 i], [1 - 0.25 i], [1],
    [1 + 0.2 i], [1 + 0.4 i], [1 + 0.6 i], [1 + 0.8 i], in this order, each
    computed in binary64; for the intensity 0 it returns nine times [1.0]. *)
Theorem calculate_brightness_factors_spec (i : spec_float) :
  (flt (float_of_Z 0) i = true -> SFleb i one = true ->
   calculate_brightness_factors i =
     [ fsub one (fmul (lit 9 10) i);
       fsub one (fmul (lit 7 10) i);
       fsub one (fmul (lit 45 100) i);
       fsub one (fmul (lit 25 100) i);
       one;
       fadd one (fmul (lit 2 10) i);
       fadd one (fmul (lit 4 10) i);
       fadd one (fmul (lit 6 10) i);
       fadd one (fmul (lit 8 10) i) ]) /\
  (i = float_of_Z 0 ->
   calculate_brightness_factors i = [one; one; one; one; one; one; one; one; one]).
Proof.
  split.
  - intros Hpos _. unfold calculate_brightness_factors, fgt.
    unfold flt in Hpos. now rewrite Hpos.
  - intros ->. reflexivity.
Qed.

(* ================================================================== *)
(** * The scheduler registry *)
(* ================================================================== *)

Lemma SCHEDULERS_lookup (name : string) :
  SCHEDULERS !! name =
    if decide ("DDIM" = name) then Some DDIMScheduler
    else if decide ("DPMSolverMultistep" = name) then Some DPMSolverMultistepScheduler
    else if decide ("K_EULER_ANCESTRAL" = name) then Some EulerAncestralDiscreteScheduler
    else if decide ("K_EULER" = name) then Some EulerDiscreteScheduler
    else None.
Proof.
  unfold SCHEDULERS, SCHEDULERS_items. cbn [list_to_map foldr fst snd].
  rewrite !lookup_insert, lookup_empty. reflexivity.
Qed.

(** C8.  [SCHEDULERS] resolves exactly the names DDIM, DPMSolverMultistep,
    K_EULER_ANCESTRAL and K_EULER, to four different classes; the scheduler it
    installs on the selected pipeline is the resolved class built from the
    configuration of the scheduler that pipeline held; and a request naming
    any other scheduler is turned down at the request boundary, before
    [predict] runs. *)
Theorem scheduler_resolution :
  (forall name : string,
     is_Some (SCHEDULERS !! name) <-> name ∈ scheduler_names) /\
  (forall (n1 n2 : string) (cls : scheduler_class),
     SCHEDULERS !! n1 = Some cls -> SCHEDULERS !! n2 = Some cls -> n1 = n2) /\
  (forall (pipe : pipe_kind) (name : string) (cls : scheduler_class) (s : state),
     SCHEDULERS !! name = Some cls ->
     outcome (replace_scheduler pipe name s) = inr tt /\
     pipe_scheduler (get_pipe pipe (final (replace_scheduler pipe name s))) =
       from_config cls (sched_config (pipe_scheduler (get_pipe pipe s)))) /\
  (forall (ext : externals) (r : request) (s : state),
     scheduler r ∉ scheduler_names ->
     exists field,
       handle_request ext r s = (inl (ValidationError field), s, [])).
Proof.
  split; [|split; [|split]].
  - intros name. rewrite SCHEDULERS_lookup. unfold scheduler_names.
    rewrite !elem_of_cons, elem_of_nil.
    repeat case_decide; subst;
      (split; [intros [? Hsome]; first [discriminate | tauto]
              | intros Hin; first [now eexists | exfalso; intuition congruence]]).
  - intros n1 n2 cls. rewrite !SCHEDULERS_lookup.
    repeat case_decide; subst; intros Hc1 Hc2; congruence.
  - intros pipe name cls s Hcls. unfold replace_scheduler. rewrite Hcls.
    destruct pipe; split; reflexivity.
  - intros ext r s Hout. unfold handle_request, validate.
    change SCHEDULERS_keys with scheduler_names.
    rewrite (bool_decide_eq_false_2 _ Hout).
    repeat match goal with
           | |- context [if negb ?b then _ else _] => destruct b; simpl
           end; eexists; reflexivity.
Qed.

(* ================================================================== *)
(** * The seed *)
(* ================================================================== *)

Lemma byte_of_Z (n : Z) : 0 <= n <= 255 -> exists b, Z.of_N (Byte.to_N b) = n.
Proof.
  intros Hn. destruct (Byte.of_N (Z.to_N n)) as [b|] eqn:Hb.
  - exists b. apply Byte.to_of_N in Hb. lia.
  - apply Byte.of_N_None_iff in Hb. lia.
Qed.

(** C10.  Without a seed, [predict] draws exactly two bytes of entropy, on
    lines 185-186 and nowhere else, and runs with the big-endian integer they
    spell: the line it prints first names that integer, which lies between 0
    and 65535; and each integer of that range is spelled by some pair of
    bytes, so 65536 seeds can arise. *)
Theorem predict_derived_seed (ext : externals) (r : request) (s : state) :
  seed r = None ->
  let b0 := st_entropy s (st_consumed s) in
  let b1 := st_entropy s (S (st_consumed s)) in
  let z := Z.of_N (Byte.to_N b0) * 256 + Z.of_N (Byte.to_N b1) in
  resolve_seed (seed r) s = (inr z, set_consumed (st_consumed s + 2) s, []) /\
  0 <= z <= 65535 /\
  (exists rest,
     events (predict ext r s) = EvPrint ("Using seed: " +:+ pretty z) :: rest) /\
  st_consumed (final (predict ext r s)) = (st_consumed s + 2)%nat /\
  (forall n, 0 <= n <= 65535 ->
     exists c0 c1 : Byte.byte, int_from_bytes_big [c0; c1] = n).
Proof.
  intros Hseed b0 b1 z.
  assert (Hz : seed_of r s = z).
  { unfold seed_of. rewrite Hseed. apply int_from_two_bytes. }
  split; [|split; [|split; [|split]]].
  - rewrite Hseed. unfold resolve_seed, urandom.
    rewrite (bind_pure _ _ s _ _ eq_refl). unfold ret. simpl.
    now rewrite int_from_two_bytes.
  - pose proof (byte_range b0). pose proof (byte_range b1). unfold z. lia.
  - unfold predict.
    rewrite (bind_pure _ _ s (set_frame ∅ s) tt eq_refl).
    destruct (resolve_seed_spec r (set_frame ∅ s)) as (s1 & Hrun & _).
    change (seed_of r (set_frame ∅ s)) with (seed_of r s) in Hrun.
    rewrite Hz in Hrun.
    rewrite (bind_pure _ _ _ _ _ Hrun).
    rewrite (bind_ok _ _ s1 s1 tt [EvPrint ("Using seed: " +:+ pretty z)] eq_refl).
    eexists. reflexivity.
  - rewrite predict_draws_only_the_seed, Hseed. reflexivity.
  - intros n Hn.
    destruct (byte_of_Z (n / 256)) as [c0 H0].
    { assert (n / 256 < 256) by (apply Z.div_lt_upper_bound; lia).
      assert (0 <= n / 256) by (apply Z.div_pos; lia). lia. }
    destruct (byte_of_Z (n mod 256)) as [c1 H1].
    { pose proof (Z.mod_pos_bound n 256). lia. }
    exists c0, c1. rewrite int_from_two_bytes, H0, H1.
    pose proof (Z.div_mod n 256). lia.
Qed.

(* ================================================================== *)
(** * The theorems at the sample data *)
(* ================================================================== *)

(** The sample image is resized to 1024 x 1024 for the tier "1024". *)
Lemma resize_for_condition_image_size_witness :
  let run := resize_for_condition_image sample_externals 0 "1024" sample_loaded_state in
  st_heap sample_loaded_state !! 0%nat = Some sample_image /\
  valid_side 2 /\
  result_size run = Some (1024, 1024) /\
  exists sf new_width new_height,
    scale_factor_of 2 2 = inr sf /\
    round_to_64 2 sf = inr new_width /\
    round_to_64 2 sf = inr new_height /\
    0 < new_width /\ (64 | new_width) /\ 0 < new_height /\ (64 | new_height) /\
    (2 ^ 31 <= new_width \/ 2 ^ 31 <= new_height ->
     outcome run = inl OverflowError) /\
    (new_width < 2 ^ 31 -> new_height < 2 ^ 31 ->
     resized sample_externals sample_image new_width new_height = None ->
     outcome run = inl MemoryError) /\
    (forall res,
       new_width < 2 ^ 31 -> new_height < 2 ^ 31 ->
       resized sample_externals sample_image new_width new_height = Some res ->
       im_size res = (new_width, new_height) /\
       match (if bool_decide ("1024" = "2048") then ext_esrgan sample_externals 2 res
              else Some res) with
       | Some returned =>
           exists out,
             outcome run = inr out /\
             st_heap (final run) !! out = Some returned
       | None => outcome run = inl (ModelError "RealESRGAN")
       end).
Proof.
  intros run.
  assert (Hv : valid_side 2) by (unfold valid_side; split; [lia | reflexivity]).
  split; [reflexivity|]. split; [exact Hv|].
  split; [vm_compute; reflexivity|].
  apply (resize_for_condition_image_size sample_externals 0 sample_image "1024"
           sample_loaded_state);
    [reflexivity | exact Hv | exact Hv | left; reflexivity].
Defined.

(** C1 as stated fails for the tier "2048": line 75 computes 1024 x 1024 for
    the sample image, and the image returned is the one the 2x model makes of
    the resized image, 2048 x 2048 with a model that doubles the sides. *)
Lemma resize_2048_counterexample :
  new_size 2 2 = inr (1024, 1024) /\
  result_size (resize_for_condition_image sample_externals 0 "2048"
                 sample_loaded_state) = Some (2048, 2048) /\
  result_size (resize_for_condition_image sample_externals 0 "2048"
                 sample_loaded_state) <> Some (1024, 1024).
Proof. split; [|split]; vm_compute; [reflexivity | reflexivity | discriminate]. Qed.

(** A tie goes to the even multiple: a 96 x 99 image has 99 * (1024 / 96) / 64
    = 16.5 exactly, and its new height is 16 * 64. *)
Example new_size_tie : new_size 96 99 = inr (1024, 1024).
Proof. vm_compute. reflexivity. Qed.

(** An extreme aspect ratio still gives positive sides, of an image the
    resize cannot make. *)
Example new_size_thin :
  new_size 1 100000 = inr (1024, 102400000) /\
  outcome (resize_for_condition_image sample_externals 0 "1024"
             (set_heap {[ 0%nat := thin_image ]} sample_state)) = inl MemoryError.
Proof. split; vm_compute; reflexivity. Qed.

(** An empty image has no scale factor. *)
Example new_size_empty : new_size 0 3 = inl ZeroDivisionError.
Proof. vm_compute. reflexivity. Qed.

(** The 2x3 mask is turned down for the 2x2 image. *)
Lemma predict_mask_size_mismatch_witness :
  let r := sample_request (Some "/in/mask.png") "original" (Some 42) in
  seed_ok r /\
  conditioning_image sample_externals (resolution r)
    (loaded_as sample_externals sample_image) = inr sample_image /\
  pil_to_cv sample_image = inr sample_array /\
  im_size sample_mask <> im_size sample_image /\
  outcome (predict sample_externals r sample_state)
    = inl (Exception "Image and mask must have the same size") /\
  Forall (fun ev => is_inference ev = false)
    (events (predict sample_externals r sample_state)).
Proof.
  intros r.
  assert (Hseed : seed_ok r) by (intros z [= <-]; split; [discriminate | reflexivity]).
  assert (Hctrl : conditioning_image sample_externals (resolution r)
                    (loaded_as sample_externals sample_image) = inr sample_image)
    by reflexivity.
  assert (Hcv : pil_to_cv sample_image = inr sample_array) by reflexivity.
  assert (Hne : im_size sample_mask <> im_size sample_image) by (vm_compute; discriminate).
  split; [exact Hseed|]. split; [exact Hctrl|]. split; [exact Hcv|].
  split; [exact Hne|].
  apply (predict_mask_size_mismatch sample_externals r
           sample_state "/in/image.png" "/in/mask.png" sample_image sample_mask
           sample_image sample_array);
    [reflexivity | reflexivity | discriminate | discriminate
    | reflexivity | reflexivity | exact Hseed | exact Hctrl | exact Hcv | exact Hne].
Defined.

(** C2 as stated fails for a request that does not get as far as the mask.
    The 1 x 100000 image is loaded, and its size is not that of the 2x2 mask;
    line 76 cannot make the 1024 x 102400000 image and the request ends in
    [MemoryError].  And with the seed [2^64] the request for the sample image
    and the 2x3 mask ends on line 189, in the [RuntimeError] of
    [manual_seed]. *)
Lemma predict_mask_mismatch_counterexample :
  (im_size sample_mask_2x2 <> im_size thin_image /\
   outcome (predict sample_externals thin_request thin_state) = inl MemoryError) /\
  (im_size sample_mask <> im_size sample_image /\
   outcome (predict sample_externals
              (sample_request (Some "/in/mask.png") "original" (Some (2 ^ 64)))
              sample_state)
     = inl (RuntimeError "Overflow when unpacking long")).
Proof.
  split; (split; [vm_compute; discriminate | vm_compute; reflexivity]).
Qed.

(** C3 as stated fails for "2048": the request is rejected, but the
    super-resolution model has run on the resized image before. *)
Lemma predict_mask_2048_counterexample :
  outcome (predict sample_externals
             (sample_request (Some "/in/mask2.png") "2048" (Some 42)) sample_state)
    = inl (Exception "Can't upscale and inpaint at the same time") /\
  events (predict sample_externals
            (sample_request (Some "/in/mask2.png") "2048" (Some 42)) sample_state)
    = [ EvPrint "Using seed: 42";
        EvSuperRes 2 {| im_mode := "RGB"; im_width := 1024; im_height := 1024;
                        im_data := im_data sample_image |} ].
Proof. split; vm_compute; reflexivity. Qed.

(** The same request, through the amended statement. *)
Lemma predict_mask_with_upscale_witness :
  let r := sample_request (Some "/in/mask2.png") "2048" (Some 42) in
  seed_ok r /\
  conditioning_image sample_externals (resolution r)
    (loaded_as sample_externals sample_image) = inr sample_upscaled /\
  pil_to_cv sample_upscaled = inr sample_upscaled_array /\
  resolution r <> "original" /\
  outcome (predict sample_externals r sample_state)
    = inl (Exception "Can't upscale and inpaint at the same time") /\
  Forall (fun ev => is_inference ev = false)
    (events (predict sample_externals r sample_state)) /\
  exists new_width new_height res,
    new_size 2 2 = inr (new_width, new_height) /\
    resized sample_externals (loaded_as sample_externals sample_image)
      new_width new_height = Some res /\
    filter (fun ev => is_super_res ev = true)
      (events (predict sample_externals r sample_state))
    = [EvSuperRes 2 res].
Proof.
  intros r.
  assert (Hseed : seed_ok r) by (intros z [= <-]; split; [discriminate | reflexivity]).
  assert (Hctrl : conditioning_image sample_externals (resolution r)
                    (loaded_as sample_externals sample_image) = inr sample_upscaled)
    by (vm_compute; reflexivity).
  assert (Hcv : pil_to_cv sample_upscaled = inr sample_upscaled_array) by reflexivity.
  assert (Hres : resolution r <> "original") by discriminate.
  split; [exact Hseed|]. split; [exact Hctrl|]. split; [exact Hcv|].
  split; [exact Hres|].
  apply (predict_mask_with_upscale sample_externals r
           sample_state "/in/image.png" "/in/mask2.png" sample_image sample_mask_2x2
           sample_upscaled sample_upscaled_array);
    [reflexivity | reflexivity | discriminate | discriminate
    | reflexivity | reflexivity | exact Hseed | exact Hctrl | exact Hcv | exact Hres].
Defined.

(** C4 as stated fails on the raising path: the request below is rejected
    with the generator and the three images still bound and without the
    device cache having been emptied. *)
Lemma predict_raise_counterexample :
  outcome (predict sample_externals
             (sample_request (Some "/in/mask.png") "original" (Some 42)) sample_state)
    = inl (Exception "Image and mask must have the same size") /\
  events (predict sample_externals
            (sample_request (Some "/in/mask.png") "original" (Some 42)) sample_state)
    = [EvPrint "Using seed: 42"] /\
  dom (st_frame (final (predict sample_externals
                          (sample_request (Some "/in/mask.png") "original" (Some 42))
                          sample_state)))
    = {[ "generator"; "loaded_image"; "control_image"; "final_image"; "mask_image" ]}.
Proof.
  split; [|split]; vm_compute; reflexivity.
Qed.

(** The returning path, at the sample request. *)
Lemma predict_cleans_up_on_return_witness :
  outcome (predict sample_externals (sample_request None "original" None)
             sample_state) = inr ["/tmp/out-0.png"] /\
  released (sample_request None "original" None)
    (st_frame (final (predict sample_externals (sample_request None "original" None)
                        sample_state))) /\
  exists before,
    events (predict sample_externals (sample_request None "original" None)
              sample_state) = before ++ [EvEmptyCache] /\
    EvEmptyCache ∉ before.
Proof.
  assert (Hout : outcome (predict sample_externals
                            (sample_request None "original" None) sample_state)
                 = inr ["/tmp/out-0.png"]) by (vm_compute; reflexivity).
  split; [exact Hout|].
  pose proof (predict_cleans_up_on_return sample_externals
                (sample_request None "original" None) sample_state) as H.
  rewrite Hout in H. exact H.
Defined.

(** A request that goes through: one output, the cache emptied last, the
    frame empty, the scheduler of the image pipeline replaced. *)
Example predict_sample_run :
  let run := predict sample_externals (sample_request None "original" None)
               sample_state in
  outcome run = inr ["/tmp/out-0.png"] /\
  head (events run) = Some (EvPrint "Using seed: 4660") /\
  last (events run) = Some EvEmptyCache /\
  length (filter (fun ev => is_inference ev = true) (events run)) = 1%nat /\
  st_frame (final run) = ∅ /\
  sched_class (pipe_scheduler (img2img_pipe (final run))) = DDIMScheduler /\
  inpaint_pipe (final run) = inpaint_pipe sample_state.
Proof. vm_compute. repeat split. Qed.

(** The copy of the sample image. *)
Lemma resize_for_condition_image_original_witness :
  st_heap sample_loaded_state !! 0%nat = Some sample_image /\
  exists out,
    resize_for_condition_image sample_externals 0 "original" sample_loaded_state =
      (inr out, set_heap (<[out := sample_image]> (st_heap sample_loaded_state))
                  sample_loaded_state, []) /\
    out <> 0%nat /\
    st_heap (final (resize_for_condition_image sample_externals 0 "original"
                      sample_loaded_state)) !! out = Some sample_image /\
    st_heap (final (resize_for_condition_image sample_externals 0 "original"
                      sample_loaded_state)) !! 0%nat = Some sample_image.
Proof.
  split; [reflexivity|].
  apply (resize_for_condition_image_original sample_externals 0 sample_image
           sample_loaded_state).
  reflexivity.
Defined.

(** The factors at full intensity. *)
Lemma calculate_brightness_factors_witness :
  flt (float_of_Z 0) (float_of_Z 1) = true /\
  SFleb (float_of_Z 1) one = true /\
  calculate_brightness_factors (float_of_Z 1) =
    [ fsub one (fmul (lit 9 10) (float_of_Z 1));
      fsub one (fmul (lit 7 10) (float_of_Z 1));
      fsub one (fmul (lit 45 100) (float_of_Z 1));
      fsub one (fmul (lit 25 100) (float_of_Z 1));
      one;
      fadd one (fmul (lit 2 10) (float_of_Z 1));
      fadd one (fmul (lit 4 10) (float_of_Z 1));
      fadd one (fmul (lit 6 10) (float_of_Z 1));
      fadd one (fmul (lit 8 10) (float_of_Z 1)) ].
Proof.
  split; [reflexivity|]. split; [reflexivity|].
  apply (proj1 (calculate_brightness_factors_spec (float_of_Z 1))); reflexivity.
Defined.

(** The decimal literals of lines 91-93 as doubles: [0.9] is
    8106479329266893 * 2^-53, and so on. *)
Example brightness_literals :
  [lit 9 10; lit 7 10; lit 45 100; lit 25 100; lit 2 10; lit 4 10; lit 6 10; lit 8 10] =
  [ S754_finite false 8106479329266893 (-53);
    S754_finite false 6305039478318694 (-53);
    S754_finite false 8106479329266893 (-54);
    S754_finite false 4503599627370496 (-54);
    S754_finite false 7205759403792794 (-55);
    S754_finite false 7205759403792794 (-54);
    S754_finite false 5404319552844595 (-53);
    S754_finite false 7205759403792794 (-53) ].
Proof. vm_compute. reflexivity. Qed.

(** In binary64 the first factor at full intensity is the double just below
    one tenth, 0.09999999999999998. *)
Example brightness_factor_at_one :
  hd one (calculate_brightness_factors (float_of_Z 1)) =
    S754_finite false 7205759403792792 (-56).
Proof. vm_compute. reflexivity. Qed.

(** K_EULER resolves; "LMS" is turned down at the boundary. *)
Lemma scheduler_resolution_witness :
  SCHEDULERS !! "K_EULER" = Some EulerDiscreteScheduler /\
  pipe_scheduler (get_pipe Inpaint (final (replace_scheduler Inpaint "K_EULER" sample_state)))
    = from_config EulerDiscreteScheduler [("num_train_timesteps", "1000")] /\
  (scheduler unknown_scheduler_request ∉ scheduler_names) /\
  exists field,
    handle_request sample_externals unknown_scheduler_request sample_state
    = (inl (ValidationError field), sample_state, []).
Proof.
  destruct scheduler_resolution as (_ & _ & Hinstall & Hreject).
  assert (Hk : SCHEDULERS !! "K_EULER" = Some EulerDiscreteScheduler)
    by (vm_compute; reflexivity).
  assert (Hl : scheduler unknown_scheduler_request ∉ scheduler_names)
    by (apply (bool_decide_unpack _); vm_compute; exact I).
  split; [exact Hk|]. split.
  - exact (proj2 (Hinstall Inpaint "K_EULER" EulerDiscreteScheduler sample_state Hk)).
  - split; [exact Hl|].
    exact (Hreject sample_externals unknown_scheduler_request sample_state Hl).
Defined.

(** The bytes 0x12 0x34 give the seed 4660. *)
Lemma predict_derived_seed_witness :
  seed (sample_request None "original" None) = None /\
  resolve_seed (seed (sample_request None "original" None)) sample_state =
    (inr 4660, set_consumed 2 sample_state, []) /\
  0 <= 4660 <= 65535 /\
  (exists rest,
     events (predict sample_externals (sample_request None "original" None)
               sample_state)
     = EvPrint ("Using seed: " +:+ pretty 4660) :: rest) /\
  st_consumed (final (predict sample_externals (sample_request None "original" None)
                        sample_state)) = 2%nat /\
  (forall n, 0 <= n <= 65535 ->
     exists c0 c1 : Byte.byte, int_from_bytes_big [c0; c1] = n).
Proof.
  split; [reflexivity|].
  apply (predict_derived_seed sample_externals (sample_request None "original" None)
           sample_state).
  reflexivity.
Defined.

(* ================================================================== *)
(** * Further properties: exposures *)
(* ================================================================== *)

Lemma brightness_one_keeps_byte (v : Z) :
  0 <= v <= 255 ->
  to_uint8 (clip_0_255 float_of_Z (fmul (float_of_Z v) one)) = v.
Proof.
  intros Hv.
  assert (Hall : forallb
            (fun n => to_uint8 (clip_0_255 float_of_Z
                                  (fmul (float_of_Z (Z.of_nat n)) one))
                      =? Z.of_nat n)
            (seq 0 256) = true) by (vm_compute; reflexivity).
  rewrite forallb_forall in Hall.
  specialize (Hall (Z.to_nat v)). rewrite Z2Nat.id in Hall by lia.
  apply Z.eqb_eq, Hall, in_seq. lia.
Qed.

Section Exposures.

Variable ext : externals.

Lemma adjust_brightness_one (cv : ndarray) :
  hsv_pixels_ok ext ->
  adjust_brightness ext cv one = hsv_round_trip ext cv.
Proof.
  intros Hok. unfold adjust_brightness, hsv_round_trip. f_equal.
  rewrite !map_map. apply map_ext. intros px.
  destruct (Hok px) as (h & sat & v & -> & Hv). simpl.
  now rewrite brightness_one_keeps_byte.
Qed.

(** X3.  Lines 88-94 and 99-109: at intensity 0, and as long as the HSV
    conversion gives three channels with a byte for the value, the nine
    exposures handed to the fusion are nine copies of one array, the input
    array taken to HSV and back: scaling the value channel by 1.0 changes
    nothing.  So [create_hdr_effect] at intensity 0, on an image OpenCV
    takes, returns the fusion of these nine copies. *)
Theorem exposures_at_zero (cv : ndarray) :
  hsv_pixels_ok ext ->
  exposures ext cv (float_of_Z 0) = repeat (hsv_round_trip ext cv) 9 /\
  forall (ref : nat) (img : Image) (s : state),
    st_heap s !! ref = Some img -> pil_to_cv img = inr cv ->
    create_hdr_effect ext ref (float_of_Z 0) s =
      alloc (fused_image ext cv (repeat (hsv_round_trip ext cv) 9)) s.
Proof.
  intros Hok.
  assert (He : exposures ext cv (float_of_Z 0) = repeat (hsv_round_trip ext cv) 9).
  { unfold exposures.
    change (calculate_brightness_factors (float_of_Z 0)) with (repeat one 9).
    simpl. now rewrite adjust_brightness_one. }
  split; [exact He|].
  intros ref img s H Hcv. rewrite (create_hdr_effect_run _ _ _ _ _ _ H Hcv).
  unfold hdr_image. now rewrite He.
Qed.

End Exposures.

(* ================================================================== *)
(** * Further properties: loading and resizing *)
(* ================================================================== *)

Lemma bind_assoc {A B C} (m : M A) (f : A -> M B) (g : B -> M C) (s : state) :
  bind (bind m f) g s = bind m (fun x => bind (f x) g) s.
Proof.
  unfold bind. destruct (m s) as [[[e|x] s1] ev1]; [reflexivity|].
  destruct (f x s1) as [[[e|y] s2] ev2]; [reflexivity|].
  destruct (g y s2) as [[r s3] ev3]. now rewrite app_assoc.
Qed.

Lemma bind_ext {A B} (m : M A) (f g : A -> M B) (s : state) :
  (forall x s1, f x s1 = g x s1) -> bind m f s = bind m g s.
Proof.
  intros H. unfold bind. destruct (m s) as [[[e|x] s1] ev1]; [reflexivity|].
  now rewrite H.
Qed.

Section Loading.

Variable ext : externals.

Lemma pil_convert_run (ref : nat) (mode : string) (img : Image) (s : state) :
  st_heap s !! ref = Some img ->
  pil_convert ext ref mode s = alloc (convert_image ext mode img) s.
Proof.
  intros H. unfold pil_convert.
  now rewrite (bind_pure _ _ _ _ _ (deref_run _ _ _ H)).
Qed.

(** X6.  Lines 116-118: loading a file an image can be read from gives a new
    RGB image of the size of that image; the scratch file /tmp/image.png now
    holds the file's image and every other file is as before; live images,
    the frame, the pipelines and the ControlNet are untouched and nothing is
    logged. *)
Theorem load_image_loads (p : string) (f : Image) (s : state) :
  st_fs s !! p = Some (ImageFile f) -> p <> "/tmp/image.png" ->
  exists out loaded s',
    load_image ext (Some p) s = (inr out, s', []) /\
    st_heap s !! out = None /\
    st_heap s' !! out = Some loaded /\
    im_mode loaded = "RGB" /\ im_size loaded = im_size f /\
    st_fs s' = <["/tmp/image.png" := ImageFile f]> (st_fs s) /\
    st_heap s ⊆ st_heap s' /\ rest_same s s'.
Proof.
  intros Hf Hp. unfold load_image.
  rewrite (bind_pure _ _ _ _ _ (copyfile_run p _ s Hf Hp)).
  set (s1 := set_fs _ s).
  assert (Hread : read_image "/tmp/image.png" s1 = (inr f, s1, [])).
  { unfold read_image. simpl. now rewrite lookup_insert_eq. }
  rewrite (bind_pure _ _ _ _ _ Hread).
  destruct (alloc_spec (convert_image ext "RGB" f) s1)
    as (o & s2 & Ho & [Hsub1 _] & Hon & Ho2 & Hs2).
  rewrite (bind_pure _ _ _ _ _ Ho). unfold pil_convert.
  rewrite (bind_pure _ _ _ _ _ (deref_run _ _ _ Ho2)).
  destruct (alloc_spec (convert_image ext "RGB" (convert_image ext "RGB" f)) s2)
    as (out & s3 & Hout & [Hsub2 _] & Houtn & Hout3 & Hs3).
  exists out, (convert_image ext "RGB" (convert_image ext "RGB" f)), s3.
  split; [exact Hout|]. subst s3 s2. simpl in *.
  assert (Hoo : out <> o) by (intros ->; rewrite lookup_insert_eq in Houtn; discriminate).
  rewrite lookup_insert_ne in Houtn by congruence.
  split; [exact Houtn|]. split; [apply lookup_insert_eq|].
  split; [apply convert_image_mode|].
  split; [now rewrite !convert_image_size|].
  split; [reflexivity|]. split; [|repeat split].
  etransitivity; [apply Hsub1 | apply Hsub2].
Qed.


(** X8.  Lines 69-80: the tier is not validated.  Any string other than
    "original" and "2048" acts as "1024" does; and "2048" is "1024" followed
    by the 2x model on its result. *)
Theorem resize_tiers (input : nat) (resolution : string) (s : state) :
  (resolution <> "original" -> resolution <> "2048" ->
   resize_for_condition_image ext input resolution s =
   resize_for_condition_image ext input "1024" s) /\
  resize_for_condition_image ext input "2048" s =
    bind (resize_for_condition_image ext input "1024")
         (fun img => bind (esrgan_model 2) (fun model => esrgan_predict ext model img)) s.
Proof.
  split.
  - intros H1 H2. unfold resize_for_condition_image.
    rewrite !(bool_decide_eq_false_2 _ H1), !(bool_decide_eq_false_2 _ H2).
    reflexivity.
  - unfold resize_for_condition_image.
    change (bool_decide ("2048" = "original")) with false.
    change (bool_decide ("1024" = "original")) with false.
    change (bool_decide ("2048" = "2048")) with true.
    change (bool_decide ("1024" = "2048")) with false. cbv iota.
    unfold im_size.
    repeat (rewrite bind_assoc; apply bind_ext; intros ? ?; cbv beta iota).
    now rewrite (bind_pure _ _ _ _ _ (eq_refl : ret _ _ = (inr _, _, []))).
Qed.

End Loading.

(* ================================================================== *)
(** * Running [predict] to the end *)
(* ================================================================== *)

Create HintDb rest.

Lemma rest_same_refl (s : state) : rest_same s s.
Proof. repeat split. Qed.

Lemma rest_same_trans (s1 s2 s3 : state) :
  rest_same s1 s2 -> rest_same s2 s3 -> rest_same s1 s3.
Proof. intros (F1 & A1 & B1 & C1) (F2 & A2 & B2 & C2). repeat split; congruence. Qed.

Lemma keeps_rest_bind {A B} (m : M A) (f : A -> M B) :
  keeps_rest m -> (forall x, keeps_rest (f x)) -> keeps_rest (bind m f).
Proof.
  intros Hm Hf s. specialize (Hm s). unfold bind.
  destruct (m s) as [[[e|x] s1] ev1]; [exact Hm|].
  specialize (Hf x s1). destruct (f x s1) as [[r s2] ev2].
  unfold final in *. simpl in *. eapply rest_same_trans; eassumption.
Qed.

(** Closes the goal for a step written as a function of the state. *)
Ltac rest_step :=
  intros ?; repeat first [case_bool_decide | case_match]; repeat split; reflexivity.

Lemma keeps_rest_ret {A} (x : A) : keeps_rest (ret x).
Proof. rest_step. Qed.

Lemma keeps_rest_raise {A} (e : exn) : keeps_rest (@raise A e).
Proof. rest_step. Qed.

Lemma keeps_rest_lift {A} (x : exn + A) : keeps_rest (lift x).
Proof. destruct x; rest_step. Qed.

Lemma keeps_rest_emit (ev : event) : keeps_rest (emit ev).
Proof. rest_step. Qed.

Lemma keeps_rest_get : keeps_rest get.
Proof. rest_step. Qed.

Lemma keeps_rest_alloc (img : Image) : keeps_rest (alloc img).
Proof. rest_step. Qed.

Lemma keeps_rest_deref (ref : nat) : keeps_rest (deref ref).
Proof. unfold deref. rest_step. Qed.

Lemma keeps_rest_copyfile (src dst : string) : keeps_rest (copyfile src dst).
Proof. unfold copyfile. rest_step. Qed.

Lemma keeps_rest_read_image (path : string) : keeps_rest (read_image path).
Proof. unfold read_image. rest_step. Qed.

Lemma keeps_rest_urandom (n : nat) : keeps_rest (urandom n).
Proof. rest_step. Qed.

Lemma keeps_rest_manual_seed (seed : Z) : keeps_rest (manual_seed seed).
Proof. unfold manual_seed. rest_step. Qed.

#[local] Hint Resolve keeps_rest_ret keeps_rest_raise keeps_rest_lift
  keeps_rest_emit keeps_rest_get keeps_rest_alloc keeps_rest_deref
  keeps_rest_copyfile keeps_rest_read_image keeps_rest_urandom
  keeps_rest_manual_seed : rest.

Ltac rest :=
  repeat first
    [ apply keeps_rest_bind; [|intros ?]
    | progress auto with rest
    | match goal with
      | |- keeps_rest (if ?b then _ else _) => destruct b
      | |- keeps_rest (match ?x with _ => _ end) => destruct x
      end ].

Lemma run_final {A} (m : M A) (s s' : state) (x : exn + A) (ev : list event) :
  m s = (x, s', ev) -> final (m s) = s'.
Proof. now intros ->. Qed.

Lemma string_app_length (s t : string) :
  String.length (s +:+ t) = (String.length s + String.length t)%nat.
Proof. induction s as [|a s IH]; simpl; [reflexivity | now rewrite IH]. Qed.

Lemma string_app_inv_r (t : string) : forall s1 s2 : string,
  s1 +:+ t = s2 +:+ t -> s1 = s2.
Proof.
  induction s1 as [|a s1 IH]; intros [|b s2] H.
  - reflexivity.
  - apply (f_equal String.length) in H.
    rewrite !string_app_length in H. simpl in H. lia.
  - apply (f_equal String.length) in H.
    rewrite !string_app_length in H. simpl in H. lia.
  - change (String a (s1 +:+ t) = String b (s2 +:+ t)) in H.
    injection H as -> H. f_equal. now apply IH.
Qed.

Lemma out_path_inj (i j : nat) : out_path i = out_path j -> i = j.
Proof.
  unfold out_path. intros H.
  apply (inj (String.app "/tmp/out-")) in H.
  apply string_app_inv_r in H. now apply (inj pretty) in H.
Qed.

Section Run.

Variable ext : externals.

Lemma keeps_rest_save_image (ref : nat) (path : string) :
  keeps_rest (save_image ref path).
Proof. unfold save_image. rest; rest_step. Qed.

Lemma keeps_rest_pil_convert (ref : nat) (mode : string) :
  keeps_rest (pil_convert ext ref mode).
Proof. unfold pil_convert. rest. Qed.

Lemma keeps_rest_load_image (path : option string) :
  keeps_rest (load_image ext path).
Proof. unfold load_image. rest; apply keeps_rest_pil_convert. Qed.

Lemma keeps_rest_esrgan_predict (model : ESRGAN) (ref : nat) :
  keeps_rest (esrgan_predict ext model ref).
Proof. unfold esrgan_predict. rest. Qed.

Lemma keeps_rest_resize (ref : nat) (resolution : string) :
  keeps_rest (resize_for_condition_image ext ref resolution).
Proof.
  unfold resize_for_condition_image, pil_copy, pil_resize, esrgan_model.
  rest; try apply keeps_rest_pil_convert; try apply keeps_rest_esrgan_predict.
Qed.

Lemma keeps_rest_create_hdr_effect (ref : nat) (h : spec_float) :
  keeps_rest (create_hdr_effect ext ref h).
Proof. unfold create_hdr_effect. rest. Qed.

Lemma keeps_rest_resolve_seed (seed : option Z) : keeps_rest (resolve_seed seed).
Proof. unfold resolve_seed. rest. Qed.

Lemma alloc_all_spec (imgs : list Image) : forall s : state,
  exists refs s',
    alloc_all imgs s = (inr refs, s', []) /\
    st_heap s ⊆ st_heap s' /\ rest_same s s' /\ st_fs s' = st_fs s /\
    Forall2 (fun ref img => st_heap s' !! ref = Some img) refs imgs.
Proof.
  induction imgs as [|img rest IH]; intros s; simpl.
  - exists [], s. repeat split; auto.
  - destruct (alloc_spec img s) as (ref & s1 & Hrun & [Hsub _] & _ & Href & Hs1).
    rewrite (bind_pure _ _ _ _ _ Hrun).
    destruct (IH s1) as (refs & s2 & Hrun2 & Hsub2 & Hrest2 & Hfs2 & Hall).
    rewrite (bind_pure _ _ _ _ _ Hrun2).
    exists (ref :: refs), s2. split; [reflexivity|].
    split; [etransitivity; eassumption|].
    split; [|split].
    + eapply rest_same_trans; [|exact Hrest2]. subst s1. repeat split.
    + rewrite Hfs2. now subst s1.
    + constructor; [|exact Hall]. eapply lookup_weaken; eassumption.
Qed.

Lemma save_outputs_spec (samples : list nat) : forall (imgs : list Image) (i : nat) (s : state),
  Forall2 (fun ref img => st_heap s !! ref = Some img) samples imgs ->
  exists s',
    save_outputs i samples s =
      (inr (map out_path (seq i (length samples))), s', []) /\
    st_heap s' = st_heap s /\ rest_same s s' /\
    (forall k img, imgs !! k = Some img ->
                   st_fs s' !! out_path (i + k) = Some (ImageFile img)) /\
    (forall q, (forall k, (k < length samples)%nat -> q <> out_path (i + k)) ->
               st_fs s' !! q = st_fs s !! q).
Proof.
  induction samples as [|sample rest IH]; intros imgs i s Hall.
  - inversion Hall; subst. exists s. simpl.
    split; [reflexivity|]. split; [reflexivity|]. split; [apply rest_same_refl|].
    split; [|reflexivity]. intros k img Hk. now rewrite lookup_nil in Hk.
  - inversion Hall as [|? img ? imgs' Hhead Htail]; subst.
    cbn [save_outputs]. fold (out_path i).
    assert (Hsave : save_image sample (out_path i) s =
                    (inr tt, set_fs (<[out_path i := ImageFile img]> (st_fs s)) s, [])).
    { unfold save_image. now rewrite (bind_pure _ _ _ _ _ (deref_run _ _ _ Hhead)). }
    rewrite (bind_pure _ _ _ _ _ Hsave).
    destruct (IH imgs' (S i) (set_fs (<[out_path i := ImageFile img]> (st_fs s)) s) Htail)
      as (s' & Hrun & Hheap & Hrest & Hfiles & Hother).
    rewrite (bind_pure _ _ _ _ _ Hrun).
    exists s'. split; [reflexivity|]. split; [exact Hheap|].
    split; [exact Hrest|]. split.
    + intros [|k] im Hk; simpl in Hk.
      * injection Hk as <-. rewrite Nat.add_0_r.
        rewrite Hother; [simpl; apply lookup_insert_eq|].
        intros k _ Heq. apply out_path_inj in Heq. lia.
      * replace (i + S k)%nat with (S i + k)%nat by lia. now apply Hfiles.
    + intros q Hq. rewrite Hother.
      * simpl. apply lookup_insert_ne. intros Heq.
        apply (Hq 0%nat); [simpl; lia|]. now rewrite Nat.add_0_r.
      * intros k Hk. replace (S i + k)%nat with (i + S k)%nat by lia.
        apply Hq. simpl. lia.
Qed.

Lemma cleanup_runs (r : request) (s : state) :
  prepared_frame (st_frame s) ->
  is_Some (st_frame s !! "outputs") ->
  (mask r <> None -> is_Some (st_frame s !! "mask_image")) ->
  exists s',
    cleanup r s = (inr tt, s', [EvEmptyCache]) /\
    st_heap s' = st_heap s /\ st_fs s' = st_fs s /\
    img2img_pipe s' = img2img_pipe s /\ inpaint_pipe s' = inpaint_pipe s /\
    controlnet s' = controlnet s.
Proof.
  intros ([g Hg] & [l Hl] & [c Hc] & [f Hf]) [o Ho] Hmask.
  unfold cleanup, bind, del, emit.
  rewrite Hg. simpl. rewrite lookup_delete_ne, Hf by discriminate. simpl.
  rewrite !lookup_delete_ne, Hc by discriminate. simpl.
  rewrite !lookup_delete_ne, Hl by discriminate. simpl.
  rewrite !lookup_delete_ne, Ho by discriminate. simpl.
  destruct (mask r) as [m|]; simpl.
  - destruct (Hmask ltac:(discriminate)) as [mi Hmi].
    rewrite !lookup_delete_ne, Hmi by discriminate. simpl.
    eexists. split; [reflexivity|]. repeat split.
  - eexists. split; [reflexivity|]. repeat split.
Qed.

End Run.

(* ================================================================== *)
(** * A request that is served *)
(* ================================================================== *)

Lemma bind_ret_l {A B} (x : A) (f : A -> M B) (s : state) :
  bind (ret x) f s = f x s.
Proof. unfold bind, ret. now destruct (f x s) as [[? ?] ?]. Qed.

Lemma bind_ret_r {A} (m : M A) (s : state) : bind m ret s = m s.
Proof.
  unfold bind, ret. destruct (m s) as [[[e|x] s1] ev]; [reflexivity|].
  now rewrite app_nil_r.
Qed.

Lemma keeps_files_bind {A B} (m : M A) (f : A -> M B) :
  keeps_files m -> (forall x, keeps_files (f x)) -> keeps_files (bind m f).
Proof.
  intros Hm Hf s. specialize (Hm s). unfold bind.
  destruct (m s) as [[[e|x] s1] ev1]; [exact Hm|].
  specialize (Hf x s1). destruct (f x s1) as [[r s2] ev2].
  unfold final in *. simpl in *. congruence.
Qed.

Ltac files_step :=
  intros ?; repeat first [case_bool_decide | case_match]; reflexivity.

Lemma keeps_files_ret {A} (x : A) : keeps_files (ret x).
Proof. files_step. Qed.

Lemma keeps_files_raise {A} (e : exn) : keeps_files (@raise A e).
Proof. files_step. Qed.

Lemma keeps_files_lift {A} (x : exn + A) : keeps_files (lift x).
Proof. destruct x; files_step. Qed.

Lemma keeps_files_emit (ev : event) : keeps_files (emit ev).
Proof. files_step. Qed.

Lemma keeps_files_alloc (img : Image) : keeps_files (alloc img).
Proof. files_step. Qed.

Lemma keeps_files_deref (ref : nat) : keeps_files (deref ref).
Proof. unfold deref. files_step. Qed.

Lemma keeps_files_read_image (path : string) : keeps_files (read_image path).
Proof. unfold read_image. files_step. Qed.

Create HintDb files.

#[local] Hint Resolve keeps_files_ret keeps_files_raise keeps_files_lift
  keeps_files_emit keeps_files_alloc keeps_files_deref keeps_files_read_image
  : files.

Ltac files :=
  repeat first
    [ apply keeps_files_bind; [|intros ?]
    | progress auto with files
    | match goal with
      | |- keeps_files (if ?b then _ else _) => destruct b
      | |- keeps_files (match ?x with _ => _ end) => destruct x
      end ].

Lemma out_path_not_scratch (k : nat) : out_path k <> "/tmp/image.png".
Proof.
  unfold out_path. intros H.
  apply (f_equal (String.get 5)) in H. cbn in H. discriminate.
Qed.

Section Served.

Variable ext : externals.

Lemma keeps_files_pil_convert (ref : nat) (mode : string) :
  keeps_files (pil_convert ext ref mode).
Proof. unfold pil_convert. files. Qed.

Lemma keeps_files_esrgan_predict (model : ESRGAN) (ref : nat) :
  keeps_files (esrgan_predict ext model ref).
Proof. unfold esrgan_predict. files. Qed.

Lemma keeps_files_resize (ref : nat) (resolution : string) :
  keeps_files (resize_for_condition_image ext ref resolution).
Proof.
  unfold resize_for_condition_image, pil_copy, pil_resize, esrgan_model.
  files; try apply keeps_files_pil_convert; try apply keeps_files_esrgan_predict.
Qed.

Lemma keeps_files_create_hdr_effect (ref : nat) (h : spec_float) :
  keeps_files (create_hdr_effect ext ref h).
Proof. unfold create_hdr_effect. files. Qed.

(** [predict] is the preparation, the selection of the pipeline and the
    rest, in this order. *)
Lemma predict_split (r : request) (s : state) :
  predict ext r s =
    bind (prepare ext r)
         (fun p =>
            bind (select_pipe ext r (snd (fst p))
                    (base_args r (snd p) (fst (fst p))))
                 (fun selected =>
                    predict_tail ext r (fst selected) (snd selected))) s.
Proof.
  unfold predict, prepare.
  repeat (rewrite bind_assoc; apply bind_ext; intros ? ?; cbv beta iota).
  rewrite bind_ret_l. reflexivity.
Qed.

(** [load_image] on a file that is there. *)
Lemma load_image_run (p : string) (f : Image) (s : state) :
  st_fs s !! p = Some (ImageFile f) -> p <> "/tmp/image.png" ->
  exists out s',
    load_image ext (Some p) s = (inr out, s', []) /\
    st_heap s ⊆ st_heap s' /\
    st_heap s' !! out = Some (loaded_as ext f) /\
    st_fs s' = <["/tmp/image.png" := ImageFile f]> (st_fs s) /\
    rest_same s s'.
Proof.
  intros Hf Hp.
  destruct (load_image_spec ext p f s Hf Hp) as (out & s' & Hrun & [Hsub _] & Hout).
  exists out, s'. split; [exact Hrun|]. split; [exact Hsub|]. split; [exact Hout|].
  split.
  - pose proof (run_final _ _ _ _ _ Hrun) as <-.
    unfold load_image.
    rewrite (bind_pure _ _ _ _ _ (copyfile_run p _ s Hf Hp)).
    match goal with |- st_fs (final (?m ?s1)) = _ =>
      assert (Hk : keeps_files m); [|exact (Hk s1)] end.
    files.
  - pose proof (keeps_rest_load_image ext (Some p) s) as Hk.
    now rewrite (run_final _ _ _ _ _ Hrun) in Hk.
Qed.

End Served.

Section Served2.

Variable ext : externals.

Lemma final_eq {A} (m : M A) (s s' : state) (x : exn + A) (ev : list event) :
  m s = (x, s', ev) -> s' = final (m s).
Proof. now intros ->. Qed.

(** The conditioning image of a loaded image, when it can be made. *)
Lemma conditioning_run_files (resolution : string) (img ctrl : Image) (li : nat)
    (s : state) :
  st_heap s !! li = Some img ->
  conditioning_image ext resolution img = inr ctrl ->
  exists ci s',
    resize_for_condition_image ext li resolution s =
      (inr ci, s', conditioning_calls ext resolution img) /\
    st_heap s ⊆ st_heap s' /\ st_heap s' !! ci = Some ctrl /\
    st_fs s' = st_fs s /\ rest_same s s'.
Proof.
  intros Hli Hc.
  destruct (conditioning_run ext resolution img ctrl li s Hli Hc)
    as (ci & s' & Hrun & [Hsub _] & Hci).
  exists ci, s'. repeat (split; [assumption|]).
  rewrite (final_eq _ _ _ _ _ Hrun). split.
  - apply keeps_files_resize.
  - apply keeps_rest_resize.
Qed.

Lemma hdr_run (ref : nat) (img : Image) (cv : ndarray) (h : spec_float) (s : state) :
  st_heap s !! ref = Some img -> pil_to_cv img = inr cv ->
  exists out s',
    create_hdr_effect ext ref h s = (inr out, s', []) /\
    st_heap s ⊆ st_heap s' /\ st_heap s' !! out = Some (hdr_image ext cv h) /\
    st_fs s' = st_fs s /\ rest_same s s'.
Proof.
  intros Href Hcv.
  pose proof (fresh_heap_None s) as Hfresh.
  rewrite (create_hdr_effect_run ext ref img cv h s Href Hcv).
  unfold alloc. eexists _, _.
  split; [reflexivity|]. simpl.
  split; [now apply insert_subseteq|]. split; [apply lookup_insert_eq|].
  repeat split.
Qed.

Lemma resolve_seed_run (r : request) (s : state) :
  exists s',
    resolve_seed (seed r) s = (inr (seed_of r s), s', []) /\
    st_heap s' = st_heap s /\ st_fs s' = st_fs s /\ rest_same s s'.
Proof.
  unfold resolve_seed, seed_of. destruct (seed r) as [z|].
  - exists s. repeat split.
  - eexists. split; [reflexivity|]. repeat split.
Qed.

(** Lines 185-192 when each of them goes through: the image file can be
    read, the seed is one [manual_seed] takes, the conditioning image [ctrl]
    can be made and OpenCV takes it as the array [cv]. *)
Lemma prepare_run (r : request) (s : state) (p : string) (img ctrl : Image)
    (cv : ndarray) :
  image r = Some p -> p <> "/tmp/image.png" ->
  st_fs s !! p = Some (ImageFile img) ->
  seed_ok r ->
  conditioning_image ext (resolution r) (loaded_as ext img) = inr ctrl ->
  pil_to_cv ctrl = inr cv ->
  exists li ci fi s',
    prepare ext r s =
      (inr (seed_of r s, li, fi), s',
       EvPrint ("Using seed: " +:+ pretty (seed_of r s)) ::
       conditioning_calls ext (resolution r) (loaded_as ext img)) /\
    st_heap s ⊆ st_heap s' /\
    st_heap s' !! li = Some (loaded_as ext img) /\
    st_heap s' !! fi = Some (hdr_image ext cv (hdr r)) /\
    st_fs s' = <["/tmp/image.png" := ImageFile img]> (st_fs s) /\
    st_frame s' =
      <["final_image" := LImage fi]>
        (<["control_image" := LImage ci]>
           (<["loaded_image" := LImage li]>
              (<["generator" := LGenerator (seed_of r s)]> ∅))) /\
    img2img_pipe s' = img2img_pipe s /\ inpaint_pipe s' = inpaint_pipe s /\
    controlnet s' = controlnet s.
Proof.
  intros Hp Hpt Hfp Hseedok Hctrl Hcv.
  set (s0 := set_frame ∅ s).
  destruct (resolve_seed_run r s0) as (s1 & Hseed & Hh1 & Hf1 & Hfr1 & Ha1 & Hb1 & Hc1).
  change (seed_of r s0) with (seed_of r s) in Hseed.
  set (s2 := set_frame (<["generator" := LGenerator (seed_of r s)]> (st_frame s1)) s1).
  destruct (load_image_run ext p img s2)
    as (li & s3 & Hli & Hsub3 & Hli3 & Hf3 & Hfr3 & Ha3 & Hb3 & Hc3);
    [simpl; rewrite Hf1; exact Hfp | exact Hpt |].
  set (s4 := set_frame (<["loaded_image" := LImage li]> (st_frame s3)) s3).
  destruct (conditioning_run_files (resolution r) _ ctrl li s4 Hli3 Hctrl)
    as (ci & s5 & Hci & Hsub5 & Hci5 & Hf5 & Hfr5 & Ha5 & Hb5 & Hc5).
  set (s6 := set_frame (<["control_image" := LImage ci]> (st_frame s5)) s5).
  destruct (hdr_run ci ctrl cv (hdr r) s6 Hci5 Hcv)
    as (fi & s7 & Hfi & Hsub7 & Hfi7 & Hf7 & Hfr7 & Ha7 & Hb7 & Hc7).
  exists li, ci, fi,
    (set_frame (<["final_image" := LImage fi]> (st_frame s7)) s7).
  split.
  - unfold prepare, bind.
    change (new_frame s) with (inr tt : exn + unit, s0, @nil event). cbv beta iota.
    rewrite Hseed. cbv beta iota.
    change (emit (EvPrint ("Using seed: " +:+ pretty (seed_of r s))) s1)
      with (inr tt : exn + unit, s1, [EvPrint ("Using seed: " +:+ pretty (seed_of r s))]).
    cbv beta iota. rewrite (manual_seed_run r s s1 Hseedok). cbv beta iota.
    rewrite (assign_run _ _ s1). cbv beta iota. fold s2.
    rewrite Hp, Hli. cbv beta iota. rewrite (assign_run _ _ s3). cbv beta iota. fold s4.
    rewrite Hci. cbv beta iota. rewrite (assign_run _ _ s5). cbv beta iota. fold s6.
    rewrite Hfi. cbv beta iota. rewrite (assign_run _ _ s7). cbv beta iota.
    unfold ret. simpl. now rewrite !app_nil_r.
  - assert (Hsub : st_heap s ⊆ st_heap s7).
    { change (st_heap s2) with (st_heap s1) in Hsub3. rewrite Hh1 in Hsub3.
      transitivity (st_heap s3); [exact Hsub3|].
      transitivity (st_heap s5); [exact Hsub5 | exact Hsub7]. }
    split; [exact Hsub|]. simpl.
    split. { eapply lookup_weaken; [|exact Hsub7]. eapply lookup_weaken; [|exact Hsub5].
             exact Hli3. }
    split; [exact Hfi7|].
    split. { rewrite Hf7. simpl. rewrite Hf5. simpl. rewrite Hf3. simpl. now rewrite Hf1. }
    split. { rewrite Hfr7. simpl. rewrite Hfr5. simpl. rewrite Hfr3. simpl.
             now rewrite Hfr1. }
    split; [|split].
    + rewrite Ha7. simpl. rewrite Ha5. simpl. rewrite Ha3. simpl. now rewrite Ha1.
    + rewrite Hb7. simpl. rewrite Hb5. simpl. rewrite Hb3. simpl. now rewrite Hb1.
    + rewrite Hc7. simpl. rewrite Hc5. simpl. rewrite Hc3. simpl. now rewrite Hc1.
Qed.

(** Lines 208-215 on a mask that passes the checks. *)
Lemma select_pipe_run (r : request) (li : nat) (args : gmap string value)
    (img : Image) (s : state) :
  st_heap s !! li = Some (loaded_as ext img) ->
  mask_ok r s img ->
  exists omi s',
    select_pipe ext r li args s =
      (inr (selected_kind r,
            match omi with
            | Some mi => <["mask_image" := VImage mi]> args
            | None => args
            end), s', []) /\
    (omi = None <-> mask r = None) /\
    st_heap s ⊆ st_heap s' /\
    (forall mi, omi = Some mi ->
       exists m msk, mask r = Some m /\ st_fs s !! m = Some (ImageFile msk) /\
                     st_heap s' !! mi = Some (loaded_as ext msk)) /\
    st_fs s' !! "/tmp/image.png" = st_fs s !! default "/tmp/image.png" (mask r) /\
    (forall q, q <> "/tmp/image.png" -> st_fs s' !! q = st_fs s !! q) /\
    st_frame s' =
      match omi with
      | Some mi => <["mask_image" := LImage mi]> (st_frame s)
      | None => st_frame s
      end /\
    img2img_pipe s' = img2img_pipe s /\ inpaint_pipe s' = inpaint_pipe s /\
    controlnet s' = controlnet s.
Proof.
  intros Hli Hok. unfold select_pipe, selected_kind, mask_ok in *.
  destruct (mask r) as [m|].
  - destruct Hok as (Hmt & Hres & msk & Hfm & Hsz).
    destruct (load_image_run ext m msk s Hfm Hmt)
      as (mi & s1 & Hmi & Hsub & Hmi1 & Hf1 & Hfr1 & Ha1 & Hb1 & Hc1).
    exists (Some mi), (set_frame (<["mask_image" := LImage mi]> (st_frame s1)) s1).
    split.
    + rewrite (bind_pure _ _ _ _ _ Hmi).
      rewrite (bind_pure _ _ _ _ _ (assign_run _ _ _)).
      rewrite (bool_decide_eq_true_2 _ Hres). change (negb true) with false.
      cbv iota.
      set (s2 := set_frame _ s1).
      rewrite (bind_pure _ _ _ _ _ (deref_run mi _ s2 Hmi1)).
      assert (Hli1 : st_heap s2 !! li = Some (loaded_as ext img))
        by (eapply lookup_weaken; eassumption).
      rewrite (bind_pure _ _ _ _ _ (deref_run li _ s2 Hli1)).
      unfold loaded_as. rewrite !convert_image_size, Hsz.
      rewrite bool_decide_true by reflexivity. reflexivity.
    + split; [split; discriminate|]. split; [exact Hsub|]. simpl.
      split. { intros ? [= <-]. exists m, msk. auto. }
      rewrite Hf1, Hfr1.
      split; [now rewrite lookup_insert_eq, Hfm|].
      split; [intros q Hq; now rewrite lookup_insert_ne|].
      auto.
  - exists None, s. repeat split; try reflexivity. discriminate.
Qed.

(** Lines 217-219 with a scheduler the registry has. *)
Lemma configure_run (pipe : pipe_kind) (name : string) (cls : scheduler_class)
    (k : M (list string)) (s : state) :
  SCHEDULERS !! name = Some cls ->
  exists s',
    bind (clear_safety_checker pipe)
         (fun _ => bind (replace_scheduler pipe name)
                        (fun _ => bind (enable_xformers_memory_efficient_attention pipe)
                                       (fun _ => k))) s = k s' /\
    get_pipe pipe s' = configured (get_pipe pipe s) cls /\
    get_pipe (other_kind pipe) s' = get_pipe (other_kind pipe) s /\
    controlnet s' = switched (controlnet s) /\
    st_heap s' = st_heap s /\ st_fs s' = st_fs s /\ st_frame s' = st_frame s.
Proof.
  intros Hcls.
  exists (set_controlnet (switched (controlnet s))
            (set_pipe pipe (configured (get_pipe pipe s) cls) s)).
  split.
  - unfold replace_scheduler. rewrite Hcls.
    unfold bind, clear_safety_checker, enable_xformers_memory_efficient_attention,
      get, put, configured, switched.
    destruct pipe; cbn -[app]; now destruct (k _) as [[? ?] ?].
  - destruct pipe; repeat split.
Qed.

(** Line 220: the call is recorded, then the pipeline returns images or
    raises. *)
Lemma call_pipe_run (pipe : pipe_kind) (args : gmap string value) (s : state) :
  match ext_diffusion ext pipe (get_pipe pipe s) args (st_heap s) with
  | Some samples =>
      exists refs s',
        call_pipe ext pipe args s =
          (inr refs, s', [EvInference pipe (get_pipe pipe s) args]) /\
        st_heap s ⊆ st_heap s' /\ rest_same s s' /\ st_fs s' = st_fs s /\
        Forall2 (fun ref img => st_heap s' !! ref = Some img) refs samples
  | None =>
      call_pipe ext pipe args s =
        (inl (ModelError "pipeline"), s, [EvInference pipe (get_pipe pipe s) args])
  end.
Proof.
  unfold call_pipe, bind, get, emit, raise.
  destruct (ext_diffusion ext pipe (get_pipe pipe s) args (st_heap s)) as [samples|];
    [|reflexivity].
  destruct (alloc_all_spec samples s) as (refs & s' & Hrun & H).
  exists refs, s'. rewrite Hrun. split; [reflexivity | exact H].
Qed.

(** Lines 217-236 from a frame that holds the names cleaned up at the end:
    the pipeline is configured and called; if the call returns, its images
    are saved and the locals deleted. *)
Lemma predict_tail_run (r : request) (pipe : pipe_kind)
    (args : gmap string value) (cls : scheduler_class) (s : state) :
  SCHEDULERS !! scheduler r = Some cls ->
  prepared_frame (st_frame s) ->
  (mask r <> None -> is_Some (st_frame s !! "mask_image")) ->
  let cfg := configured (get_pipe pipe s) cls in
  exists s',
    st_heap s ⊆ st_heap s' /\
    get_pipe pipe s' = cfg /\
    get_pipe (other_kind pipe) s' = get_pipe (other_kind pipe) s /\
    controlnet s' = switched (controlnet s) /\
    match ext_diffusion ext pipe cfg args (st_heap s) with
    | Some samples =>
        predict_tail ext r pipe args s =
          (inr (map out_path (seq 0 (length samples))), s',
           [EvInference pipe cfg args; EvEmptyCache]) /\
        (forall k img, samples !! k = Some img ->
                       st_fs s' !! out_path k = Some (ImageFile img)) /\
        (forall q, (forall k, (k < length samples)%nat -> q <> out_path k) ->
                   st_fs s' !! q = st_fs s !! q)
    | None =>
        predict_tail ext r pipe args s =
          (inl (ModelError "pipeline"), s', [EvInference pipe cfg args]) /\
        st_fs s' = st_fs s
    end.
Proof.
  intros Hcls Hframe Hmask cfg. unfold predict_tail.
  match goal with |- context [bind (clear_safety_checker pipe) (fun _ => bind _ (fun _ => bind _ (fun _ => ?k)))] =>
    destruct (configure_run pipe (scheduler r) cls k s Hcls)
      as (s1 & Hcfg & Hp1 & Ho1 & Hcn1 & Hh1 & Hf1 & Hfr1) end.
  fold cfg in Hp1.
  pose proof (call_pipe_run pipe args s1) as Hcall. rewrite Hp1, Hh1 in Hcall.
  destruct (ext_diffusion ext pipe cfg args (st_heap s)) as [samples|].
  2:{ exists s1. rewrite Hh1. split; [reflexivity|].
      repeat (split; [assumption|]). split; [|exact Hf1].
      rewrite Hcfg. now apply bind_fail. }
  destruct Hcall as (refs & s2 & Hrefs & Hsub2 & (Hfr2 & Ha2 & Hb2 & Hc2) & Hf2 & Hall).
  set (s3 := set_frame (<["outputs" := LOutputs refs]> (st_frame s2)) s2).
  destruct (save_outputs_spec refs samples 0 s3 Hall)
    as (s4 & Hsave & Hh4 & (Hfr4 & Ha4 & Hb4 & Hc4) & Hfiles & Hother).
  assert (Hlen : length refs = length samples) by (eapply Forall2_length; eassumption).
  destruct (cleanup_runs r s4) as (s5 & Hclean & Hh5 & Hf5 & Ha5 & Hb5 & Hc5).
  { rewrite Hfr4. simpl. rewrite Hfr2, Hfr1.
    destruct Hframe as (Hg & Hl & Hc & Hf).
    repeat split; rewrite lookup_insert_ne by discriminate; assumption. }
  { rewrite Hfr4. simpl. rewrite lookup_insert_eq. now eexists. }
  { intros Hm. rewrite Hfr4. simpl. rewrite lookup_insert_ne by discriminate.
    rewrite Hfr2, Hfr1. now apply Hmask. }
  exists s5.
  rewrite Hh5, Hh4. simpl. split; [exact Hsub2|].
  split; [destruct pipe; simpl in *; congruence|].
  split; [destruct pipe; simpl in *; congruence|].
  split; [simpl in *; congruence|].
  split; [|split].
  - rewrite Hcfg.
    change [EvInference pipe cfg args; EvEmptyCache]
      with ([EvInference pipe cfg args] ++ [EvEmptyCache]).
    eapply bind_ok_eq; [exact Hrefs|].
    rewrite (bind_pure _ _ _ _ _ (assign_run _ _ _)). fold s3.
    rewrite (bind_pure _ _ _ _ _ Hsave).
    unfold bind at 1. rewrite Hclean. unfold ret. cbv beta iota.
    now rewrite Hlen.
  - intros k img Hk. rewrite Hf5. now apply (Hfiles k img).
  - intros q Hq. rewrite Hf5, Hother.
    + simpl. now rewrite Hf2, Hf1.
    + intros k Hk. apply Hq. now rewrite <- Hlen.
Qed.

(** A request whose run goes through to the inference call: the image can
    be read and its conditioning image made, the mask (if any) passes the
    checks, and the scheduler is in the registry.  The whole run of
    [predict]. *)
Lemma predict_run (r : request) (s : state) (p : string) (img ctrl : Image)
    (cv : ndarray) (cls : scheduler_class) :
  image r = Some p -> p <> "/tmp/image.png" ->
  st_fs s !! p = Some (ImageFile img) ->
  seed_ok r ->
  conditioning_image ext (resolution r) (loaded_as ext img) = inr ctrl ->
  pil_to_cv ctrl = inr cv ->
  mask_ok r s img ->
  SCHEDULERS !! scheduler r = Some cls ->
  let pipe := selected_kind r in
  let cfg := configured (get_pipe pipe s) cls in
  let pre := EvPrint ("Using seed: " +:+ pretty (seed_of r s)) ::
             conditioning_calls ext (resolution r) (loaded_as ext img) in
  exists fi omi heap s',
    st_heap s ⊆ heap /\ heap ⊆ st_heap s' /\
    heap !! fi = Some (hdr_image ext cv (hdr r)) /\
    (omi = None <-> mask r = None) /\
    (forall mi, omi = Some mi ->
       exists m msk, mask r = Some m /\ st_fs s !! m = Some (ImageFile msk) /\
                     heap !! mi = Some (loaded_as ext msk)) /\
    get_pipe pipe s' = cfg /\
    get_pipe (other_kind pipe) s' = get_pipe (other_kind pipe) s /\
    controlnet s' = switched (controlnet s) /\
    st_fs s' !! "/tmp/image.png" = st_fs s !! default p (mask r) /\
    match ext_diffusion ext pipe cfg (call_args r fi (seed_of r s) omi) heap with
    | Some samples =>
        predict ext r s =
          (inr (map out_path (seq 0 (length samples))), s',
           pre ++ [EvInference pipe cfg (call_args r fi (seed_of r s) omi);
                   EvEmptyCache]) /\
        (forall k sample, samples !! k = Some sample ->
           st_fs s' !! out_path k = Some (ImageFile sample)) /\
        (forall q, q <> "/tmp/image.png" ->
           (forall k, (k < length samples)%nat -> q <> out_path k) ->
           st_fs s' !! q = st_fs s !! q)
    | None =>
        predict ext r s =
          (inl (ModelError "pipeline"), s',
           pre ++ [EvInference pipe cfg (call_args r fi (seed_of r s) omi)]) /\
        (forall q, q <> "/tmp/image.png" -> st_fs s' !! q = st_fs s !! q)
    end.
Proof.
  intros Hp Hpt Hfp Hseedok Hctrl Hcv Hmask Hcls pipe cfg pre.
  destruct (prepare_run r s p img ctrl cv Hp Hpt Hfp Hseedok Hctrl Hcv)
    as (li & ci & fi & s1 & Hprep & Hsub1 & Hli & Hfi & Hf1 & Hfr1 & Ha1 & Hb1 & Hc1).
  assert (Hmask1 : mask_ok r s1 img).
  { unfold mask_ok in *. destruct (mask r) as [m|]; [|exact I].
    destruct Hmask as (Hmt & Hres & msk & Hfm & Hsize).
    split; [exact Hmt|]. split; [exact Hres|]. exists msk.
    split; [|exact Hsize]. rewrite Hf1, lookup_insert_ne by congruence. exact Hfm. }
  destruct (select_pipe_run r li (base_args r fi (seed_of r s)) img s1 Hli Hmask1)
    as (omi & s2 & Hsel & Homi & Hsub2 & Hmi & Hscr2 & Hf2 & Hfr2 & Ha2 & Hb2 & Hc2).
  assert (Hget : forall k, get_pipe k s2 = get_pipe k s)
    by (intros [|]; simpl; congruence).
  destruct (predict_tail_run r pipe (call_args r fi (seed_of r s) omi)
              cls s2 Hcls)
    as (s3 & Hsub3 & Hsel3 & Hoth3 & Hcn3 & Htail).
  { rewrite Hfr2, Hfr1. unfold prepared_frame.
    destruct omi; repeat split; simplify_map_eq; now eexists. }
  { intros Hm. rewrite Hfr2. destruct omi as [mi|].
    - rewrite lookup_insert_eq. now eexists.
    - now destruct Hm; apply Homi. }
  rewrite !Hget in *. fold cfg in Hsel3, Htail.
  assert (Hscr1 : st_fs s2 !! "/tmp/image.png" = st_fs s !! default p (mask r)).
  { rewrite Hscr2, Hf1. unfold mask_ok in Hmask.
    destruct (mask r) as [m|]; simpl.
    - destruct Hmask as (Hmt & _). now rewrite lookup_insert_ne by congruence.
    - now rewrite lookup_insert_eq. }
  assert (Hsplit : forall (x : exn + list string) (s' : state) (tl : list event),
            predict_tail ext r pipe (call_args r fi (seed_of r s) omi) s2 = (x, s', tl) ->
            predict ext r s = (x, s', pre ++ tl)).
  { intros x s' tl Htl. rewrite predict_split.
    eapply bind_ok_eq; [exact Hprep|]. cbn [fst snd].
    rewrite (bind_pure _ _ _ _ _ Hsel). exact Htl. }
  exists fi, omi, (st_heap s2), s3.
  split; [etransitivity; eassumption|]. split; [exact Hsub3|].
  split; [eapply lookup_weaken; eassumption|].
  split; [exact Homi|].
  split.
  { intros mi Hmi'. destruct (Hmi mi Hmi') as (m & msk & Hm & Hfm & Hheap).
    exists m, msk. split; [exact Hm|]. split; [|exact Hheap].
    unfold mask_ok in Hmask. rewrite Hm in Hmask.
    destruct Hmask as (Hmt & _).
    now rewrite Hf1, lookup_insert_ne in Hfm by congruence. }
  split; [exact Hsel3|]. split; [exact Hoth3|].
  split; [congruence|].
  destruct (ext_diffusion ext pipe cfg (call_args r fi (seed_of r s) omi) (st_heap s2))
    as [samples|].
  - destruct Htail as (Htail & Hfiles & Hother).
    split; [|split; [exact (Hsplit _ _ _ Htail)|split; [exact Hfiles|]]].
    + rewrite Hother by (intros k _; apply not_eq_sym, out_path_not_scratch).
      exact Hscr1.
    + intros q Hq Hout. rewrite (Hother q Hout), (Hf2 q Hq), Hf1.
      now rewrite lookup_insert_ne by congruence.
  - destruct Htail as (Htail & Hfs).
    split; [now rewrite Hfs|]. split; [exact (Hsplit _ _ _ Htail)|].
    intros q Hq. rewrite Hfs, (Hf2 q Hq), Hf1.
    now rewrite lookup_insert_ne by congruence.
Qed.

End Served2.

(* ================================================================== *)
(** * What a served request does *)
(* ================================================================== *)

Section Service.

Variable ext : externals.

Lemma filter_super_res_inference (pre : list event) :
  Forall (fun ev => is_super_res ev = true) pre ->
  filter (fun ev => is_inference ev = true) pre = [].
Proof.
  induction 1 as [|ev pre Hev _ IH]; [reflexivity|].
  rewrite filter_cons_False; [exact IH|].
  destruct ev; simpl in *; congruence.
Qed.

(** X9.  Lines 194-220.  Take a request whose run goes through to line 220:
    the image file can be read, the seed is one [manual_seed] takes, the
    conditioning image [ctrl] can be made and OpenCV takes it as the array
    [cv], the mask (if any) passes the two checks and the scheduler is in the
    registry.  It makes exactly one inference call.  The call goes to the
    inpainting pipeline when there is a mask and to the image-to-image
    pipeline otherwise; at that moment the pipeline has no safety checker, a
    scheduler of the class asked for built from the configuration of the
    scheduler it had, and the attention optimisation on.  The arguments are
    the ten of lines 194-205, with the same image object under "image" and
    "control_image": the image line 192 made of the conditioning image.
    "mask_image" is added exactly when there is a mask, and is the mask file
    loaded as RGB.  Whether the call returns or raises, the selected pipeline
    stays configured this way and the attributes of the other pipeline are as
    they were; the ControlNet the two share has the attention optimisation
    on. *)
Theorem predict_inference_call (r : request) (s : state) (p : string)
    (img ctrl : Image) (cv : ndarray) (cls : scheduler_class) :
  image r = Some p -> p <> "/tmp/image.png" ->
  st_fs s !! p = Some (ImageFile img) ->
  seed_ok r ->
  conditioning_image ext (resolution r) (loaded_as ext img) = inr ctrl ->
  pil_to_cv ctrl = inr cv ->
  mask_ok r s img ->
  SCHEDULERS !! scheduler r = Some cls ->
  let run := predict ext r s in
  let pipe := selected_kind r in
  let cfg := configured (get_pipe pipe s) cls in
  exists fi omi,
    filter (fun ev => is_inference ev = true) (events run) =
      [EvInference pipe cfg (call_args r fi (seed_of r s) omi)] /\
    st_heap (final run) !! fi = Some (hdr_image ext cv (hdr r)) /\
    (omi = None <-> mask r = None) /\
    (forall mi, omi = Some mi ->
       exists m msk, mask r = Some m /\ st_fs s !! m = Some (ImageFile msk) /\
                     st_heap (final run) !! mi = Some (loaded_as ext msk)) /\
    get_pipe pipe (final run) = cfg /\
    get_pipe (other_kind pipe) (final run) = get_pipe (other_kind pipe) s /\
    controlnet (final run) = switched (controlnet s).
Proof.
  intros Hp Hpt Hfp Hseed Hctrl Hcv Hmask Hcls run pipe cfg.
  destruct (predict_run ext r s p img ctrl cv cls Hp Hpt Hfp Hseed Hctrl Hcv Hmask Hcls)
    as (fi & omi & heap & s' & _ & Hsub & Hfi & Homi & Hmi & Hsel & Hoth
        & Hcn & _ & Hrun).
  fold pipe cfg in Hrun.
  assert (Hfil : forall tl,
            filter (fun ev => is_inference ev = true)
              ((EvPrint ("Using seed: " +:+ pretty (seed_of r s)) ::
                conditioning_calls ext (resolution r) (loaded_as ext img)) ++ tl) =
            filter (fun ev => is_inference ev = true) tl).
  { intros tl. rewrite filter_app, filter_cons_False by (simpl; congruence).
    now rewrite (filter_super_res_inference _ (conditioning_calls_super_res ext _ _)). }
  assert (Hfinal : final run = s' /\
                   filter (fun ev => is_inference ev = true) (events run) =
                     [EvInference pipe cfg (call_args r fi (seed_of r s) omi)]).
  { unfold run.
    destruct (ext_diffusion ext pipe cfg (call_args r fi (seed_of r s) omi) heap);
      destruct Hrun as (-> & _); unfold final, events; cbn [fst snd];
      (split; [reflexivity|]); rewrite Hfil; reflexivity. }
  destruct Hfinal as [-> Hev].
  exists fi, omi. split; [exact Hev|].
  split; [eapply lookup_weaken; eassumption|].
  split; [exact Homi|].
  split; [|split; [|split]; assumption].
  intros mi Hmi'. destruct (Hmi mi Hmi') as (m & msk & Hm & Hfm & Hheap).
  exists m, msk. split; [exact Hm|]. split; [exact Hfm|].
  eapply lookup_weaken; eassumption.
Qed.

(** X10.  Lines 220-225 and 236.  For the same requests, what [predict] leaves
    on disk is decided by its one inference call.  If the call returns,
    [predict] returns the paths /tmp/out-0.png, /tmp/out-1.png, ... in this
    order, one for each image the pipeline produced; the file at the k-th
    path holds the k-th image, and no other file has changed but the scratch
    file: in particular an output file of an earlier request with a higher
    number than this run produced is still there.  If the call raises,
    [predict] raises what it raised and no output file is written.  Either
    way the scratch file /tmp/image.png is left holding a copy of the file
    loaded last (the mask if there is one, the image otherwise). *)
Theorem predict_output_files (r : request) (s : state) (p : string)
    (img ctrl : Image) (cv : ndarray) (cls : scheduler_class) :
  image r = Some p -> p <> "/tmp/image.png" ->
  st_fs s !! p = Some (ImageFile img) ->
  seed_ok r ->
  conditioning_image ext (resolution r) (loaded_as ext img) = inr ctrl ->
  pil_to_cv ctrl = inr cv ->
  mask_ok r s img ->
  SCHEDULERS !! scheduler r = Some cls ->
  let run := predict ext r s in
  let pipe := selected_kind r in
  let cfg := configured (get_pipe pipe s) cls in
  exists args heap,
    EvInference pipe cfg args ∈ events run /\
    st_heap s ⊆ heap /\
    st_fs (final run) !! "/tmp/image.png" = st_fs s !! default p (mask r) /\
    match ext_diffusion ext pipe cfg args heap with
    | Some samples =>
        outcome run = inr (map out_path (seq 0 (length samples))) /\
        (forall k sample, samples !! k = Some sample ->
           st_fs (final run) !! out_path k = Some (ImageFile sample)) /\
        (forall q, q <> "/tmp/image.png" ->
           (forall k, (k < length samples)%nat -> q <> out_path k) ->
           st_fs (final run) !! q = st_fs s !! q) /\
        (forall k, (length samples <= k)%nat ->
           st_fs (final run) !! out_path k = st_fs s !! out_path k)
    | None =>
        outcome run = inl (ModelError "pipeline") /\
        (forall q, q <> "/tmp/image.png" ->
           st_fs (final run) !! q = st_fs s !! q)
    end.
Proof.
  intros Hp Hpt Hfp Hseed Hctrl Hcv Hmask Hcls run pipe cfg.
  destruct (predict_run ext r s p img ctrl cv cls Hp Hpt Hfp Hseed Hctrl Hcv Hmask Hcls)
    as (fi & omi & heap & s' & Hsub & _ & _ & _ & _ & _ & _ & _ & Hscratch & Hrun).
  fold pipe cfg in Hrun.
  exists (call_args r fi (seed_of r s) omi), heap. unfold run.
  destruct (ext_diffusion ext pipe cfg (call_args r fi (seed_of r s) omi) heap)
    as [samples|].
  - destruct Hrun as (-> & Hfiles & Hother). unfold outcome, final, events. simpl.
    split. { apply elem_of_cons. right. apply elem_of_app. right. apply elem_of_cons.
             now left. }
    split; [exact Hsub|]. split; [exact Hscratch|].
    split; [reflexivity|]. split; [exact Hfiles|]. split; [exact Hother|].
    intros k Hk. apply Hother; [apply out_path_not_scratch|].
    intros j Hj Heq. apply out_path_inj in Heq. lia.
  - destruct Hrun as (-> & Hother). unfold outcome, final, events. simpl.
    split. { apply elem_of_cons. right. apply elem_of_app. right. apply elem_of_cons.
             now left. }
    split; [exact Hsub|]. split; [exact Hscratch|].
    split; [reflexivity | exact Hother].
Qed.

(** Lines 217-218 for a scheduler name the registry does not have. *)
Lemma predict_tail_unknown (r : request) (pipe : pipe_kind)
    (args : gmap string value) (s : state) :
  SCHEDULERS !! scheduler r = None ->
  predict_tail ext r pipe args s =
    (inl (KeyError (scheduler r)),
     set_pipe pipe (unchecked (get_pipe pipe s)) s, []).
Proof.
  intros Hnone. unfold predict_tail, replace_scheduler. rewrite Hnone.
  unfold bind, clear_safety_checker, get, put, raise. reflexivity.
Qed.

(** X11.  Lines 185-218 when [predict] is called directly with a scheduler name
    that is not in [SCHEDULERS], on a request whose run goes through up to
    there (as in X9).  The request fails with [KeyError] on line 218 only:
    after the seed was printed, the image (and the mask) loaded, the
    conditioning image made, with the super-resolution model if asked for,
    and the HDR effect applied.  By then line 217 has removed the safety
    checker of the selected pipeline, which stays removed; its scheduler, its
    attention switch, the other pipeline and the ControlNet are as before.
    No inference call is made and the locals stay bound. *)
Theorem predict_unknown_scheduler (r : request) (s : state) (p : string)
    (img ctrl : Image) (cv : ndarray) :
  image r = Some p -> p <> "/tmp/image.png" ->
  st_fs s !! p = Some (ImageFile img) ->
  seed_ok r ->
  conditioning_image ext (resolution r) (loaded_as ext img) = inr ctrl ->
  pil_to_cv ctrl = inr cv ->
  mask_ok r s img ->
  SCHEDULERS !! scheduler r = None ->
  let pipe := selected_kind r in
  exists s',
    predict ext r s =
      (inl (KeyError (scheduler r)), s',
       EvPrint ("Using seed: " +:+ pretty (seed_of r s)) ::
       conditioning_calls ext (resolution r) (loaded_as ext img)) /\
    get_pipe pipe s' = unchecked (get_pipe pipe s) /\
    get_pipe (other_kind pipe) s' = get_pipe (other_kind pipe) s /\
    controlnet s' = controlnet s /\
    prepared_frame (st_frame s').
Proof.
  intros Hp Hpt Hfp Hseed Hctrl Hcv Hmask Hnone pipe.
  destruct (prepare_run ext r s p img ctrl cv Hp Hpt Hfp Hseed Hctrl Hcv)
    as (li & ci & fi & s1 & Hprep & Hsub1 & Hli & Hfi & Hf1 & Hfr1 & Ha1 & Hb1 & Hc1).
  assert (Hmask1 : mask_ok r s1 img).
  { unfold mask_ok in *. destruct (mask r) as [m|]; [|exact I].
    destruct Hmask as (Hmt & Hres & msk & Hfm & Hsize).
    split; [exact Hmt|]. split; [exact Hres|]. exists msk.
    split; [|exact Hsize]. rewrite Hf1, lookup_insert_ne by congruence. exact Hfm. }
  destruct (select_pipe_run ext r li (base_args r fi (seed_of r s)) img s1 Hli Hmask1)
    as (omi & s2 & Hsel & Homi & Hsub2 & Hmi & Hscr2 & Hf2 & Hfr2 & Ha2 & Hb2 & Hc2).
  eexists. split.
  - rewrite predict_split.
    rewrite <- (app_nil_r (EvPrint _ :: _)).
    eapply bind_ok_eq; [exact Hprep|]. cbn [fst snd].
    rewrite (bind_pure _ _ _ _ _ Hsel). cbn [fst snd].
    apply predict_tail_unknown. exact Hnone.
  - simpl.
    assert (Hframe : prepared_frame (st_frame s2)).
    { rewrite Hfr2, Hfr1. unfold prepared_frame.
      destruct omi; repeat split; simplify_map_eq; now eexists. }
    unfold pipe. destruct (selected_kind r); simpl;
      repeat split; try congruence; apply Hframe.
Qed.

End Service.

(* ================================================================== *)
(** * Every run of [predict] *)
(* ================================================================== *)

Lemma orderly_bind {A B} (m : M A) (f : A -> M B) :
  orderly m -> (forall x, orderly (f x)) -> orderly (bind m f).
Proof.
  intros Hm Hf s. specialize (Hm s). unfold bind.
  destruct (m s) as [[[e|x] s1] ev1].
  { unfold final, events, outcome in *. simpl in *.
    destruct Hm as (Ha1 & Hb1 & Hc1 & Hd1 & He1 & Hx1).
    repeat (split; [assumption|]). intros e0 [= <-]. now apply Hx1. }
  specialize (Hf x s1). destruct (f x s1) as [[r s2] ev2].
  unfold final, events, outcome in *. simpl in *.
  destruct Hm as (Ha1 & Hb1 & Hc1 & Hd1 & He1 & _).
  destruct Hf as (Ha2 & Hb2 & Hc2 & Hd2 & He2 & Hx2).
  split; [congruence|]. split; [congruence|]. split; [congruence|].
  split; [etransitivity; eassumption|].
  split; [now apply Forall_app | exact Hx2].
Qed.

(** Closes the goal for a step written as a function of the state. *)
Ltac orderly_step :=
  intros ?; repeat first [case_bool_decide | case_match];
  unfold final, events, outcome; simpl;
  (split; [reflexivity|]); (split; [reflexivity|]); (split; [reflexivity|]);
  (split; [try reflexivity; try apply dom_insert_subseteq|]);
  (split; [repeat constructor|]);
  try (intros ? [= <-]; reflexivity); try discriminate.

Lemma orderly_ret {A} (x : A) : orderly (ret x).
Proof. orderly_step. Qed.

Lemma orderly_raise {A} (e : exn) : lookup_error e = false -> orderly (@raise A e).
Proof. intros He. orderly_step. now intros ? [= <-]. Qed.

Lemma orderly_emit (ev : event) : is_inference ev = false -> orderly (emit ev).
Proof. intros Hev. orderly_step. exact Hev. Qed.

Lemma orderly_alloc (img : Image) : orderly (alloc img).
Proof. orderly_step. Qed.

Lemma orderly_deref (ref : nat) : orderly (deref ref).
Proof. unfold deref. orderly_step. Qed.

Lemma orderly_assign (name : string) (v : local) : orderly (assign name v).
Proof. unfold assign. orderly_step. Qed.

Lemma orderly_copyfile (src dst : string) : orderly (copyfile src dst).
Proof. unfold copyfile. orderly_step. Qed.

Lemma orderly_read_image (path : string) : orderly (read_image path).
Proof. unfold read_image. orderly_step. Qed.

Lemma orderly_urandom (n : nat) : orderly (urandom n).
Proof. orderly_step. Qed.

Lemma orderly_manual_seed (seed : Z) : orderly (manual_seed seed).
Proof. unfold manual_seed. orderly_step. Qed.

(** Line 97 fails with OpenCV's error only. *)
Lemma pil_to_cv_error (img : Image) (e : exn) :
  pil_to_cv img = inl e -> lookup_error e = false.
Proof. unfold pil_to_cv. case_match; now intros [= <-]. Qed.

(** The arithmetic of line 74 and 75 fails with an arithmetic error only. *)
Lemma float_of_int_error (z : Z) (e : exn) :
  float_of_int z = inl e -> lookup_error e = false.
Proof. unfold float_of_int. destruct (float_of_Z z); now intros [= <-]. Qed.

Lemma truediv_int_error (x : spec_float) (z : Z) (e : exn) :
  truediv_int x z = inl e -> lookup_error e = false.
Proof.
  unfold truediv_int. destruct (float_of_int z) as [e'|fz] eqn:Hz.
  - intros [= <-]. eapply float_of_int_error; eassumption.
  - destruct (is_zero fz); now intros [= <-].
Qed.

Lemma round_to_64_error (dim : Z) (sf : spec_float) (e : exn) :
  round_to_64 dim sf = inl e -> lookup_error e = false.
Proof.
  unfold round_to_64, int_mul_float.
  destruct (float_of_int dim) as [e'|fz] eqn:Hz.
  - intros [= <-]. eapply float_of_int_error; eassumption.
  - destruct (truediv_int _ 64) as [e'|u] eqn:Hu.
    + intros [= <-]. eapply truediv_int_error; eassumption.
    + unfold py_round. destruct u; try discriminate; now intros [= <-].
Qed.

Lemma orderly_lift {A} (x : exn + A) :
  (forall e, x = inl e -> lookup_error e = false) -> orderly (lift x).
Proof.
  intros Hx. destruct x as [e|a]; [|apply orderly_ret].
  apply orderly_raise. now apply Hx.
Qed.

Create HintDb orderly.

#[local] Hint Resolve orderly_ret orderly_alloc orderly_deref orderly_assign
  orderly_copyfile orderly_read_image orderly_urandom orderly_manual_seed : orderly.

Ltac orderly :=
  repeat first
    [ apply orderly_bind; [|intros ?]
    | progress auto with orderly
    | apply orderly_raise; reflexivity
    | apply orderly_emit; reflexivity
    | apply orderly_lift;
      first [apply truediv_int_error | apply round_to_64_error | apply pil_to_cv_error]
    | match goal with
      | |- orderly (if ?b then _ else _) => destruct b
      | |- orderly (let '(_, _) := ?x in _) => destruct x
      | |- orderly (match ?x with _ => _ end) => destruct x
      end ].

Lemma bind_inv {A B} (m : M A) (f : A -> M B) (s s' : state) (y : B)
    (ev : list event) :
  bind m f s = (inr y, s', ev) ->
  exists x s1 ev1 ev2,
    m s = (inr x, s1, ev1) /\ f x s1 = (inr y, s', ev2) /\ ev = ev1 ++ ev2.
Proof.
  unfold bind. destruct (m s) as [[[e|x] s1] ev1]; [discriminate|].
  destruct (f x s1) as [[r s2] ev2] eqn:Hf. intros [= -> -> <-].
  exists x, s1, ev1, ev2. auto.
Qed.

Lemma orderly_run {A} (m : M A) (s s' : state) (x : exn + A) (ev : list event) :
  orderly m -> m s = (x, s', ev) ->
  img2img_pipe s' = img2img_pipe s /\ inpaint_pipe s' = inpaint_pipe s /\
  controlnet s' = controlnet s /\
  dom (st_frame s) ⊆ dom (st_frame s') /\
  Forall (fun ev => is_inference ev = false) ev /\
  (forall e, x = inl e -> lookup_error e = false).
Proof. intros Hm Hrun. specialize (Hm s). now rewrite Hrun in Hm. Qed.

Section Every.

Variable ext : externals.

Lemma orderly_load_image (path : option string) : orderly (load_image ext path).
Proof. unfold load_image, pil_convert. orderly. Qed.

Lemma orderly_resize (ref : nat) (resolution : string) :
  orderly (resize_for_condition_image ext ref resolution).
Proof.
  unfold resize_for_condition_image, pil_copy, pil_convert, pil_resize,
    esrgan_model, esrgan_predict.
  rewrite ESRGAN_models_2. orderly.
Qed.

Lemma orderly_create_hdr_effect (ref : nat) (h : spec_float) :
  orderly (create_hdr_effect ext ref h).
Proof. unfold create_hdr_effect. orderly. Qed.

Lemma orderly_resolve_seed (seed : option Z) : orderly (resolve_seed seed).
Proof. unfold resolve_seed. orderly. Qed.

Lemma orderly_select_pipe (r : request) (li : nat) (args : gmap string value) :
  orderly (select_pipe ext r li args).
Proof. unfold select_pipe. pose proof orderly_load_image. orderly. Qed.

Lemma prepared_frame_mono (fr fr' : gmap string local) :
  dom fr ⊆ dom fr' -> prepared_frame fr -> prepared_frame fr'.
Proof.
  unfold prepared_frame. rewrite <- !elem_of_dom.
  intros Hsub (Hg & Hl & Hc & Hf).
  repeat split; eapply elem_of_weaken; eassumption.
Qed.

Lemma bound_after (name : string) (v : local) (fr fr' : gmap string local) :
  dom (<[name := v]> fr) ⊆ dom fr' -> name ∈ dom fr' /\ dom fr ⊆ dom fr'.
Proof.
  intros Hsub. split.
  - eapply elem_of_weaken; [|exact Hsub]. apply elem_of_dom.
    rewrite lookup_insert_eq. now eexists.
  - etransitivity; [apply dom_insert_subseteq | exact Hsub].
Qed.

Lemma deref_inv (ref : nat) (s s' : state) (img : Image) (ev : list event) :
  deref ref s = (inr img, s', ev) -> s' = s /\ ev = [].
Proof. unfold deref. case_match; now intros [= <- <- <-]. Qed.

(** What lines 185-192 leave behind, whatever the request and the state. *)
Lemma prepare_post (r : request) (s s' : state)
    (res : exn + Z * nat * nat) (ev : list event) :
  prepare ext r s = (res, s', ev) ->
  img2img_pipe s' = img2img_pipe s /\ inpaint_pipe s' = inpaint_pipe s /\
  controlnet s' = controlnet s /\
  Forall (fun ev => is_inference ev = false) ev /\
  (forall e, res = inl e -> lookup_error e = false) /\
  (forall x, res = inr x ->
     fst (fst x) = seed_of r s /\ prepared_frame (st_frame s')).
Proof.
  intros Hrun. unfold prepare in Hrun.
  rewrite (bind_pure _ _ s (set_frame ∅ s) tt eq_refl) in Hrun.
  set (s0 := set_frame ∅ s) in *.
  pose proof orderly_load_image as O1. pose proof orderly_resize as O2.
  pose proof orderly_create_hdr_effect as O3. pose proof orderly_resolve_seed as O4.
  match type of Hrun with ?K s0 = _ => assert (Hord : orderly K) by orderly end.
  destruct (orderly_run _ _ _ _ _ Hord Hrun) as (Ha & Hb & Hcn & _ & Hev & Herr).
  split; [exact Ha|]. split; [exact Hb|]. split; [exact Hcn|].
  split; [exact Hev|]. split; [exact Herr|].
  intros x ->. clear Hord Herr Hev.
  apply bind_inv in Hrun as (sd & s1 & ev1 & ev1' & Hseed & Hrun & _).
  destruct (resolve_seed_run r s0) as (s1' & Hseed' & _).
  change (seed_of r s0) with (seed_of r s) in Hseed'.
  rewrite Hseed' in Hseed. injection Hseed as <- <-.
  apply bind_inv in Hrun as ([] & s1b & ev2 & ev2' & Hemit & Hrun & _).
  injection Hemit as <-.
  apply bind_inv in Hrun as (gen & s1c & ev2b & ev2b' & Hms & Hrun & _).
  unfold manual_seed in Hms.
  destruct (seed_in_range (seed_of r s)); [|discriminate].
  injection Hms as <- <-.
  apply bind_inv in Hrun as ([] & s2 & ev3 & ev3' & Hgen & Hrun & _).
  injection Hgen as <-.
  apply bind_inv in Hrun as (li & s3 & ev4 & ev4' & Hli & Hrun & _).
  apply (orderly_run _ _ _ _ _ (O1 _)) in Hli as (_ & _ & _ & Hd3 & _).
  apply bind_inv in Hrun as ([] & s4 & ev5 & ev5' & Hal & Hrun & _).
  injection Hal as <-.
  apply bind_inv in Hrun as (ci & s5 & ev6 & ev6' & Hci & Hrun & _).
  apply (orderly_run _ _ _ _ _ (O2 _ _)) in Hci as (_ & _ & _ & Hd5 & _).
  apply bind_inv in Hrun as ([] & s6 & ev7 & ev7' & Hac & Hrun & _).
  injection Hac as <-.
  apply bind_inv in Hrun as (fi & s7 & ev8 & ev8' & Hfi & Hrun & _).
  apply (orderly_run _ _ _ _ _ (O3 _ _)) in Hfi as (_ & _ & _ & Hd7 & _).
  apply bind_inv in Hrun as ([] & s8 & ev9 & ev9' & Haf & Hrun & _).
  injection Haf as <-.
  injection Hrun as <- <-. split; [reflexivity|].
  simpl in *. unfold prepared_frame. rewrite <- !elem_of_dom.
  apply bound_after in Hd3 as [Hg Hd3]. apply bound_after in Hd5 as [Hl Hd5].
  apply bound_after in Hd7 as [Hc Hd7].
  assert (Hsub : dom (st_frame s7) ⊆ dom (<["final_image" := LImage fi]> (st_frame s7)))
    by apply dom_insert_subseteq.
  split; [|split; [|split]].
  - eapply elem_of_weaken; [|exact Hsub]. eapply elem_of_weaken; [|exact Hd7].
    eapply elem_of_weaken; [|exact Hd5]. exact Hg.
  - eapply elem_of_weaken; [|exact Hsub]. eapply elem_of_weaken; [|exact Hd7].
    exact Hl.
  - eapply elem_of_weaken; [|exact Hsub]. exact Hc.
  - apply elem_of_dom. rewrite lookup_insert_eq. now eexists.
Qed.

(** What lines 206-215 leave behind. *)
Lemma select_post (r : request) (li : nat) (args : gmap string value)
    (s s' : state) (res : exn + pipe_kind * gmap string value) (ev : list event) :
  select_pipe ext r li args s = (res, s', ev) ->
  img2img_pipe s' = img2img_pipe s /\ inpaint_pipe s' = inpaint_pipe s /\
  controlnet s' = controlnet s /\
  dom (st_frame s) ⊆ dom (st_frame s') /\
  Forall (fun ev => is_inference ev = false) ev /\
  (forall e, res = inl e -> lookup_error e = false) /\
  (forall x, res = inr x ->
     fst x = selected_kind r /\
     (exists omi,
        snd x = match omi with
                | Some mi => <["mask_image" := VImage mi]> args
                | None => args
                end /\
        (omi = None <-> mask r = None)) /\
     (mask r <> None -> is_Some (st_frame s' !! "mask_image"))).
Proof.
  intros Hrun.
  destruct (orderly_run _ _ _ _ _ (orderly_select_pipe r li args) Hrun)
    as (Ha & Hb & Hc & Hd & Hev & Herr).
  repeat (split; [assumption|]).
  intros x ->. unfold select_pipe, selected_kind in *.
  destruct (mask r) as [m|].
  - apply bind_inv in Hrun as (mi & s1 & ev1 & ev1' & Hmi & Hrun & _).
    apply bind_inv in Hrun as ([] & s2 & ev2 & ev2' & Has & Hrun & _).
    injection Has as <-.
    destruct (negb (bool_decide (resolution r = "original"))); [discriminate|].
    apply bind_inv in Hrun as (mimg & s3 & ev3 & ev3' & Hd1 & Hrun & _).
    apply deref_inv in Hd1 as [-> _].
    apply bind_inv in Hrun as (limg & s4 & ev4 & ev4' & Hd2 & Hrun & _).
    apply deref_inv in Hd2 as [-> _].
    destruct (negb (bool_decide (im_size mimg = im_size limg))); [discriminate|].
    injection Hrun as <- <-. simpl.
    split; [reflexivity|]. split.
    + exists (Some mi). split; [reflexivity|]. split; discriminate.
    + intros _. rewrite lookup_insert_eq. now eexists.
  - injection Hrun as <- <-. simpl.
    split; [reflexivity|]. split; [|intros Hm; now destruct Hm].
    exists None. split; [reflexivity|]. split; reflexivity.
Qed.

End Every.

Section EveryRun.

Variable ext : externals.

(** The four ways a run of [predict] can go: it fails before line 217; it
    fails on line 218 because the scheduler is unknown; it makes its one
    inference call, which raises; it makes its one inference call and
    returns. *)
Lemma predict_cases (r : request) (s : state) :
  (exists e s' ev,
     predict ext r s = (inl e, s', ev) /\ lookup_error e = false /\
     Forall (fun ev => is_inference ev = false) ev /\
     img2img_pipe s' = img2img_pipe s /\ inpaint_pipe s' = inpaint_pipe s /\
     controlnet s' = controlnet s) \/
  (exists s' ev,
     SCHEDULERS !! scheduler r = None /\
     predict ext r s = (inl (KeyError (scheduler r)), s', ev) /\
     Forall (fun ev => is_inference ev = false) ev /\
     get_pipe (selected_kind r) s' = unchecked (get_pipe (selected_kind r) s) /\
     get_pipe (other_kind (selected_kind r)) s' =
       get_pipe (other_kind (selected_kind r)) s /\
     controlnet s' = controlnet s) \/
  (exists cls fi omi (res : exn + list string) s' pre tl,
     SCHEDULERS !! scheduler r = Some cls /\
     predict ext r s =
       (res, s',
        pre ++ EvInference (selected_kind r)
                 (configured (get_pipe (selected_kind r) s) cls)
                 (call_args r fi (seed_of r s) omi) :: tl) /\
     ((exists paths, res = inr paths /\ tl = [EvEmptyCache]) \/
      (res = inl (ModelError "pipeline") /\ tl = [])) /\
     Forall (fun ev => is_inference ev = false) pre /\
     (omi = None <-> mask r = None) /\
     get_pipe (selected_kind r) s' =
       configured (get_pipe (selected_kind r) s) cls /\
     get_pipe (other_kind (selected_kind r)) s' =
       get_pipe (other_kind (selected_kind r)) s /\
     controlnet s' = switched (controlnet s)).
Proof.
  destruct (prepare ext r s) as [[[e1|x] s1] ev1] eqn:Hprep;
    destruct (prepare_post ext r s _ _ _ Hprep)
      as (Ha1 & Hb1 & Hc1 & Hev1 & Herr1 & Hx1).
  { left. exists e1, s1, ev1. split; [|auto].
    rewrite predict_split. now apply bind_fail. }
  destruct (Hx1 x eq_refl) as [Hseed Hframe1]. clear Hx1 Herr1.
  destruct x as [[sd li] fi]. simpl in Hseed. subst sd.
  destruct (select_pipe ext r li (base_args r fi (seed_of r s)) s1)
    as [[[e2|sel] s2] ev2] eqn:Hsel;
    destruct (select_post ext r li _ s1 _ _ _ Hsel)
      as (Ha2 & Hb2 & Hc2 & Hd2 & Hev2 & Herr2 & Hx2).
  { left. exists e2, s2, (ev1 ++ ev2). split.
    - rewrite predict_split. eapply bind_ok_eq; [exact Hprep|]. cbn [fst snd].
      rewrite <- (app_nil_r ev2) at 1.
      rewrite (bind_fail _ _ _ _ _ _ Hsel). now rewrite app_nil_r.
    - split; [now apply Herr2|]. split; [now apply Forall_app|].
      repeat split; congruence. }
  destruct (Hx2 sel eq_refl) as (Hkind & (omi & Hargs & Homi) & Hmask). clear Hx2 Herr2.
  destruct sel as [kind args]. simpl in Hkind, Hargs. subst kind.
  assert (Hget : forall k, get_pipe k s2 = get_pipe k s)
    by (intros [|]; simpl; congruence).
  assert (Hcn : controlnet s2 = controlnet s) by congruence.
  assert (Hframe2 : prepared_frame (st_frame s2))
    by (eapply prepared_frame_mono; eassumption).
  assert (Hargs' : args = call_args r fi (seed_of r s) omi) by exact Hargs.
  clear Hargs. subst args.
  destruct (SCHEDULERS !! scheduler r) as [cls|] eqn:Hcls.
  - right. right.
    destruct (predict_tail_run ext r (selected_kind r)
                (call_args r fi (seed_of r s) omi) cls s2 Hcls Hframe2 Hmask)
      as (s3 & _ & Hsel3 & Hoth3 & Hcn3 & Htail).
    rewrite !Hget, Hcn in *.
    exists cls, fi, omi.
    destruct (ext_diffusion ext _ _ _ _) as [samples|].
    + destruct Htail as (Htail & _).
      eexists _, s3, (ev1 ++ ev2), _. split; [reflexivity|]. split.
      * rewrite predict_split. rewrite <- app_assoc.
        eapply bind_ok_eq; [exact Hprep|]. cbn [fst snd].
        eapply bind_ok_eq; [exact Hsel|]. exact Htail.
      * split; [left; eexists; split; reflexivity|].
        split; [now apply Forall_app|]. auto.
    + destruct Htail as (Htail & _).
      eexists _, s3, (ev1 ++ ev2), _. split; [reflexivity|]. split.
      * rewrite predict_split. rewrite <- app_assoc.
        eapply bind_ok_eq; [exact Hprep|]. cbn [fst snd].
        eapply bind_ok_eq; [exact Hsel|]. exact Htail.
      * split; [right; split; reflexivity|].
        split; [now apply Forall_app|]. auto.
  - right. left.
    eexists _, (ev1 ++ ev2). split; [reflexivity|]. split.
    + rewrite predict_split. rewrite <- (app_nil_r ev2).
      eapply bind_ok_eq; [exact Hprep|]. cbn [fst snd].
      eapply bind_ok_eq; [exact Hsel|].
      apply predict_tail_unknown. exact Hcls.
    + split; [now apply Forall_app|].
      rewrite <- !Hget, <- Hcn. destruct (selected_kind r); repeat split; reflexivity.
Qed.

(** X12.  Lines 185-236, for every request and every state.  [predict] never
    fails on an unbound local: the [del] statements of lines 228-234 are
    reached only with their names bound.  It fails with [KeyError] only for
    the scheduler name, and only when the registry does not have it; the
    lookup of the super-resolution model never fails.  So a request that
    passed the validation of the request boundary never ends in
    [KeyError]. *)
Theorem predict_lookup_errors (r : request) (s : state) :
  (forall name, outcome (predict ext r s) <> inl (UnboundLocalError name)) /\
  (forall key, outcome (predict ext r s) = inl (KeyError key) ->
     key = scheduler r /\ SCHEDULERS !! scheduler r = None) /\
  (validate r = inr tt ->
   forall key, outcome (handle_request ext r s) <> inl (KeyError key)).
Proof.
  assert (Hkey : forall key, outcome (predict ext r s) = inl (KeyError key) ->
                 key = scheduler r /\ SCHEDULERS !! scheduler r = None).
  { intros key.
    destruct (predict_cases r s)
      as [(e & s' & ev & -> & He & _) | [(s' & ev & Hnone & -> & _)
         | (cls & fi & omi & res & s' & pre & tl & _ & -> & Hres & _)]];
      [| |destruct Hres as [(paths & -> & _)|(-> & _)]];
      unfold outcome; simpl; intros [= Heq]; subst; try discriminate; auto. }
  split; [|split; [exact Hkey|]].
  - intros name.
    destruct (predict_cases r s)
      as [(e & s' & ev & -> & He & _) | [(s' & ev & Hnone & -> & _)
         | (cls & fi & omi & res & s' & pre & tl & _ & -> & Hres & _)]];
      [| |destruct Hres as [(paths & -> & _)|(-> & _)]];
      unfold outcome; simpl; intros [= Heq]; subst; discriminate.
  - intros Hval key. unfold handle_request. rewrite Hval.
    change (lift (inr tt)) with (ret tt). rewrite bind_ret_l.
    intros Hout. destruct (Hkey key Hout) as [_ Hnone].
    unfold validate in Hval.
    repeat match type of Hval with
           | (if negb ?b then _ else _) = _ =>
               destruct b eqn:?;
               [change (negb true) with false in Hval; cbv iota in Hval
               | discriminate Hval]
           end.
    match goal with H : bool_decide (scheduler r ∈ SCHEDULERS_keys) = true |- _ =>
      apply bool_decide_eq_true_1 in H; rename H into Hin end.
    change SCHEDULERS_keys with ["DDIM"; "DPMSolverMultistep"; "K_EULER_ANCESTRAL"; "K_EULER"]
      in Hin.
    rewrite !elem_of_cons, elem_of_nil in Hin.
    assert (Hsome : is_Some (SCHEDULERS !! scheduler r)).
    { rewrite SCHEDULERS_lookup.
      destruct Hin as [->|[->|[->|[->|[]]]]];
        repeat case_decide; try congruence; now eexists. }
    rewrite Hnone in Hsome. now destruct Hsome.
Qed.

(** X13.  Lines 41-56 and 206-219, for every request and every state.
    [predict] never assigns an attribute of the pipeline object it did not
    select, whether it returns or raises; the selected one it either leaves
    as it was (the run failed before line 217) or leaves without a safety
    checker.  The ControlNet is one object held by both pipelines: line 219
    switches its attention optimisation on, so also for the pipeline that was
    not selected.  A run that made its inference call has passed line 219
    and leaves the ControlNet switched, also when the call raised; a run that
    made none leaves it as it was.  In particular a run that returns leaves
    it switched. *)
Theorem predict_pipelines_after (r : request) (s : state) :
  let run := predict ext r s in
  get_pipe (other_kind (selected_kind r)) (final run) =
    get_pipe (other_kind (selected_kind r)) s /\
  (get_pipe (selected_kind r) (final run) = get_pipe (selected_kind r) s \/
   safety_checker (get_pipe (selected_kind r) (final run)) = None) /\
  controlnet (final run) =
    (if existsb is_inference (events run) then switched (controlnet s)
     else controlnet s) /\
  (forall paths, outcome run = inr paths ->
     controlnet (final run) = switched (controlnet s)).
Proof.
  assert (Hnone : forall evs : list event,
             Forall (fun ev => is_inference ev = false) evs ->
             existsb is_inference evs = false).
  { induction 1 as [|ev evs Hev _ IH]; [reflexivity|]. simpl. now rewrite Hev. }
  destruct (predict_cases r s)
    as [(e & s' & ev & -> & He & Hev & Ha & Hb & Hc)
       | [(s' & ev & Hnone' & -> & Hev & Hsel & Hoth & Hc)
       | (cls & fi & omi & res & s' & pre & tl & _ & -> & _ & Hpre & _
          & Hsel & Hoth & Hc)]];
    unfold final, outcome, events; cbn [fst snd].
  - assert (Hget : forall k, get_pipe k s' = get_pipe k s)
      by (intros [|]; simpl; congruence).
    rewrite !Hget, (Hnone _ Hev). repeat split; auto. discriminate.
  - rewrite Hsel, Hoth, (Hnone _ Hev). repeat split; auto. discriminate.
  - rewrite Hsel, Hoth, existsb_app, (Hnone _ Hpre). simpl. auto.
Qed.

(** X14.  Lines 185-220, for every request and every state.  A run makes at most
    one inference call.  If it makes one, the call goes to the pipeline the
    mask selects, configured as lines 217-219 say, with the arguments of lines
    194-211: in particular the generator is seeded with the seed of the
    request, or with the two bytes drawn for it, and "mask_image" is passed
    exactly when there is a mask. *)
Theorem predict_any_inference (r : request) (s : state) :
  (length (filter (fun ev => is_inference ev = true) (events (predict ext r s)))
     <= 1)%nat /\
  (forall kind pipe args,
     EvInference kind pipe args ∈ events (predict ext r s) ->
     kind = selected_kind r /\
     (exists cls, SCHEDULERS !! scheduler r = Some cls /\
                  pipe = configured (get_pipe kind s) cls) /\
     (exists fi omi, args = call_args r fi (seed_of r s) omi /\
                     (omi = None <-> mask r = None)) /\
     args !! "generator" = Some (VGenerator (seed_of r s)) /\
     args !! "image" = args !! "control_image" /\
     (is_Some (args !! "mask_image") <-> is_Some (mask r))).
Proof.
  assert (Hnone : forall evs : list event,
             Forall (fun ev => is_inference ev = false) evs ->
             filter (fun ev => is_inference ev = true) evs = [] /\
             forall kind pipe args, EvInference kind pipe args ∉ evs).
  { intros evs Hall. split.
    - induction Hall as [|ev evs Hev _ IH]; [reflexivity|].
      rewrite filter_cons_False; [exact IH | congruence].
    - intros kind pipe args Hin. rewrite Forall_forall in Hall.
      apply Hall in Hin. discriminate. }
  destruct (predict_cases r s)
    as [(e & s' & ev & -> & He & Hev & _) | [(s' & ev & _ & -> & Hev & _)
       | (cls & fi & omi & res & s' & pre & tl & Hcls & -> & Htl & Hpre & Homi & _)]];
    unfold events; simpl.
  - destruct (Hnone ev Hev) as [-> Hno]. split; [simpl; lia|].
    intros kind pipe args Hin. now apply Hno in Hin.
  - destruct (Hnone ev Hev) as [-> Hno]. split; [simpl; lia|].
    intros kind pipe args Hin. now apply Hno in Hin.
  - destruct (Hnone pre Hpre) as [Hfil Hno]. split.
    + rewrite filter_app, Hfil.
      destruct Htl as [(paths & _ & ->)|(_ & ->)]; simpl; reflexivity.
    + intros kind pipe args Hin.
      apply elem_of_app in Hin as [Hin|Hin]; [now apply Hno in Hin|].
      apply elem_of_cons in Hin as [[= -> -> ->]|Hin].
      2:{ destruct Htl as [(paths & _ & ->)|(_ & ->)];
            [|now apply elem_of_nil in Hin].
          apply elem_of_cons in Hin as [Hin|Hin]; [discriminate|].
          now apply elem_of_nil in Hin. }
      split; [reflexivity|].
      split; [exists cls; auto|].
      split; [exists fi, omi; auto|].
      unfold call_args, base_args.
      destruct omi as [mi|]; simplify_map_eq;
        (split; [reflexivity|]); (split; [reflexivity|]).
      * split; intros _; [|now eexists].
        destruct (mask r); [now eexists|]. destruct Homi as [_ Hm].
        now specialize (Hm eq_refl).
      * split; intros [x Hx]; [discriminate|].
        destruct Homi as [Hm _]. rewrite (Hm eq_refl) in Hx. discriminate.
Qed.

End EveryRun.

Section Refused.

Variable ext : externals.

(** [predict] up to a [load_image] that fails. *)
Lemma predict_stops_at_load (r : request) (s : state) (e : exn)
    (fs : gmap string file) :
  seed_ok r ->
  (forall s2, st_fs s2 = st_fs s ->
              load_image ext (image r) s2 = (inl e, set_fs fs s2, [])) ->
  exists s',
    predict ext r s =
      (inl e, s', [EvPrint ("Using seed: " +:+ pretty (seed_of r s))]) /\
    st_heap s' = st_heap s /\ st_fs s' = fs /\
    img2img_pipe s' = img2img_pipe s /\ inpaint_pipe s' = inpaint_pipe s /\
    controlnet s' = controlnet s /\
    st_frame s' = {[ "generator" := LGenerator (seed_of r s) ]}.
Proof.
  intros Hseedok Hload. unfold predict.
  rewrite (bind_pure _ _ s (set_frame ∅ s) tt eq_refl).
  destruct (resolve_seed_run r (set_frame ∅ s))
    as (s1 & Hseed & Hh1 & Hf1 & Hfr1 & Ha1 & Hb1 & Hc1).
  change (seed_of r (set_frame ∅ s)) with (seed_of r s) in Hseed.
  rewrite (bind_pure _ _ _ _ _ Hseed).
  eexists. split.
  - rewrite <- (app_nil_r [EvPrint _]).
    eapply bind_ok_eq; [reflexivity|].
    rewrite (bind_pure _ _ _ _ _ (manual_seed_run r s s1 Hseedok)).
    rewrite (bind_pure _ _ _ _ _ (assign_run _ _ _)).
    apply bind_fail. apply Hload. simpl. exact Hf1.
  - simpl. rewrite Hfr1. simpl. repeat split; try assumption.
Qed.

Lemma set_fs_same (s : state) : set_fs (st_fs s) s = s.
Proof. now destruct s. Qed.

(** X15.  Lines 185-190 when the image cannot be loaded, the seed being one
    [manual_seed] takes.  Without an image [predict] raises [TypeError]; with
    a path that names no file, [FileNotFoundError]; with the scratch path
    itself, when that file is there, [SameFileError]; with a file no image
    can be read from, [UnidentifiedImageError], and then the scratch file
    holds a copy of that file.  In each case the seed has been drawn and
    printed before, nothing else is logged, no image object was made, no
    other file written, no pipeline touched, and the generator is the only
    local bound. *)
Theorem predict_image_not_loaded (r : request) (s : state) :
  seed_ok r ->
  let after e fs :=
    exists s',
      predict ext r s =
        (inl e, s', [EvPrint ("Using seed: " +:+ pretty (seed_of r s))]) /\
      st_heap s' = st_heap s /\ st_fs s' = fs /\
      img2img_pipe s' = img2img_pipe s /\ inpaint_pipe s' = inpaint_pipe s /\
      controlnet s' = controlnet s /\
      st_frame s' = {[ "generator" := LGenerator (seed_of r s) ]} in
  (image r = None -> exists msg, after (TypeError msg) (st_fs s)) /\
  (forall p, image r = Some p -> st_fs s !! p = None ->
             after (FileNotFoundError p) (st_fs s)) /\
  (image r = Some "/tmp/image.png" -> is_Some (st_fs s !! "/tmp/image.png") ->
   after (SameFileError "/tmp/image.png") (st_fs s)) /\
  (forall p content,
     image r = Some p -> p <> "/tmp/image.png" ->
     st_fs s !! p = Some (OtherFile content) ->
     after (UnidentifiedImageError "/tmp/image.png")
           (<["/tmp/image.png" := OtherFile content]> (st_fs s))).
Proof.
  intros Hseedok after. split; [|split; [|split]].
  - intros Himg. eexists. apply predict_stops_at_load; [exact Hseedok|].
    intros s2 Hfs. rewrite Himg, <- Hfs, set_fs_same. reflexivity.
  - intros p Himg Hnone. apply predict_stops_at_load; [exact Hseedok|].
    intros s2 Hfs. rewrite Himg, <- Hfs, set_fs_same.
    unfold load_image. apply bind_fail. unfold copyfile. now rewrite Hfs, Hnone.
  - intros Himg [f Hf]. apply predict_stops_at_load; [exact Hseedok|].
    intros s2 Hfs. rewrite Himg, <- Hfs, set_fs_same.
    unfold load_image. apply bind_fail. unfold copyfile. rewrite Hfs, Hf.
    now rewrite bool_decide_true by reflexivity.
  - intros p content Himg Hp Hf. apply predict_stops_at_load; [exact Hseedok|].
    intros s2 Hfs. rewrite Himg. unfold load_image.
    rewrite <- Hfs in Hf.
    rewrite (bind_pure _ _ _ _ _ (copyfile_run p _ s2 Hf Hp)).
    apply bind_fail. unfold read_image. simpl. rewrite lookup_insert_eq.
    now rewrite Hfs.
Qed.

(** X16.  Lines 72-74 on an image with a side of length 0: for every tier other
    than "original" the division on line 74 raises [ZeroDivisionError].  The
    RGB copy of line 72 has been made by then; nothing is resized and no model
    is called. *)
Theorem resize_zero_side (input : nat) (img : Image) (resolution : string)
    (s : state) :
  st_heap s !! input = Some img ->
  resolution <> "original" ->
  Z.min (im_height img) (im_width img) = 0 ->
  exists copy,
    resize_for_condition_image ext input resolution s =
      (inl ZeroDivisionError,
       set_heap (<[copy := convert_image ext "RGB" img]> (st_heap s)) s, []) /\
    st_heap s !! copy = None.
Proof.
  intros Hin Hres Hmin. unfold resize_for_condition_image.
  rewrite bool_decide_false by exact Hres.
  exists (fresh (dom (st_heap s))). split; [|apply fresh_heap_None].
  assert (Hc : pil_convert ext input "RGB" s =
               (inr (fresh (dom (st_heap s))),
                set_heap (<[fresh (dom (st_heap s)) := convert_image ext "RGB" img]>
                            (st_heap s)) s, []))
    by (rewrite (pil_convert_run ext input "RGB" img s Hin); reflexivity).
  rewrite (bind_pure _ _ _ _ _ Hc).
  assert (Hin' : st_heap (set_heap (<[fresh (dom (st_heap s)) :=
                    convert_image ext "RGB" img]> (st_heap s)) s) !! input = Some img).
  { simpl. rewrite lookup_insert_ne; [exact Hin|].
    intros Heq. pose proof (fresh_heap_None s) as Hf. rewrite Heq in Hf. congruence. }
  rewrite (bind_pure _ _ _ _ _ (deref_run _ _ _ Hin')).
  unfold im_size. cbv beta iota.
  unfold scale_factor_of. rewrite Hmin. reflexivity.
Qed.

End Refused.

(* ================================================================== *)
(** * A request with a seed *)
(* ================================================================== *)

Section Seeded.

Variable ext : externals.


End Seeded.

(* ================================================================== *)
(** * The further properties at the sample data *)
(* ================================================================== *)

(** Nine equal exposures of the sample image. *)
Lemma exposures_at_zero_witness :
  hsv_pixels_ok hsv_externals /\
  exposures hsv_externals sample_array (float_of_Z 0) =
    repeat (hsv_round_trip hsv_externals sample_array) 9.
Proof.
  assert (Hok : hsv_pixels_ok hsv_externals).
  { intros px. eexists _, _, _. split; [reflexivity|]. lia. }
  split; [exact Hok|].
  exact (proj1 (exposures_at_zero hsv_externals sample_array Hok)).
Defined.

(** Loading the sample image. *)
Lemma load_image_loads_witness :
  st_fs sample_state !! "/in/image.png" = Some (ImageFile sample_image) /\
  "/in/image.png" <> "/tmp/image.png" /\
  exists out loaded s',
    load_image sample_externals (Some "/in/image.png") sample_state = (inr out, s', []) /\
    st_heap sample_state !! out = None /\
    st_heap s' !! out = Some loaded /\
    im_mode loaded = "RGB" /\ im_size loaded = im_size sample_image /\
    st_fs s' = <["/tmp/image.png" := ImageFile sample_image]> (st_fs sample_state) /\
    st_heap sample_state ⊆ st_heap s' /\ rest_same sample_state s'.
Proof.
  assert (Hne : "/in/image.png" <> "/tmp/image.png") by discriminate.
  split; [reflexivity|]. split; [exact Hne|].
  apply (load_image_loads sample_externals "/in/image.png" sample_image sample_state);
    [reflexivity | exact Hne].
Defined.


(** A tier nobody declared acts as "1024". *)
Lemma resize_tiers_witness :
  "512" <> "original" /\ "512" <> "2048" /\
  resize_for_condition_image sample_externals 0 "512" sample_loaded_state =
  resize_for_condition_image sample_externals 0 "1024" sample_loaded_state.
Proof.
  assert (H1 : "512" <> "original") by discriminate.
  assert (H2 : "512" <> "2048") by discriminate.
  split; [exact H1|]. split; [exact H2|].
  exact (proj1 (resize_tiers sample_externals 0 "512" sample_loaded_state) H1 H2).
Defined.

(** The sample request with the 2x2 mask: one call, to the inpainting
    pipeline. *)
Lemma predict_inference_call_witness :
  let r := sample_request (Some "/in/mask2.png") "original" (Some 42) in
  let run := predict sample_externals r sample_state in
  seed_ok r /\
  conditioning_image sample_externals (resolution r)
    (loaded_as sample_externals sample_image) = inr sample_image /\
  pil_to_cv sample_image = inr sample_array /\
  mask_ok r sample_state sample_image /\
  SCHEDULERS !! scheduler r = Some DDIMScheduler /\
  exists fi omi,
    filter (fun ev => is_inference ev = true) (events run) =
      [EvInference Inpaint (configured (inpaint_pipe sample_state) DDIMScheduler)
         (call_args r fi 42 omi)] /\
    st_heap (final run) !! fi =
      Some (hdr_image sample_externals sample_array (hdr r)) /\
    (omi = None <-> mask r = None) /\
    (forall mi, omi = Some mi ->
       exists m msk, mask r = Some m /\
                     st_fs sample_state !! m = Some (ImageFile msk) /\
                     st_heap (final run) !! mi = Some (loaded_as sample_externals msk)) /\
    inpaint_pipe (final run) = configured (inpaint_pipe sample_state) DDIMScheduler /\
    img2img_pipe (final run) = img2img_pipe sample_state /\
    controlnet (final run) = switched (controlnet sample_state).
Proof.
  intros r run.
  assert (Hseed : seed_ok r) by (intros z [= <-]; split; [discriminate | reflexivity]).
  assert (Hctrl : conditioning_image sample_externals (resolution r)
                    (loaded_as sample_externals sample_image) = inr sample_image)
    by reflexivity.
  assert (Hcv : pil_to_cv sample_image = inr sample_array) by reflexivity.
  assert (Hm : mask_ok r sample_state sample_image).
  { split; [discriminate|]. split; [reflexivity|].
    exists sample_mask_2x2. split; reflexivity. }
  assert (Hs : SCHEDULERS !! scheduler r = Some DDIMScheduler) by reflexivity.
  split; [exact Hseed|]. split; [exact Hctrl|]. split; [exact Hcv|].
  split; [exact Hm|]. split; [exact Hs|].
  apply (predict_inference_call sample_externals r sample_state "/in/image.png"
           sample_image sample_image sample_array DDIMScheduler);
    [reflexivity | discriminate | reflexivity | exact Hseed | exact Hctrl | exact Hcv
    | exact Hm | exact Hs].
Defined.

(** The sample request without a mask: the files it leaves. *)
Lemma predict_output_files_witness :
  let r := sample_request None "original" (Some 42) in
  let run := predict sample_externals r sample_state in
  seed_ok r /\
  conditioning_image sample_externals (resolution r)
    (loaded_as sample_externals sample_image) = inr sample_image /\
  pil_to_cv sample_image = inr sample_array /\
  mask_ok r sample_state sample_image /\
  exists args heap,
    EvInference Img2Img (configured (img2img_pipe sample_state) DDIMScheduler) args
      ∈ events run /\
    st_heap sample_state ⊆ heap /\
    st_fs (final run) !! "/tmp/image.png" = st_fs sample_state !! "/in/image.png" /\
    match ext_diffusion sample_externals Img2Img
            (configured (img2img_pipe sample_state) DDIMScheduler) args heap with
    | Some samples =>
        outcome run = inr (map out_path (seq 0 (length samples))) /\
        (forall k sample, samples !! k = Some sample ->
           st_fs (final run) !! out_path k = Some (ImageFile sample)) /\
        (forall q, q <> "/tmp/image.png" ->
           (forall k, (k < length samples)%nat -> q <> out_path k) ->
           st_fs (final run) !! q = st_fs sample_state !! q) /\
        (forall k, (length samples <= k)%nat ->
           st_fs (final run) !! out_path k = st_fs sample_state !! out_path k)
    | None =>
        outcome run = inl (ModelError "pipeline") /\
        (forall q, q <> "/tmp/image.png" ->
           st_fs (final run) !! q = st_fs sample_state !! q)
    end.
Proof.
  intros r run.
  assert (Hseed : seed_ok r) by (intros z [= <-]; split; [discriminate | reflexivity]).
  assert (Hctrl : conditioning_image sample_externals (resolution r)
                    (loaded_as sample_externals sample_image) = inr sample_image)
    by reflexivity.
  assert (Hcv : pil_to_cv sample_image = inr sample_array) by reflexivity.
  assert (Hm : mask_ok r sample_state sample_image) by exact I.
  split; [exact Hseed|]. split; [exact Hctrl|]. split; [exact Hcv|].
  split; [exact Hm|].
  apply (predict_output_files sample_externals r sample_state "/in/image.png"
           sample_image sample_image sample_array DDIMScheduler);
    [reflexivity | discriminate | reflexivity | exact Hseed | exact Hctrl | exact Hcv
    | exact Hm | reflexivity].
Defined.

(** The request for the scheduler "LMS", called directly. *)
Lemma predict_unknown_scheduler_witness :
  let r := unknown_scheduler_request in
  seed_ok r /\
  conditioning_image sample_externals (resolution r)
    (loaded_as sample_externals sample_image) = inr sample_image /\
  pil_to_cv sample_image = inr sample_array /\
  mask_ok r sample_state sample_image /\
  SCHEDULERS !! scheduler r = None /\
  exists s',
    predict sample_externals r sample_state =
      (inl (KeyError "LMS"), s',
       EvPrint ("Using seed: " +:+ pretty (seed_of r sample_state)) ::
       conditioning_calls sample_externals (resolution r)
         (loaded_as sample_externals sample_image)) /\
    img2img_pipe s' = unchecked (img2img_pipe sample_state) /\
    inpaint_pipe s' = inpaint_pipe sample_state /\
    controlnet s' = controlnet sample_state /\
    prepared_frame (st_frame s').
Proof.
  intros r.
  assert (Hseed : seed_ok r) by (intros z Hz; discriminate Hz).
  assert (Hctrl : conditioning_image sample_externals (resolution r)
                    (loaded_as sample_externals sample_image) = inr sample_image)
    by reflexivity.
  assert (Hcv : pil_to_cv sample_image = inr sample_array) by reflexivity.
  assert (Hm : mask_ok r sample_state sample_image) by exact I.
  assert (Hs : SCHEDULERS !! scheduler r = None) by reflexivity.
  split; [exact Hseed|]. split; [exact Hctrl|]. split; [exact Hcv|].
  split; [exact Hm|]. split; [exact Hs|].
  apply (predict_unknown_scheduler sample_externals r sample_state "/in/image.png"
           sample_image sample_image sample_array);
    [reflexivity | discriminate | reflexivity | exact Hseed | exact Hctrl | exact Hcv
    | exact Hm | exact Hs].
Defined.

(** The request for a file that is not there. *)
Lemma predict_image_not_loaded_witness :
  let r := request_for "/in/none.png" in
  seed_ok r /\
  st_fs sample_state !! "/in/none.png" = None /\
  exists s',
    predict sample_externals r sample_state =
      (inl (FileNotFoundError "/in/none.png"), s', [EvPrint "Using seed: 42"]) /\
    st_heap s' = st_heap sample_state /\ st_fs s' = st_fs sample_state /\
    img2img_pipe s' = img2img_pipe sample_state /\
    inpaint_pipe s' = inpaint_pipe sample_state /\
    controlnet s' = controlnet sample_state /\
    st_frame s' = {[ "generator" := LGenerator 42 ]}.
Proof.
  intros r.
  assert (Hseed : seed_ok r) by (intros z [= <-]; split; [discriminate | reflexivity]).
  split; [exact Hseed|]. split; [reflexivity|].
  apply (proj1 (proj2 (predict_image_not_loaded sample_externals r sample_state Hseed))
           "/in/none.png");
    reflexivity.
Defined.

(** The request for the text file: refused on line 118, with the scratch file
    overwritten. *)
Example predict_text_file :
  let run := predict sample_externals (request_for "/in/notes.txt") sample_state in
  outcome run = inl (UnidentifiedImageError "/tmp/image.png") /\
  st_fs (final run) !! "/tmp/image.png" = Some (OtherFile "not an image").
Proof. vm_compute. split; reflexivity. Qed.

(** A seed of 65 bits is refused on line 189, after it was printed. *)
Example predict_seed_too_large :
  let run := predict sample_externals (sample_request None "original" (Some (2 ^ 64)))
               sample_state in
  outcome run = inl (RuntimeError "Overflow when unpacking long") /\
  events run = [EvPrint "Using seed: 18446744073709551616"] /\
  st_frame (final run) = ∅.
Proof. split; [|split]; vm_compute; reflexivity. Qed.

(** The image without pixels cannot be resized. *)
Lemma resize_zero_side_witness :
  st_heap sample_empty_state !! 0%nat = Some empty_image /\
  "1024" <> "original" /\
  Z.min (im_height empty_image) (im_width empty_image) = 0 /\
  exists copy,
    resize_for_condition_image sample_externals 0 "1024" sample_empty_state =
      (inl ZeroDivisionError,
       set_heap (<[copy := convert_image sample_externals "RGB" empty_image]>
                   (st_heap sample_empty_state)) sample_empty_state, []) /\
    st_heap sample_empty_state !! copy = None.
Proof.
  assert (Hne : "1024" <> "original") by discriminate.
  split; [reflexivity|]. split; [exact Hne|]. split; [reflexivity|].
  apply (resize_zero_side sample_externals 0 empty_image "1024" sample_empty_state);
    [reflexivity | exact Hne | reflexivity].
Defined.

(** With the tier "original" the image without pixels is copied, and line
    107 refuses the copy. *)
Example create_hdr_effect_empty :
  outcome (create_hdr_effect sample_externals 0 (float_of_Z 0) sample_empty_state)
    = inl CvError.
Proof. vm_compute. reflexivity. Qed.

(** The sample request passes the validation and does not end in
    [KeyError]. *)
Lemma predict_lookup_errors_witness :
  validate (sample_request None "original" (Some 42)) = inr tt /\
  forall key,
    outcome (handle_request sample_externals (sample_request None "original" (Some 42))
               sample_state) <> inl (KeyError key).
Proof.
  assert (Hv : validate (sample_request None "original" (Some 42)) = inr tt)
    by (vm_compute; reflexivity).
  split; [exact Hv|].
  exact (proj2 (proj2 (predict_lookup_errors sample_externals
                         (sample_request None "original" (Some 42)) sample_state)) Hv).
Defined.

(** The inference call of the sample request. *)
Lemma predict_any_inference_witness :
  let r := sample_request None "original" (Some 42) in
  let pipe := configured (img2img_pipe sample_state) DDIMScheduler in
  let args := call_args r 3 42 None in
  EvInference Img2Img pipe args ∈ events (predict sample_externals r sample_state) /\
  args !! "generator" = Some (VGenerator 42) /\
  args !! "image" = args !! "control_image" /\
  (is_Some (args !! "mask_image") <-> is_Some (mask r)).
Proof.
  intros r pipe args.
  assert (Hin : EvInference Img2Img pipe args
                  ∈ events (predict sample_externals r sample_state)).
  { apply (list_elem_of_lookup_2 _ 1%nat). vm_compute. reflexivity. }
  split; [exact Hin|].
  pose proof (proj2 (predict_any_inference sample_externals r sample_state)
                Img2Img pipe args Hin) as H.
  exact (proj2 (proj2 (proj2 H))).
Defined.

(** A request served by the image-to-image pipeline switches the attention
    optimisation of the ControlNet on, which the inpainting pipeline holds
    too; the inpainting pipeline itself is as it was. *)
Example predict_switches_controlnet :
  let run := predict sample_externals (sample_request None "original" (Some 42))
               sample_state in
  cn_xformers (controlnet sample_state) = false /\
  cn_xformers (controlnet (final run)) = true /\
  inpaint_pipe (final run) = inpaint_pipe sample_state.
Proof. vm_compute. repeat split. Qed.

(** The stand-in pipeline raises when asked for no step.  The call of line
    220 was made and line 219 has switched the ControlNet; no output file is
    written, the four locals stay bound and the device cache is not
    emptied. *)
Example predict_pipeline_raises :
  let run := predict sample_externals zero_steps_request sample_state in
  outcome run = inl (ModelError "pipeline") /\
  length (filter (fun ev => is_inference ev = true) (events run)) = 1%nat /\
  last (events run) <> Some EvEmptyCache /\
  cn_xformers (controlnet (final run)) = true /\
  st_fs (final run) !! "/tmp/out-0.png" = None /\
  dom (st_frame (final run))
    = {[ "generator"; "loaded_image"; "control_image"; "final_image" ]}.
Proof.
  split; [|split; [|split; [|split; [|split]]]]; vm_compute;
    first [reflexivity | discriminate].
Qed.

(** A 3 x 7 image becomes 1024 pixels wide. *)
Lemma resize_short_side_witness :
  valid_side 3 /\ valid_side 7 /\
  exists new_width new_height,
    new_size 3 7 = inr (new_width, new_height) /\
    Z.min new_width new_height = 1024 /\
    (3 <= 7 -> new_width = 1024) /\
    (7 <= 3 -> new_height = 1024).
Proof.
  assert (H3 : valid_side 3) by (unfold valid_side; split; [lia | reflexivity]).
  assert (H7 : valid_side 7) by (unfold valid_side; split; [lia | reflexivity]).
  split; [exact H3|]. split; [exact H7|].
  apply (resize_short_side 3 7); [exact H3 | exact H7].
Defined.

(** A 3 x 7 image becomes 1024 x 2368: 7 * 1024 / 3 is 2389.33, and 2368 is
    the multiple of 64 nearest to it. *)
Lemma resize_nearest_multiple_witness :
  1 <= 3 < 2 ^ 32 /\ 1 <= 7 < 2 ^ 32 /\
  exists nw nh,
    new_size 3 7 = inr (nw * 64, nh * 64) /\
    Z.abs (2 * (nw * 3 - 16 * 3)) <= 3 /\
    Z.abs (2 * (nh * 3 - 16 * 7)) <= 3.
Proof.
  assert (H3 : 1 <= 3 < 2 ^ 32) by (split; [lia | reflexivity]).
  assert (H7 : 1 <= 7 < 2 ^ 32) by (split; [lia | reflexivity]).
  split; [exact H3|]. split; [exact H7|].
  apply (resize_nearest_multiple 3 7); [exact H3 | exact H7].
Defined.

(** The same image through the code: 1024 x 2368. *)
Example resize_3x7 :
  new_size 3 7 = inr (1024, 2368).
Proof. vm_compute. reflexivity. Qed.

